(** * A "chat with your PDF" front end: store, controllers, gateway

    A shallow embedding of the client of the repository: the reducer of
    [contexts/AppContext], the error policy of [services/api], the upload
    controller of [components/FileUpload], the chat controllers of
    [components/ChatInterface] and [hooks/useChat], and the citation chip of
    [components/CitationLink].

    Conventions of the embedding.
    - A JavaScript string is a [string]; each character stands for one
      UTF-16 code unit below 256.
    - A JavaScript number that the code only uses as an integer (page
      numbers, sizes, HTTP statuses, clock readings) is a [Z].
    - [null] and [undefined] are [None]; payloads carry the types the call
      sites of the repository give them.  Where the two must be told apart
      (the keys of a [Map]) the data is modelled a second time with both
      ([RawCitation]).
    - A call that resolves carries a body of the shape the gateway
      documents.
    - An asynchronous handler is a function from its inputs and from the
      settlement of the one network call it awaits to the list of effects it
      performs, in program order.  Console logging is left out. *)

From Stdlib Require Import ZArith List String Ascii Bool Lia.
From Stdlib Require Import QArith_base DecimalString.
Import ListNotations.

Local Open Scope string_scope.
Local Open Scope Z_scope.

(** ** JavaScript helpers *)

Module Js.

(** Truthiness of an optional string: [undefined], [null] and the empty
    string are falsy. *)
Definition truthy (v : option string) : bool :=
  match v with
  | Some s => negb (s =? "")%string
  | None => false
  end.

(** [a || b] where [b] is a string. *)
Definition or_else (a : option string) (b : string) : string :=
  match a with
  | Some s => if (s =? "")%string then b else s
  | None => b
  end.

(** [a || b] where [b] may itself be missing. *)
Definition or_opt (a b : option string) : option string :=
  if truthy a then a else b.

(** Truthiness of an optional number: [undefined] and [0] are falsy. *)
Definition truthy_num (v : option Z) : bool :=
  match v with
  | Some n => negb (n =? 0)
  | None => false
  end.

(** The Number value of a non-negative integer [n], as an integer: [n]
    itself up to 2^53, and beyond that [n] rounded to 53 significant bits,
    ties to even.  (The exponent range is not bounded here: a numeral
    beyond the largest double, which the code turns into Infinity, has no
    counterpart.) *)
Definition toNumber (n : Z) : Z :=
  if n <=? 2 ^ 53 then n
  else
    let e := Z.log2 n - 52 in
    let q := Z.shiftr n e in
    let r := n - Z.shiftl q e in
    let half := Z.shiftl 1 (e - 1) in
    let q' := if (half <? r) || ((r =? half) && Z.odd q) then q + 1 else q in
    Z.shiftl q' e.

(** [String(n)] for an integer. *)
Definition string_of_Z (n : Z) : string :=
  NilEmpty.string_of_int (Z.to_int n).

(** WhiteSpace and LineTerminator code units below 256: TAB, LF, VT, FF,
    CR, SP and NBSP.  [String.prototype.trim] and the regular expression
    class [\s] use the same set. *)
Definition isWhiteSpace (c : ascii) : bool :=
  let n := nat_of_ascii c in
  ((9 <=? n) && (n <=? 13) || (n =? 32) || (n =? 160))%nat.

(** The class [\d]. *)
Definition isDigit (c : ascii) : bool :=
  let n := nat_of_ascii c in
  ((48 <=? n) && (n <=? 57))%nat.

Fixpoint trimStart (s : string) : string :=
  match s with
  | String c s' => if isWhiteSpace c then trimStart s' else s
  | EmptyString => EmptyString
  end.

Fixpoint trimEnd (s : string) : string :=
  match s with
  | String c s' =>
      match trimEnd s' with
      | EmptyString => if isWhiteSpace c then EmptyString else String c EmptyString
      | t => String c t
      end
  | EmptyString => EmptyString
  end.

Definition trim (s : string) : string := trimEnd (trimStart s).

Fixpoint all (p : ascii -> bool) (s : string) : bool :=
  match s with
  | String c s' => p c && all p s'
  | EmptyString => true
  end.

(** Outcome of a block that may throw. *)
Inductive result (E A : Type) : Type :=
| Return (a : A)
| Throw (e : E).
Arguments Return {E A} a.
Arguments Throw {E A} e.

End Js.

(** ** utils/constants *)

Module Constants.

Definition MAX_FILE_SIZE : Z := 10 * 1024 * 1024.
Definition ALLOWED_FILE_TYPES : list string := ["application/pdf"].
Definition MAX_MESSAGE_LENGTH : Z := 1000.
Definition TYPING_INDICATOR_DELAY : Z := 500.

Module ERROR_MESSAGES.
Definition FILE_TOO_LARGE : string :=
  "File size must be less than "
    ++ Js.string_of_Z (MAX_FILE_SIZE / (1024 * 1024)) ++ "MB".
Definition INVALID_FILE_TYPE : string := "Only PDF files are allowed".
Definition UPLOAD_FAILED : string := "Failed to upload file. Please try again.".
Definition CHAT_FAILED : string := "Failed to send message. Please try again.".
Definition CONNECTION_ERROR : string :=
  "Unable to connect to server. Please check your connection.".
End ERROR_MESSAGES.

(** MESSAGE_TYPES *)
Inductive MessageType : Type := USER | ASSISTANT | SYSTEM | ERROR.

End Constants.

(** ** The data model *)

(** A browser [File] handle. *)
Record File : Type := mkFile {
  file_name : string;
  file_size : Z;
  file_type : string;
  file_lastModified : Z
}.

(** The parsed-document handle is opaque to this layer. *)
Inductive PdfDocument : Type := PdfHandle (n : nat).

Record Citation : Type := mkCitation {
  page : option Z;
  section : option string;
  text : option string;
  confidence : option Q;
  cit_type : option string
}.

Record TokenUsage : Type := mkTokenUsage {
  prompt : Z;
  completion : Z;
  total : Z
}.

Record ChatMessage : Type := mkChatMessage {
  id : Z;
  msg_type : Constants.MessageType;
  content : string;
  msg_citations : option (list Citation);
  timestamp : string;
  tokenUsage : option TokenUsage
}.

(** ** contexts/AppContext: the store *)

Module AppContext.

Record AppState : Type := mkState {
  pdfFile : option File;
  pdfDocument : option PdfDocument;
  currentPage : Z;
  totalPages : Z;
  chatMessages : list ChatMessage;
  isLoading : bool;
  sessionId : option string;
  error : option string;
  citations : list Citation
}.

Definition initialState : AppState :=
  {| pdfFile := None;
     pdfDocument := None;
     currentPage := 1;
     totalPages := 0;
     chatMessages := [];
     isLoading := false;
     sessionId := None;
     error := None;
     citations := [] |}.

(** An action is its type tag with the payload that tag carries;
    [OTHER ty] stands for an action whose type is none of [actionTypes]. *)
Inductive Action : Type :=
| SET_PDF_FILE (payload : option File)
| SET_PDF_DOCUMENT (payload : option PdfDocument)
| SET_CURRENT_PAGE (payload : Z)
| SET_TOTAL_PAGES (payload : Z)
| ADD_CHAT_MESSAGE (payload : ChatMessage)
| SET_LOADING (payload : bool)
| SET_SESSION_ID (payload : option string)
| SET_ERROR (payload : option string)
| CLEAR_ERROR
| ADD_CITATION (payload : Citation)
| CLEAR_CHAT
| RESET_STATE
| OTHER (ty : string).

Definition appReducer (state : AppState) (action : Action) : AppState :=
  match action with
  | SET_PDF_FILE payload =>
      {| pdfFile := payload;
         pdfDocument := pdfDocument state; currentPage := currentPage state;
         totalPages := totalPages state; chatMessages := chatMessages state;
         isLoading := isLoading state; sessionId := sessionId state;
         error := error state; citations := citations state |}
  | SET_PDF_DOCUMENT payload =>
      {| pdfFile := pdfFile state;
         pdfDocument := payload;
         currentPage := currentPage state;
         totalPages := totalPages state; chatMessages := chatMessages state;
         isLoading := isLoading state; sessionId := sessionId state;
         error := error state; citations := citations state |}
  | SET_CURRENT_PAGE payload =>
      {| pdfFile := pdfFile state; pdfDocument := pdfDocument state;
         currentPage := payload;
         totalPages := totalPages state; chatMessages := chatMessages state;
         isLoading := isLoading state; sessionId := sessionId state;
         error := error state; citations := citations state |}
  | SET_TOTAL_PAGES payload =>
      {| pdfFile := pdfFile state; pdfDocument := pdfDocument state;
         currentPage := currentPage state;
         totalPages := payload;
         chatMessages := chatMessages state;
         isLoading := isLoading state; sessionId := sessionId state;
         error := error state; citations := citations state |}
  | ADD_CHAT_MESSAGE payload =>
      {| pdfFile := pdfFile state; pdfDocument := pdfDocument state;
         currentPage := currentPage state; totalPages := totalPages state;
         chatMessages := chatMessages state ++ [payload];
         isLoading := isLoading state; sessionId := sessionId state;
         error := error state; citations := citations state |}
  | SET_LOADING payload =>
      {| pdfFile := pdfFile state; pdfDocument := pdfDocument state;
         currentPage := currentPage state; totalPages := totalPages state;
         chatMessages := chatMessages state;
         isLoading := payload;
         sessionId := sessionId state;
         error := error state; citations := citations state |}
  | SET_SESSION_ID payload =>
      {| pdfFile := pdfFile state; pdfDocument := pdfDocument state;
         currentPage := currentPage state; totalPages := totalPages state;
         chatMessages := chatMessages state; isLoading := isLoading state;
         sessionId := payload;
         error := error state; citations := citations state |}
  | SET_ERROR payload =>
      {| pdfFile := pdfFile state; pdfDocument := pdfDocument state;
         currentPage := currentPage state; totalPages := totalPages state;
         chatMessages := chatMessages state;
         isLoading := false;
         sessionId := sessionId state;
         error := payload;
         citations := citations state |}
  | CLEAR_ERROR =>
      {| pdfFile := pdfFile state; pdfDocument := pdfDocument state;
         currentPage := currentPage state; totalPages := totalPages state;
         chatMessages := chatMessages state; isLoading := isLoading state;
         sessionId := sessionId state;
         error := None;
         citations := citations state |}
  | ADD_CITATION payload =>
      {| pdfFile := pdfFile state; pdfDocument := pdfDocument state;
         currentPage := currentPage state; totalPages := totalPages state;
         chatMessages := chatMessages state; isLoading := isLoading state;
         sessionId := sessionId state; error := error state;
         citations := citations state ++ [payload] |}
  | CLEAR_CHAT =>
      {| pdfFile := pdfFile state; pdfDocument := pdfDocument state;
         currentPage := currentPage state; totalPages := totalPages state;
         chatMessages := [];
         isLoading := isLoading state; sessionId := sessionId state;
         error := None;
         citations := [] |}
  | RESET_STATE => initialState
  | OTHER _ => state
  end.

(** [useReducer]: the store after a sequence of dispatched actions. *)
Definition dispatchAll (state : AppState) (actions : list Action) : AppState :=
  fold_left appReducer actions state.

End AppContext.

(** ** services/api: the gateway *)

Module Api.

(** [error.response.data] of a rejected call. *)
Record ErrorData : Type := mkErrorData {
  detail : option string;
  data_message : option string
}.

(** [error.response]. *)
Record ErrorResponse : Type := mkErrorResponse {
  status : Z;
  data : option ErrorData
}.

(** The rejection axios hands to the response interceptor. *)
Record AxiosError : Type := mkAxiosError {
  response : option ErrorResponse;
  request : bool;
  axios_message : option string
}.

(** A thrown [Error]. *)
Record JsError : Type := mkError { message : option string }.

Definition newError (msg : string) : JsError := {| message := Some msg |}.

(** [data?.detail || data?.message || 'An error occurred'] *)
Definition responseMessage (d : option ErrorData) : string :=
  Js.or_else
    (Js.or_opt (match d with Some x => detail x | None => None end)
               (match d with Some x => data_message x | None => None end))
    "An error occurred".

(** The rejection handler of [api.interceptors.response]: it always
    throws, and this is the [Error] it throws. *)
Definition responseInterceptor (error : AxiosError) : JsError :=
  match response error with
  | Some r =>
      let message := responseMessage (data r) in
      let message :=
        if status r =? 400 then "Bad Request: " ++ message
        else if status r =? 401 then "Unauthorized access"
        else if status r =? 403 then "Access forbidden"
        else if status r =? 404 then "Resource not found"
        else if status r =? 429 then "Too many requests. Please try again later."
        else if status r =? 500 then "Internal server error. Please try again."
        else "Server error (" ++ Js.string_of_Z (status r) ++ "): " ++ message in
      newError message
  | None =>
      if request error
      then newError "Unable to connect to server. Please check your connection."
      else newError (Js.or_else (axios_message error) "An unexpected error occurred")
  end.

Definition handleApiError (error : JsError) (defaultMessage : string) : string :=
  if Js.truthy (message error)
  then match message error with Some m => m | None => defaultMessage end
  else defaultMessage.

(** What a caller of the gateway shows for a rejected call: the
    interceptor rethrows, the caller's [catch] applies [handleApiError]. *)
Definition rejectionMessage (error : AxiosError) (defaultMessage : string) : string :=
  handleApiError (responseInterceptor error) defaultMessage.

(** Response bodies. *)
Record UploadResponse : Type := mkUploadResponse {
  session_id : option string;
  upload_message : option string
}.

Record ChatResponse : Type := mkChatResponse {
  chat_response : string;
  chat_citations : option (list Citation);
  token_usage : option TokenUsage
}.

(** Operations of [apiService] that the controllers invoke. *)
Inductive Operation : Type :=
| uploadPDF (file : option File)
| sendMessage (message : string) (sessionId : option string).

(** Settlement of an awaited [apiService] call: the response body, or the
    rejection, which reaches the caller through the interceptor. *)
Definition settle {A} (net : A + AxiosError) : Js.result JsError A :=
  match net with
  | inl body => Js.Return body
  | inr err => Js.Throw (responseInterceptor err)
  end.

End Api.

(** ** Effects of the handlers *)

(** [SetInterval] starts the progress timer of the upload component; its
    ticks only move the local progress cell and are not recorded (the
    callback stops the timer itself once the progress has reached 90).  [Await]
    is a pause of the handler, [Timeout] marks the point from which the
    effects are those of a [setTimeout] callback.  [ScrollIfPresent sel]
    is the body of the callback of [handleCitationClick]:
    [document.querySelector(sel)], and [scrollIntoView] on the element when
    there is one. *)
Inductive Effect : Type :=
| Dispatch (action : AppContext.Action)
| Call (op : Api.Operation)
| SetMessage (value : string)
| SetIsTyping (value : bool)
| SetIsUploading (value : bool)
| SetUploadProgress (value : Z)
| SetInterval (ms : Z)
| ClearInterval
| Await (ms : Z)
| Timeout (ms : Z)
| PreventDefault
| StopPropagation
| WindowEvent (name : string) (page : Z)
| ScrollIfPresent (selector : string).

(** A handler body: the effects performed so far, and how the body ended. *)
Module Eff.

Definition M (A : Type) : Type := (list Effect * Js.result Api.JsError A)%type.

Definition ret {A} (a : A) : M A := ([], Js.Return a).

Definition bind {A B} (m : M A) (k : A -> M B) : M B :=
  match m with
  | (tr, Js.Return a) => let (tr', r) := k a in ((tr ++ tr')%list, r)
  | (tr, Js.Throw e) => (tr, Js.Throw e)
  end.

Definition emit (e : Effect) : M unit := ([e], Js.Return tt).

Definition dispatch (a : AppContext.Action) : M unit := emit (Dispatch a).

(** A synchronous call that may throw. *)
Definition lift {A} (r : Js.result Api.JsError A) : M A := ([], r).

(** [await apiService.op(...)], settled by [net]. *)
Definition await {A} (op : Api.Operation) (net : A + Api.AxiosError) : M A :=
  ([Call op], Api.settle net).

(** [try { body } catch (error) { handler }] *)
Definition try_catch {A} (body : M A) (handler : Api.JsError -> M A) : M A :=
  match body with
  | (tr, Js.Return a) => (tr, Js.Return a)
  | (tr, Js.Throw e) => let (tr', r) := handler e in ((tr ++ tr')%list, r)
  end.

Definition trace {A} (m : M A) : list Effect := fst m.

End Eff.

Notation "x <- m ;; k" := (Eff.bind m (fun x => k))
  (at level 61, m at next level, right associativity).
Notation "m ;; k" := (Eff.bind m (fun _ => k))
  (at level 61, right associativity).

(** The actions a handler dispatched, in order. *)
Fixpoint dispatched (tr : list Effect) : list AppContext.Action :=
  match tr with
  | Dispatch a :: tr' => a :: dispatched tr'
  | _ :: tr' => dispatched tr'
  | [] => []
  end.

(** The operations a handler invoked on the gateway, in order. *)
Fixpoint invoked (tr : list Effect) : list Api.Operation :=
  match tr with
  | Call op :: tr' => op :: invoked tr'
  | _ :: tr' => invoked tr'
  | [] => []
  end.

(** The store after a handler ran. *)
Definition storeAfter (state : AppContext.AppState) (tr : list Effect)
  : AppContext.AppState :=
  AppContext.dispatchAll state (dispatched tr).

(** ** components/FileUpload: the upload controller *)

Module FileUpload.
Import AppContext Constants.

(** The component's [useState] cells. *)
Record Local : Type := mkLocal {
  isDragOver : bool;
  isUploading : bool;
  uploadProgress : Z
}.

Definition validateFile (file : option File) : Js.result Api.JsError bool :=
  match file with
  | None => Js.Throw (Api.newError "No file selected")
  | Some f =>
      if file_size f >? MAX_FILE_SIZE
      then Js.Throw (Api.newError ERROR_MESSAGES.FILE_TOO_LARGE)
      else if negb (existsb (String.eqb (file_type f)) ALLOWED_FILE_TYPES)
      then Js.Throw (Api.newError ERROR_MESSAGES.INVALID_FILE_TYPE)
      else Js.Return true
  end.

(** [handleFileUpload(file)].  [state] and [local] are the store snapshot
    and the component state at the time of the call (the callback closes
    over [dispatch] only); [net] is how the upload request settles if it is
    issued: rejected with an error of the HTTP client, or resolved with the
    JSON object of the gateway's upload route. *)
Definition handleFileUpload (state : AppState) (local : Local)
    (file : option File) (net : Api.UploadResponse + Api.AxiosError)
  : Eff.M unit :=
  Eff.try_catch
    (Eff.lift (validateFile file) ;;
     Eff.emit (SetIsUploading true) ;;
     Eff.emit (SetUploadProgress 0) ;;
     Eff.dispatch CLEAR_ERROR ;;
     Eff.dispatch (SET_LOADING true) ;;
     Eff.emit (SetInterval 200) ;;
     response <- Eff.await (Api.uploadPDF file) net ;;
     Eff.emit ClearInterval ;;
     Eff.emit (SetUploadProgress 100) ;;
     Eff.dispatch (SET_PDF_FILE file) ;;
     Eff.dispatch (SET_SESSION_ID (Api.session_id response)) ;;
     Eff.emit (Timeout 500) ;;
     Eff.dispatch (SET_LOADING false) ;;
     Eff.emit (SetIsUploading false) ;;
     Eff.emit (SetUploadProgress 0))
    (fun error =>
       let errorMessage := Api.handleApiError error ERROR_MESSAGES.UPLOAD_FAILED in
       Eff.dispatch (SET_ERROR (Some errorMessage)) ;;
       Eff.emit (SetIsUploading false) ;;
       Eff.emit (SetUploadProgress 0)).

End FileUpload.

(** ** Regular expressions, as far as [extractCitations] uses them *)

Module RegExp.

(** Canonicalisation under the [i] flag (without [u]): a code unit is
    compared through its upper-case form; a non-ASCII code unit never
    canonicalises to an ASCII one, so only [a]-[z] matter against an ASCII
    pattern. *)
Definition canonicalize (c : ascii) : ascii :=
  let n := nat_of_ascii c in
  if ((97 <=? n) && (n <=? 122))%nat then ascii_of_nat (n - 32) else c.

(** A pattern character under the [i] flag, at the head of [s]. *)
Definition chr_i (p : ascii) (s : string) : option string :=
  match s with
  | String c s' =>
      if Ascii.eqb (canonicalize c) (canonicalize p) then Some s' else None
  | EmptyString => None
  end.

(** A greedy [cls+] followed by the rest of the pattern [k], which gets
    the text matched by the class and the remaining input; on failure of
    [k] the quantifier gives back one character at a time. *)
Fixpoint plus {R} (cls : ascii -> bool) (s : string)
    (k : string -> string -> option R) : option R :=
  match s with
  | String c s' =>
      if cls c then
        match plus cls s' (fun m r => k (String c m) r) with
        | Some r => Some r
        | None => k (String c EmptyString) s'
        end
      else None
  | EmptyString => None
  end.

Definition andThen {A B} (o : option A) (k : A -> option B) : option B :=
  match o with
  | Some a => k a
  | None => None
  end.

(** [/\(Page\s+(\d+)\)/i] anchored at the head of [s]: the capture group
    and the input left after the match. *)
Definition citationRegex (s : string) : option (string * string) :=
  andThen (chr_i "(" s) (fun s =>
  andThen (chr_i "P" s) (fun s =>
  andThen (chr_i "a" s) (fun s =>
  andThen (chr_i "g" s) (fun s =>
  andThen (chr_i "e" s) (fun s =>
  plus Js.isWhiteSpace s (fun _ s =>
  plus Js.isDigit s (fun digits s =>
  andThen (chr_i ")" s) (fun s =>
  Some (digits, s))))))))).

(** [citationRegex.exec(text)] under the [g] flag, where [s] is [text]
    from [lastIndex] on: the first position at which the pattern matches,
    with the input after the match (the new [lastIndex]); [None] is the
    [null] result, which resets [lastIndex]. *)
Fixpoint exec (s : string) : option (string * string) :=
  match citationRegex s with
  | Some m => Some m
  | None =>
      match s with
      | String _ s' => exec s'
      | EmptyString => None
      end
  end.

Fixpoint digitsValue (acc : Z) (s : string) : Z :=
  match s with
  | String c s' => digitsValue (10 * acc + (Z.of_nat (nat_of_ascii c) - 48)) s'
  | EmptyString => acc
  end.

Fixpoint digitPrefix (s : string) : string :=
  match s with
  | String c s' => if Js.isDigit c then String c (digitPrefix s') else EmptyString
  | EmptyString => EmptyString
  end.

(** [parseInt(s)] for an unsigned decimal numeral: the Number value of the
    longest prefix of digits, [None] (NaN) when there is none. *)
Definition parseInt (s : string) : option Z :=
  match digitPrefix s with
  | EmptyString => None
  | ds => Some (Js.toNumber (digitsValue 0 ds))
  end.

End RegExp.

(** ** [Map], with its insertion order *)

Module JsMap.
Section WithTypes.
Context {K V : Type} (sameValueZero : K -> K -> bool).

(** [map.set(k, v)]: an existing key keeps its position and takes the
    new value, a new key goes last. *)
Fixpoint set (m : list (K * V)) (k : K) (v : V) : list (K * V) :=
  match m with
  | (k', v') :: m' =>
      if sameValueZero k' k then (k', v) :: m' else (k', v') :: set m' k v
  | [] => [(k, v)]
  end.

(** [new Map(entries)] *)
Definition ofEntries (entries : list (K * V)) : list (K * V) :=
  fold_left (fun m kv => set m (fst kv) (snd kv)) entries [].

(** [Array.from(map.values())] *)
Definition values (m : list (K * V)) : list V := map snd m.

Definition keys (m : list (K * V)) : list K := map fst m.
End WithTypes.
End JsMap.

(** Key equality of a [Map] on the pages of the data model, where a missing
    page is one value; [Raw.samePageField] tells [null] from absent. *)
Definition samePage (a b : option Z) : bool :=
  match a, b with
  | Some x, Some y => x =? y
  | None, None => true
  | _, _ => false
  end.

(** [array.map((x, index) => f x index)] *)
Fixpoint mapi_from {A B} (i : nat) (f : A -> nat -> B) (l : list A) : list B :=
  match l with
  | x :: l' => f x i :: mapi_from (S i) f l'
  | [] => []
  end.

Definition mapi {A B} (f : A -> nat -> B) (l : list A) : list B := mapi_from 0 f l.

(** ** components/CitationLink *)

Module CitationLink.
Import AppContext.

(** The props of one rendered chip. *)
Record Props : Type := mkProps {
  key : string;
  citation : Citation;
  index : nat
}.

Definition handleCitationClick (citation : Citation) : Eff.M unit :=
  Eff.emit PreventDefault ;;
  Eff.emit StopPropagation ;;
  if Js.truthy_num (page citation) then
    match page citation with
    | Some p =>
        Eff.dispatch (SET_CURRENT_PAGE p) ;;
        Eff.emit (WindowEvent "navigateToPage" p) ;;
        Eff.emit (Timeout 200) ;;
        Eff.emit (ScrollIfPresent ".pdf-viewer-container")
    | None => Eff.ret tt
    end
  else Eff.ret tt.

Definition getCitationText (citation : Citation) (index : nat) : string :=
  if Js.truthy_num (page citation) then
    "Page " ++ match page citation with Some p => Js.string_of_Z p | None => "" end
  else if Js.truthy (section citation) then
    match section citation with Some s => s | None => "" end
  else "Source " ++ Js.string_of_Z (Z.of_nat index + 1).

End CitationLink.

(** A reading of the clock: [Date.now()] and [new Date().toISOString()]. *)
Record Clock : Type := mkClock {
  now : Z;
  iso : string
}.

(** ** components/ChatInterface *)

Module ChatInterface.
Import AppContext Constants.

Definition pageReference (digits : string) : Citation :=
  {| page := RegExp.parseInt digits;
     section := None;
     text := Some ("Page " ++ digits);
     confidence := Some (9 # 10)%Q;
     cit_type := Some "page_reference" |}.

(** The [while] loop of [extractCitations] on the text from [lastIndex]
    on; [None] when the fuel runs out before [exec] returns [null]. *)
Fixpoint extractLoop (fuel : nat) (s : string) : option (list Citation) :=
  match fuel with
  | O => None
  | S fuel' =>
      match RegExp.exec s with
      | Some (digits, rest) =>
          option_map (cons (pageReference digits)) (extractLoop fuel' rest)
      | None => Some []
      end
  end.

(** Every match consumes at least one character, so the length of the
    text plus one bounds the number of iterations. *)
Definition extractCitations (text : string) : list Citation :=
  match extractLoop (S (String.length text)) text with
  | Some citations => citations
  | None => []
  end.

(** [handleSendMessage()].  [message] is the input cell, [t0] and [t1] are
    the clock when the handler starts and when the request has settled,
    [net] is how the request settles if it is issued. *)
Definition handleSendMessage (state : AppState) (message : string)
    (t0 t1 : Clock) (net : Api.ChatResponse + Api.AxiosError)
  : Eff.M unit :=
  if negb (Js.truthy (Some (Js.trim message)))
     || negb (Js.truthy (sessionId state))
     || isLoading state
  then Eff.ret tt
  else
    let userMessage := Js.trim message in
    Eff.emit (SetMessage "") ;;
    let userChatMessage :=
      {| id := now t0;
         msg_type := USER;
         content := userMessage;
         msg_citations := None;
         timestamp := iso t0;
         tokenUsage := None |} in
    Eff.dispatch (ADD_CHAT_MESSAGE userChatMessage) ;;
    Eff.dispatch CLEAR_ERROR ;;
    Eff.try_catch
      (Eff.emit (SetIsTyping true) ;;
       Eff.emit (Await TYPING_INDICATOR_DELAY) ;;
       response <- Eff.await (Api.sendMessage userMessage (sessionId state)) net ;;
       Eff.emit (SetIsTyping false) ;;
       let extractedCitations := extractCitations (Api.chat_response response) in
       let aiChatMessage :=
         {| id := now t1 + 1;
            msg_type := ASSISTANT;
            content := Api.chat_response response;
            msg_citations :=
              Some ((match Api.chat_citations response with
                     | Some cs => cs
                     | None => []
                     end) ++ extractedCitations)%list;
            timestamp := iso t1;
            tokenUsage := Api.token_usage response |} in
       Eff.dispatch (ADD_CHAT_MESSAGE aiChatMessage))
      (fun error =>
         Eff.emit (SetIsTyping false) ;;
         let errorMessage := Api.handleApiError error ERROR_MESSAGES.CHAT_FAILED in
         let errorChatMessage :=
           {| id := now t1 + 1;
              msg_type := ERROR;
              content := errorMessage;
              msg_citations := None;
              timestamp := iso t1;
              tokenUsage := None |} in
         Eff.dispatch (ADD_CHAT_MESSAGE errorChatMessage)).

(** The deduplication of [renderMessage]:
    [Array.from(new Map(citations.map(c => [c.page, c])).values())]. *)
Definition uniqueCitations (citations : list Citation) : list Citation :=
  JsMap.values (JsMap.ofEntries samePage (map (fun c => (page c, c)) citations)).

Definition chipKey (c : Citation) (index : nat) : string :=
  match page c with
  | Some p => Js.string_of_Z p
  | None => "undefined"
  end ++ "-" ++ Js.string_of_Z (Z.of_nat index).

(** [renderMessage(msg)], as far as the citations go: the chips it puts
    under the message, in order; none when the message has no citation list
    or an empty one. *)
Definition renderMessage (msg : ChatMessage) : list CitationLink.Props :=
  match msg_citations msg with
  | Some citations =>
      if (0 <? Z.of_nat (List.length citations))
      then mapi (fun citation index =>
                   {| CitationLink.key := chipKey citation index;
                      CitationLink.citation := citation;
                      CitationLink.index := index |})
                (uniqueCitations citations)
      else []
  | None => []
  end.

End ChatInterface.

(** ** hooks/useChat *)

Module useChat.
Import AppContext Constants.

(** The object [sendMessage] resolves to. *)
Record SendResult : Type := mkSendResult {
  success : bool;
  result_error : option string;
  result_response : option ChatMessage;
  result_citations : option (list Citation)
}.

Definition sendMessage (state : AppState) (message : string)
    (t0 t1 : Clock) (net : Api.ChatResponse + Api.AxiosError)
  : Eff.M SendResult :=
  if negb (Js.truthy (Some (Js.trim message)))
     || negb (Js.truthy (sessionId state))
     || isLoading state
  then Eff.ret {| success := false;
                  result_error := Some "Invalid message or session";
                  result_response := None;
                  result_citations := None |}
  else
    let userMessage :=
      {| id := now t0;
         msg_type := USER;
         content := Js.trim message;
         msg_citations := None;
         timestamp := iso t0;
         tokenUsage := None |} in
    Eff.try_catch
      (Eff.dispatch (ADD_CHAT_MESSAGE userMessage) ;;
       Eff.dispatch CLEAR_ERROR ;;
       Eff.dispatch (SET_LOADING true) ;;
       response <- Eff.await (Api.sendMessage (Js.trim message) (sessionId state)) net ;;
       let aiMessage :=
         {| id := now t1 + 1;
            msg_type := ASSISTANT;
            content := Api.chat_response response;
            msg_citations :=
              Some (match Api.chat_citations response with
                    | Some cs => cs
                    | None => []
                    end);
            timestamp := iso t1;
            tokenUsage := Api.token_usage response |} in
       Eff.dispatch (ADD_CHAT_MESSAGE aiMessage) ;;
       Eff.dispatch (SET_LOADING false) ;;
       (fold_left (fun m citation => m ;; Eff.dispatch (ADD_CITATION citation))
                  (match Api.chat_citations response with
                   | Some cs => cs
                   | None => []
                   end)
                  (Eff.ret tt)) ;;
       Eff.ret {| success := true;
                  result_error := None;
                  result_response := Some aiMessage;
                  result_citations := Api.chat_citations response |})
      (fun error =>
         let errorMessage := Api.handleApiError error ERROR_MESSAGES.CHAT_FAILED in
         let errorChatMessage :=
           {| id := now t1 + 1;
              msg_type := ERROR;
              content := errorMessage;
              msg_citations := None;
              timestamp := iso t1;
              tokenUsage := None |} in
         Eff.dispatch (ADD_CHAT_MESSAGE errorChatMessage) ;;
         Eff.dispatch (SET_LOADING false) ;;
         Eff.ret {| success := false;
                    result_error := Some errorMessage;
                    result_response := None;
                    result_citations := None |}).

End useChat.

(** * Specification vocabulary *)

Module Spec.
Import AppContext.

(** The guard shared by the two send functions. *)
Definition guardFails (state : AppState) (message : string) : bool :=
  negb (Js.truthy (Some (Js.trim message)))
  || negb (Js.truthy (sessionId state))
  || isLoading state.

(** What a refused [useChat.sendMessage] resolves to. *)
Definition refused : useChat.SendResult :=
  {| useChat.success := false;
     useChat.result_error := Some "Invalid message or session";
     useChat.result_response := None;
     useChat.result_citations := None |}.

Definition page_eq_dec (a b : option Z) : {a = b} + {a <> b}.
Proof. decide equality. apply Z.eq_dec. Defined.

(** The distinct pages of a list in the order in which they are first
    seen. *)
Fixpoint firstSeen (pages : list (option Z)) : list (option Z) :=
  match pages with
  | p :: pages' => p :: remove page_eq_dec p (firstSeen pages')
  | [] => []
  end.

(** A citation that lacks a page. *)
Definition pageless (c : Citation) : bool :=
  match page c with
  | None => true
  | Some _ => false
  end.

Definition chipPage (chip : CitationLink.Props) : option Z :=
  page (CitationLink.citation chip).

(** The entry [renderMessage] makes of a citation for its [Map]. *)
Definition entry (c : Citation) : option Z * Citation := (page c, c).

Fixpoint upper (s : string) : string :=
  match s with
  | String c s' => String (RegExp.canonicalize c) (upper s')
  | EmptyString => EmptyString
  end.

(** [lit] is a citation literal for [digits]: an opening parenthesis, the
    word "page" in any letter case, one or more white-space characters, the
    digits, a closing parenthesis. *)
Definition literal (lit digits : string) : Prop :=
  exists word spaces,
    lit = "(" ++ word ++ spaces ++ digits ++ ")"
    /\ upper word = "PAGE"
    /\ spaces <> "" /\ Js.all Js.isWhiteSpace spaces = true
    /\ digits <> "" /\ Js.all Js.isDigit digits = true.

(** The page-reference citation for page [n], written [digits] in the
    text. *)
Definition pageCitation (n : Z) (digits : string) : Citation :=
  {| page := Some n;
     section := None;
     text := Some ("Page " ++ digits);
     confidence := Some (9 # 10)%Q;
     cit_type := Some "page_reference" |}.

(** The run of the [while] loop of [extractCitations] on the text from
    [lastIndex] on, as a relation. *)
Inductive Scans : string -> list Citation -> Prop :=
| Scans_null (s : string) :
    RegExp.exec s = None -> Scans s []
| Scans_push (s digits rest : string) (found : list Citation) :
    RegExp.exec s = Some (digits, rest) ->
    Scans rest found ->
    Scans s (ChatInterface.pageReference digits :: found).


(** A match found in a text [a], seen in [a ++ x]. *)
Definition extend (x : string) (o : option (string * string))
  : option (string * string) :=
  match o with
  | Some (digits, rest) => Some (digits, rest ++ x)
  | None => None
  end.

(** A continuation of the pattern that does not look into [x]. *)
Definition stable (x : string) (k : string -> string -> option (string * string))
  : Prop :=
  forall m a, k m (a ++ x) = extend x (k m a).

End Spec.

(** * Sample inputs *)

Module Samples.
Import AppContext.

(** A store that failed while a request was outstanding. *)
Definition failedWhileBusy : AppState :=
  {| pdfFile := None;
     pdfDocument := None;
     currentPage := 1;
     totalPages := 0;
     chatMessages := [];
     isLoading := true;
     sessionId := Some "s-1";
     error := Some "Resource not found";
     citations := [] |}.

(** A request that failed before it was sent, with an [Error] that has no
    message text. *)
Definition setupFailure : Api.AxiosError :=
  {| Api.response := None; Api.request := false; Api.axios_message := Some "" |}.

(** A 404 whose body carries a detail. *)
Definition notFound : Api.AxiosError :=
  {| Api.response :=
       Some {| Api.status := 404;
               Api.data := Some {| Api.detail := Some "Session not found";
                                   Api.data_message := None |} |};
     Api.request := true;
     Api.axios_message := Some "Request failed with status code 404" |}.

(** A 15 MB plain-text file and a 2 MB PDF. *)
Definition bigTextFile : File :=
  {| file_name := "notes.txt"; file_size := 15 * 1024 * 1024;
     file_type := "text/plain"; file_lastModified := 0 |}.

Definition smallPdf : File :=
  {| file_name := "paper.pdf"; file_size := 2 * 1024 * 1024;
     file_type := "application/pdf"; file_lastModified := 0 |}.

(** The upload component in the middle of an upload. *)
Definition uploading : FileUpload.Local :=
  {| FileUpload.isDragOver := false;
     FileUpload.isUploading := true;
     FileUpload.uploadProgress := 40 |}.

(** A store with a session, the same with a request outstanding, and the
    same without a session. *)
Definition ready : AppState :=
  {| pdfFile := Some smallPdf;
     pdfDocument := None;
     currentPage := 1;
     totalPages := 3;
     chatMessages := [];
     isLoading := false;
     sessionId := Some "s-1";
     error := None;
     citations := [] |}.

Definition busy : AppState := appReducer ready (SET_LOADING true).

Definition noSession : AppState := appReducer ready (SET_SESSION_ID None).

Definition noon : Clock :=
  {| now := 1700000000000; iso := "2023-11-14T22:13:20.000Z" |}.

Definition uploaded : Api.UploadResponse + Api.AxiosError :=
  inl {| Api.session_id := Some "s-2"; Api.upload_message := Some "ok" |}.

Definition answered : Api.ChatResponse + Api.AxiosError :=
  inl {| Api.chat_response := "See (Page 5)";
         Api.chat_citations := None;
         Api.token_usage := None |}.

(** A citation to page 12. *)
Definition toPage12 : Citation := Spec.pageCitation 12 "12".

Definition cite (p : option Z) (label : string) : Citation :=
  {| page := p; section := None; text := Some label; confidence := None;
     cit_type := Some "page_reference" |}.

(** An assistant message that stores the citations [cs]. *)
Definition reply (cs : list Citation) : ChatMessage :=
  {| id := 1700000000001;
     msg_type := Constants.ASSISTANT;
     content := "See the sources.";
     msg_citations := Some cs;
     timestamp := "2023-11-14T22:13:20.000Z";
     tokenUsage := None |}.

Definition threeThreeSeven : list Citation :=
  [cite (Some 3) "first"; cite (Some 3) "second"; cite (Some 7) "third"].

Definition twoWithoutPage : list Citation :=
  [cite None "first"; cite (Some 4) "second"; cite None "third"].

Definition twoReferences : string := "See (Page 5) and (page 12)".

End Samples.

(** * The rest of the hooks *)

(** ** utils/constants: STORAGE_KEYS *)

Module STORAGE_KEYS.
Definition SESSION_ID : string := "notebooklm_session_id".
Definition CHAT_HISTORY : string := "notebooklm_chat_history".
Definition USER_PREFERENCES : string := "notebooklm_preferences".
End STORAGE_KEYS.

(** ** [localStorage] *)

Module LocalStorage.

(** The stored items, most recently set first; a key occurs at most once. *)
Definition Storage : Type := list (string * string).

Definition removeItem (key : string) (st : Storage) : Storage :=
  filter (fun kv => negb (fst kv =? key)%string) st.

Definition setItem (key value : string) (st : Storage) : Storage :=
  (key, value) :: removeItem key st.

(** [null] when the key is absent. *)
Definition getItem (key : string) (st : Storage) : option string :=
  option_map snd (find (fun kv => (fst kv =? key)%string) st).

(** [String(v)] for the value [setItem] is given, where [None] is an absent
    field ([undefined]).  A field that is [null], which the data model does
    not tell from an absent one, is stored as "null": nothing below is
    stated about what is stored for [None]. *)
Definition toString (v : option string) : string :=
  match v with
  | Some s => s
  | None => "undefined"
  end.

End LocalStorage.

(** ** Handlers that also use [localStorage] and the other endpoints *)

(** The remaining operations of [apiService]. *)
Inductive Request : Type :=
| getChatHistory (sessionId : string)
| getSessionInfo (sessionId : string)
| healthCheck.

(** What such a handler does, in program order: an effect of the kind the
    controllers have, or a call of one of the remaining operations. *)
Inductive Event : Type :=
| Core (e : Effect)
| Fetch (r : Request).

(** A handler body that threads [localStorage].  Reads and writes of the
    storage succeed. *)
Module Ext.

Definition M (A : Type) : Type :=
  LocalStorage.Storage ->
  (list Event * LocalStorage.Storage * Js.result Api.JsError A)%type.

Definition ret {A} (a : A) : M A := fun st => ([], st, Js.Return a).

Definition throw {A} (e : Api.JsError) : M A := fun st => ([], st, Js.Throw e).

Definition bind {A B} (m : M A) (k : A -> M B) : M B :=
  fun st =>
    match m st with
    | (tr, st1, Js.Return a) =>
        match k a st1 with
        | (tr', st2, r) => ((tr ++ tr')%list, st2, r)
        end
    | (tr, st1, Js.Throw e) => (tr, st1, Js.Throw e)
    end.

Definition dispatch (a : AppContext.Action) : M unit :=
  fun st => ([Core (Dispatch a)], st, Js.Return tt).

(** [await apiService.op(...)] for an operation the controllers have. *)
Definition call {A} (op : Api.Operation) (net : A + Api.AxiosError) : M A :=
  fun st => ([Core (Call op)], st, Api.settle net).

(** [await apiService.r(...)] for one of the remaining operations. *)
Definition fetch {A} (r : Request) (net : A + Api.AxiosError) : M A :=
  fun st => ([Fetch r], st, Api.settle net).

Definition getItem (key : string) : M (option string) :=
  fun st => ([], st, Js.Return (LocalStorage.getItem key st)).

(** [localStorage.setItem(key, value)], on a storage that takes the write
    (it is available and below its quota). *)
Definition setItem (key value : string) : M unit :=
  fun st => ([], LocalStorage.setItem key value st, Js.Return tt).

Definition removeItem (key : string) : M unit :=
  fun st => ([], LocalStorage.removeItem key st, Js.Return tt).

(** [try { body } catch (error) { handler }]; what [body] wrote to the
    storage before it threw stays written. *)
Definition try_catch {A} (body : M A) (handler : Api.JsError -> M A) : M A :=
  fun st =>
    match body st with
    | (tr, st1, Js.Return a) => (tr, st1, Js.Return a)
    | (tr, st1, Js.Throw e) =>
        match handler e st1 with
        | (tr', st2, r) => ((tr ++ tr')%list, st2, r)
        end
    end.

(** [array.forEach(x => body x)] *)
Fixpoint forEach {A} (l : list A) (body : A -> M unit) : M unit :=
  match l with
  | x :: l' => bind (body x) (fun _ => forEach l' body)
  | [] => ret tt
  end.

Definition trace {A} (r : list Event * LocalStorage.Storage * Js.result Api.JsError A)
  : list Event := fst (fst r).

Definition storage {A} (r : list Event * LocalStorage.Storage * Js.result Api.JsError A)
  : LocalStorage.Storage := snd (fst r).

Definition outcome {A} (r : list Event * LocalStorage.Storage * Js.result Api.JsError A)
  : Js.result Api.JsError A := snd r.

End Ext.

(** The effects of the controllers' kind among the events, in order. *)
Fixpoint coreEffects (tr : list Event) : list Effect :=
  match tr with
  | Core e :: tr' => e :: coreEffects tr'
  | Fetch _ :: tr' => coreEffects tr'
  | [] => []
  end.

(** The calls of the remaining operations, in order. *)
Fixpoint fetched (tr : list Event) : list Request :=
  match tr with
  | Fetch r :: tr' => r :: fetched tr'
  | Core _ :: tr' => fetched tr'
  | [] => []
  end.

Notation "x <~ m ;; k" := (Ext.bind m (fun x => k))
  (at level 61, m at next level, right associativity).
Notation "m >> k" := (Ext.bind m (fun _ => k))
  (at level 61, right associativity).

(** ** hooks/usePDF *)

Module usePDF.
Import AppContext Constants.

(** What [uploadPDF] resolves to. *)
Record UploadResult : Type := mkUploadResult {
  upload_success : bool;
  upload_sessionId : option string;
  upload_message : option string;
  upload_error : option string
}.

(** [uploadPDF(file)]; [net] is how the upload request settles if it is
    issued: rejected with an error of the HTTP client, or resolved with the
    JSON object of the gateway's upload route. *)
Definition uploadPDF (file : option File)
    (net : Api.UploadResponse + Api.AxiosError) : Ext.M UploadResult :=
  Ext.try_catch
    (match file with
     | None => Ext.throw (Api.newError "No file provided")
     | Some f =>
         if negb (file_type f =? "application/pdf")%string
         then Ext.throw (Api.newError ERROR_MESSAGES.INVALID_FILE_TYPE)
         else Ext.ret tt
     end >>
     Ext.dispatch (SET_LOADING true) >>
     Ext.dispatch CLEAR_ERROR >>
     response <~ Ext.call (Api.uploadPDF file) net ;;
     Ext.dispatch (SET_PDF_FILE file) >>
     Ext.dispatch (SET_SESSION_ID (Api.session_id response)) >>
     Ext.dispatch (SET_LOADING false) >>
     Ext.setItem STORAGE_KEYS.SESSION_ID
       (LocalStorage.toString (Api.session_id response)) >>
     Ext.ret {| upload_success := true;
                upload_sessionId := Api.session_id response;
                upload_message := Api.upload_message response;
                upload_error := None |})
    (fun error =>
       let errorMessage := Api.handleApiError error ERROR_MESSAGES.UPLOAD_FAILED in
       Ext.dispatch (SET_ERROR (Some errorMessage)) >>
       Ext.ret {| upload_success := false;
                  upload_sessionId := None;
                  upload_message := None;
                  upload_error := Some errorMessage |}).

(** The navigation functions read [currentPage] and [totalPages] of the
    store snapshot [state] and return whether they navigated. *)
Definition goToPage (state : AppState) (pageNumber : Z) : Eff.M bool :=
  if (pageNumber >=? 1) && (pageNumber <=? totalPages state)
  then Eff.dispatch (SET_CURRENT_PAGE pageNumber) ;; Eff.ret true
  else Eff.ret false.

Definition nextPage (state : AppState) : Eff.M bool :=
  if currentPage state <? totalPages state
  then Eff.dispatch (SET_CURRENT_PAGE (currentPage state + 1)) ;; Eff.ret true
  else Eff.ret false.

Definition prevPage (state : AppState) : Eff.M bool :=
  if currentPage state >? 1
  then Eff.dispatch (SET_CURRENT_PAGE (currentPage state - 1)) ;; Eff.ret true
  else Eff.ret false.

Definition firstPage (state : AppState) : Eff.M bool :=
  if totalPages state >? 0
  then Eff.dispatch (SET_CURRENT_PAGE 1) ;; Eff.ret true
  else Eff.ret false.

Definition lastPage (state : AppState) : Eff.M bool :=
  if totalPages state >? 0
  then Eff.dispatch (SET_CURRENT_PAGE (totalPages state)) ;; Eff.ret true
  else Eff.ret false.

(** The computed value [isValidPage]. *)
Definition isValidPage (state : AppState) : bool :=
  (currentPage state >=? 1) && (currentPage state <=? totalPages state).

Definition clearPDF : Ext.M unit :=
  Ext.dispatch RESET_STATE >>
  Ext.removeItem STORAGE_KEYS.SESSION_ID >>
  Ext.removeItem STORAGE_KEYS.CHAT_HISTORY.

(** The body of [GET /session/{id}]. *)
Record SessionInfo : Type := mkSessionInfo { valid : bool }.

(** What [restoreSession] resolves to. *)
Record RestoreResult : Type := mkRestoreResult {
  restore_success : bool;
  restore_sessionId : option string;
  restore_error : option string
}.

(** [restoreSession()]; [net] is how the session check settles if it is
    issued. *)
Definition restoreSession (net : SessionInfo + Api.AxiosError)
  : Ext.M RestoreResult :=
  Ext.try_catch
    (savedSessionId <~ Ext.getItem STORAGE_KEYS.SESSION_ID ;;
     let notFound :=
       Ext.ret {| restore_success := false;
                  restore_sessionId := None;
                  restore_error := Some "No valid session found" |} in
     match savedSessionId with
     | Some saved =>
         if Js.truthy savedSessionId then
           sessionInfo <~ Ext.fetch (getSessionInfo saved) net ;;
           if valid sessionInfo then
             Ext.dispatch (SET_SESSION_ID savedSessionId) >>
             Ext.ret {| restore_success := true;
                        restore_sessionId := savedSessionId;
                        restore_error := None |}
           else
             Ext.removeItem STORAGE_KEYS.SESSION_ID >>
             Ext.removeItem STORAGE_KEYS.CHAT_HISTORY >>
             notFound
         else notFound
     | None => notFound
     end)
    (fun error =>
       Ext.ret {| restore_success := false;
                  restore_sessionId := None;
                  restore_error := Some "Failed to restore session" |}).

End usePDF.

(** ** hooks/useChat: the other functions *)

Module ChatHook.
Import AppContext Constants.

Definition clearChat : Ext.M unit :=
  Ext.dispatch CLEAR_CHAT >>
  Ext.removeItem STORAGE_KEYS.CHAT_HISTORY.

(** The body of [GET /chat/history/{id}]. *)
Record HistoryResponse : Type := mkHistoryResponse {
  messages : option (list ChatMessage)
}.

(** What [loadChatHistory] resolves to. *)
Record HistoryResult : Type := mkHistoryResult {
  history_success : bool;
  history_messages : option (list ChatMessage);
  history_error : option string
}.

Definition loadChatHistory (targetSessionId : option string)
    (net : HistoryResponse + Api.AxiosError) : Ext.M HistoryResult :=
  match targetSessionId with
  | Some target =>
      if negb (Js.truthy targetSessionId)
      then Ext.ret {| history_success := false;
                      history_messages := None;
                      history_error := Some "No session ID" |}
      else
        Ext.try_catch
          (response <~ Ext.fetch (getChatHistory target) net ;;
           match messages response with
           | Some msgs =>
               if (0 <? Z.of_nat (List.length msgs))
               then Ext.dispatch CLEAR_CHAT >>
                    Ext.forEach msgs (fun msg => Ext.dispatch (ADD_CHAT_MESSAGE msg))
               else Ext.ret tt
           | None => Ext.ret tt
           end >>
           Ext.ret {| history_success := true;
                      history_messages := messages response;
                      history_error := None |})
          (fun error =>
             let errorMessage :=
               Api.handleApiError error "Failed to load chat history" in
             Ext.ret {| history_success := false;
                        history_messages := None;
                        history_error := Some errorMessage |})
  | None => Ext.ret {| history_success := false;
                       history_messages := None;
                       history_error := Some "No session ID" |}
  end.

Definition isType (t : MessageType) (msg : ChatMessage) : bool :=
  match t, msg_type msg with
  | USER, USER | ASSISTANT, ASSISTANT | SYSTEM, SYSTEM | ERROR, ERROR => true
  | _, _ => false
  end.

(** What [getChatStats] returns. *)
Record ChatStats : Type := mkChatStats {
  totalMessages : Z;
  userMessages : Z;
  aiMessages : Z;
  errorMessages : Z;
  totalTokens : Z;
  hasHistory : bool
}.

Definition getChatStats (state : AppState) : ChatStats :=
  let userMessages := filter (isType USER) (chatMessages state) in
  let aiMessages := filter (isType ASSISTANT) (chatMessages state) in
  let errorMessages := filter (isType ERROR) (chatMessages state) in
  let totalTokens :=
    fold_left (fun sum msg =>
                 sum + match tokenUsage msg with
                       | Some usage => total usage
                       | None => 0
                       end)
              aiMessages 0 in
  {| totalMessages := Z.of_nat (List.length (chatMessages state));
     userMessages := Z.of_nat (List.length userMessages);
     aiMessages := Z.of_nat (List.length aiMessages);
     errorMessages := Z.of_nat (List.length errorMessages);
     totalTokens := totalTokens;
     hasHistory := 0 <? Z.of_nat (List.length (chatMessages state)) |}.

(** [array[array.length - 1]], [undefined] on the empty array. *)
Definition lastOf {A} (l : list A) : option A :=
  nth_error l (List.length l - 1).

Definition getLastResponse (state : AppState) : option ChatMessage :=
  let aiMessages := filter (isType ASSISTANT) (chatMessages state) in
  lastOf aiMessages.

Definition regenerateResponse (state : AppState) (t0 t1 : Clock)
    (net : Api.ChatResponse + Api.AxiosError) : Eff.M useChat.SendResult :=
  let userMessages := filter (isType USER) (chatMessages state) in
  match lastOf userMessages with
  | None =>
      Eff.ret {| useChat.success := false;
                 useChat.result_error := Some "No user message to regenerate from";
                 useChat.result_response := None;
                 useChat.result_citations := None |}
  | Some lastUserMessage =>
      useChat.sendMessage state (content lastUserMessage) t0 t1 net
  end.

End ChatHook.

(** * Citations with [null] told from absent *)

(** The [Map] of [renderMessage] compares its keys with SameValueZero, for
    which [null] and [undefined] differ.  Here the page field of a citation
    keeps the two apart, and the deduplication of [renderMessage] is
    embedded once more over it. *)
Module Raw.

(** The [page] field of a citation object: absent, [null], or a number. *)
Inductive PageField : Type :=
| PageUndefined
| PageNull
| PageNumber (n : Z).

Record RawCitation : Type := mkRawCitation {
  raw_page : PageField;
  raw_section : option string;
  raw_text : option string;
  raw_confidence : option Q;
  raw_type : option string
}.

(** SameValueZero on page fields. *)
Definition samePageField (a b : PageField) : bool :=
  match a, b with
  | PageUndefined, PageUndefined => true
  | PageNull, PageNull => true
  | PageNumber x, PageNumber y => x =? y
  | _, _ => false
  end.

(** [`${page}`] *)
Definition pageString (p : PageField) : string :=
  match p with
  | PageUndefined => "undefined"
  | PageNull => "null"
  | PageNumber n => Js.string_of_Z n
  end.

(** [Array.from(new Map(citations.map(c => [c.page, c])).values())] *)
Definition uniqueCitations (citations : list RawCitation) : list RawCitation :=
  JsMap.values
    (JsMap.ofEntries samePageField (map (fun c => (raw_page c, c)) citations)).

(** The props of one rendered chip. *)
Record Chip : Type := mkChip {
  chip_key : string;
  chip_citation : RawCitation;
  chip_index : nat
}.

(** The chips [renderMessage] puts under a message whose [citations] field
    is [citations]. *)
Definition renderCitations (citations : option (list RawCitation)) : list Chip :=
  match citations with
  | Some cs =>
      if (0 <? Z.of_nat (List.length cs))
      then mapi (fun citation index =>
                   {| chip_key := pageString (raw_page citation) ++ "-"
                                  ++ Js.string_of_Z (Z.of_nat index);
                      chip_citation := citation;
                      chip_index := index |})
                (uniqueCitations cs)
      else []
  | None => []
  end.

(** A citation of the data model as a citation object: a missing page is an
    absent field. *)
Definition ofPage (p : option Z) : PageField :=
  match p with
  | Some n => PageNumber n
  | None => PageUndefined
  end.

Definition ofCitation (c : Citation) : RawCitation :=
  {| raw_page := ofPage (page c);
     raw_section := section c;
     raw_text := text c;
     raw_confidence := confidence c;
     raw_type := cit_type c |}.

Definition ofProps (p : CitationLink.Props) : Chip :=
  {| chip_key := CitationLink.key p;
     chip_citation := ofCitation (CitationLink.citation p);
     chip_index := CitationLink.index p |}.

Definition pageField_eq_dec (a b : PageField) : {a = b} + {a <> b}.
Proof. decide equality. apply Z.eq_dec. Defined.

(** The citation's page field is [k]. *)
Definition hasPage (k : PageField) (c : RawCitation) : bool :=
  samePageField (raw_page c) k.

(** The citation has no page: the field is absent or [null]. *)
Definition lacksPage (c : RawCitation) : bool :=
  match raw_page c with
  | PageNumber _ => false
  | _ => true
  end.

(** The entry [renderMessage] makes of a citation for its [Map]. *)
Definition entry (c : RawCitation) : PageField * RawCitation := (raw_page c, c).

(** Two citations without a page, one with [page: null] and one without
    the field. *)
Definition nullAndAbsent : list RawCitation :=
  [ {| raw_page := PageNull; raw_section := None; raw_text := Some "first";
       raw_confidence := None; raw_type := None |};
    {| raw_page := PageUndefined; raw_section := None; raw_text := Some "second";
       raw_confidence := None; raw_type := None |} ].

(** Three citations whose page field is absent. *)
Definition threeAbsent : list RawCitation :=
  [ {| raw_page := PageUndefined; raw_section := None; raw_text := Some "first";
       raw_confidence := None; raw_type := None |};
    {| raw_page := PageUndefined; raw_section := None; raw_text := Some "second";
       raw_confidence := None; raw_type := None |};
    {| raw_page := PageUndefined; raw_section := None; raw_text := Some "third";
       raw_confidence := None; raw_type := None |} ].

End Raw.

(** * More specification vocabulary *)

Module Spec2.
Import AppContext.

(** Actions that empty the transcript. *)
Definition clears (a : Action) : bool :=
  match a with
  | CLEAR_CHAT | RESET_STATE => true
  | _ => false
  end.

(** Actions whose type the reducer knows. *)
Definition recognised (a : Action) : bool :=
  match a with
  | OTHER _ => false
  | _ => true
  end.

(** The payloads of the ADD_CHAT_MESSAGE actions of a sequence, in order. *)
Fixpoint addedMessages (actions : list Action) : list ChatMessage :=
  match actions with
  | ADD_CHAT_MESSAGE m :: rest => m :: addedMessages rest
  | _ :: rest => addedMessages rest
  | [] => []
  end.

(** The payloads of the ADD_CITATION actions of a sequence, in order. *)
Fixpoint addedCitations (actions : list Action) : list Citation :=
  match actions with
  | ADD_CITATION c :: rest => c :: addedCitations rest
  | _ :: rest => addedCitations rest
  | [] => []
  end.

(** The effects a handler has performed when it is suspended on its
    network call: its trace up to and including the first [Call]. *)
Fixpoint untilCall (tr : list Effect) : list Effect :=
  match tr with
  | Call op :: _ => [Call op]
  | e :: tr' => e :: untilCall tr'
  | [] => []
  end.





(** The transcript, the citations, the document handle and the page
    numbers of [state'] are those of [state]. *)
Definition sameTranscriptAndDocument (state state' : AppState) : Prop :=
  chatMessages state' = chatMessages state
  /\ citations state' = citations state
  /\ pdfDocument state' = pdfDocument state
  /\ currentPage state' = currentPage state
  /\ totalPages state' = totalPages state.

(** A call of one of the navigation functions of [usePDF]. *)
Inductive Nav : Type :=
| GoTo (pageNumber : Z)
| Next
| Prev
| First
| Last.

Definition navigate (state : AppState) (cmd : Nav) : Eff.M bool :=
  match cmd with
  | GoTo n => usePDF.goToPage state n
  | Next => usePDF.nextPage state
  | Prev => usePDF.prevPage state
  | First => usePDF.firstPage state
  | Last => usePDF.lastPage state
  end.

(** The store after a sequence of navigation calls, each made on the store
    the previous one left. *)
Definition navigateAll (state : AppState) (cmds : list Nav) : AppState :=
  fold_left (fun s cmd => storeAfter s (Eff.trace (navigate s cmd))) cmds state.

(** The store after a handler that also uses [localStorage] ran. *)
Definition storeAfterEvents (state : AppState) (tr : list Event) : AppState :=
  storeAfter state (coreEffects tr).

(** The first and the last character of a string. *)
Definition firstChar (s : string) : option ascii :=
  match s with
  | String c _ => Some c
  | EmptyString => None
  end.

Fixpoint lastChar (s : string) : option ascii :=
  match s with
  | String c EmptyString => Some c
  | String _ s' => lastChar s'
  | EmptyString => None
  end.

Definition notSpace (c : option ascii) : bool :=
  match c with
  | Some a => negb (Js.isWhiteSpace a)
  | None => false
  end.

(** The messages the send functions append: the user's, the assistant's
    with its citations, and the one that reports a failure. *)
Definition userMessageOf (message : string) (t0 : Clock) : ChatMessage :=
  {| id := now t0; msg_type := Constants.USER; content := Js.trim message;
     msg_citations := None; timestamp := iso t0; tokenUsage := None |}.

Definition assistantMessageOf (response : Api.ChatResponse) (t1 : Clock)
    (cited : list Citation) : ChatMessage :=
  {| id := now t1 + 1; msg_type := Constants.ASSISTANT;
     content := Api.chat_response response;
     msg_citations := Some cited;
     timestamp := iso t1; tokenUsage := Api.token_usage response |}.

Definition errorMessageOf (shown : string) (t1 : Clock) : ChatMessage :=
  {| id := now t1 + 1; msg_type := Constants.ERROR; content := shown;
     msg_citations := None; timestamp := iso t1; tokenUsage := None |}.

(** A match found in a text, seen in the upper-cased text. *)
Definition raised (o : option (string * string)) : option (string * string) :=
  match o with
  | Some (digits, rest) => Some (Spec.upper digits, Spec.upper rest)
  | None => None
  end.

(** A file is given and its MIME type is [application/pdf]. *)
Definition isPdf (file : option File) : bool :=
  match file with
  | Some f => (file_type f =? "application/pdf")%string
  | None => false
  end.

(** The citations a response carries: [response.citations || []]. *)
Definition backendCitations (response : Api.ChatResponse) : list Citation :=
  match Api.chat_citations response with
  | Some cs => cs
  | None => []
  end.

End Spec2.

(** * More sample inputs *)

Module Samples2.
Import AppContext Samples.

Definition hello : ChatMessage :=
  {| id := 1; msg_type := Constants.USER; content := "Hello";
     msg_citations := None; timestamp := "2023-11-14T22:13:20.000Z";
     tokenUsage := None |}.

Definition welcome : ChatMessage :=
  {| id := 2; msg_type := Constants.ASSISTANT; content := "Welcome (Page 1)";
     msg_citations := Some [Spec.pageCitation 1 "1"];
     timestamp := "2023-11-14T22:13:21.000Z";
     tokenUsage := Some {| prompt := 10; completion := 5; total := 15 |} |}.

(** A store with a two-message transcript, on page 2 of 3. *)
Definition talking : AppState :=
  appReducer
    (appReducer (appReducer ready (ADD_CHAT_MESSAGE hello)) (ADD_CHAT_MESSAGE welcome))
    (SET_CURRENT_PAGE 2).

Definition saved : LocalStorage.Storage :=
  [(STORAGE_KEYS.SESSION_ID, "s-1"); (STORAGE_KEYS.CHAT_HISTORY, "{}")].

Definition timeout : Api.AxiosError :=
  {| Api.response := None; Api.request := true;
     Api.axios_message := Some "timeout of 30000ms exceeded" |}.

End Samples2.

(** * Properties *)

(** ** The store *)

Module AppContextFacts.
Import AppContext Samples.

Lemma unknown_action_identity (state : AppState) (ty : string) :
  appReducer state (OTHER ty) = state.
Proof. reflexivity. Qed.

Lemma RESET_STATE_initial (state : AppState) :
  appReducer state RESET_STATE = initialState.
Proof. reflexivity. Qed.

Lemma dispatchAll_app (state : AppState) (xs ys : list Action) :
  dispatchAll state (xs ++ ys) = dispatchAll (dispatchAll state xs) ys.
Proof. unfold dispatchAll. apply fold_left_app. Qed.

(** Only [SET_LOADING], [SET_ERROR] and [RESET_STATE] write [isLoading]. *)
Lemma isLoading_written_by (state : AppState) (action : Action) :
  isLoading (appReducer state action) <> isLoading state ->
  (exists b, action = SET_LOADING b) \/ (exists p, action = SET_ERROR p)
  \/ action = RESET_STATE.
Proof.
  destruct action; cbn; intros H; try congruence; eauto.
Qed.

(** C1, as the claim states its second half: RESET_STATE is not SET_ERROR,
    yet on [failedWhileBusy] it changes both [error] and [isLoading]. *)
Lemma RESET_STATE_changes_error_and_isLoading :
  ~ (forall (state : AppState) (action : Action),
        (forall p, action <> SET_ERROR p) ->
        ~ (error (appReducer state action) <> error state
           /\ isLoading (appReducer state action) <> isLoading state)).
Proof.
  intros claim.
  apply (claim failedWhileBusy RESET_STATE); [discriminate |].
  split; cbn; discriminate.
Qed.

(** C1 (amended): SET_ERROR stores its payload in [error] and forces
    [isLoading] to false whatever it was before; every other action except
    RESET_STATE, which restores all fields to their defaults, leaves
    [error] or [isLoading] as it was. *)
Theorem SET_ERROR_forces_idle (state : AppState) (payload : option string) :
  error (appReducer state (SET_ERROR payload)) = payload
  /\ isLoading (appReducer state (SET_ERROR payload)) = false
  /\ forall action : Action,
       (forall p, action <> SET_ERROR p) ->
       action <> RESET_STATE ->
       error (appReducer state action) = error state
       \/ isLoading (appReducer state action) = isLoading state.
Proof.
  repeat split.
  intros action Hset Hreset.
  destruct action; cbn; auto.
  - exfalso. apply (Hset payload0). reflexivity.
  - contradiction.
Qed.

Lemma SET_ERROR_forces_idle_witness :
  error (appReducer failedWhileBusy CLEAR_CHAT) = error failedWhileBusy
  \/ isLoading (appReducer failedWhileBusy CLEAR_CHAT) = isLoading failedWhileBusy.
Proof.
  apply (SET_ERROR_forces_idle failedWhileBusy None); discriminate.
Defined.

(** C3: CLEAR_CHAT empties [chatMessages] and [citations], sets [error] to
    null, and leaves [pdfFile], [sessionId], [pdfDocument], [currentPage],
    [totalPages] and [isLoading] as they were. *)
Theorem CLEAR_CHAT_frame (state : AppState) :
  let state' := appReducer state CLEAR_CHAT in
  chatMessages state' = []
  /\ citations state' = []
  /\ error state' = None
  /\ pdfFile state' = pdfFile state
  /\ sessionId state' = sessionId state
  /\ pdfDocument state' = pdfDocument state
  /\ currentPage state' = currentPage state
  /\ totalPages state' = totalPages state
  /\ isLoading state' = isLoading state.
Proof. cbn. repeat split. Qed.

End AppContextFacts.

(** ** The gateway's error policy *)

Module ApiFacts.
Import Api Samples.

Lemma truthy_or_else (a : option string) (b : string) :
  b <> "" -> Js.truthy (Some (Js.or_else a b)) = true.
Proof.
  intros Hb. unfold Js.or_else.
  destruct a as [s|]; cbn.
  - destruct (String.eqb_spec s "") as [->|Hs]; cbn.
    + apply negb_true_iff, String.eqb_neq, Hb.
    + apply negb_true_iff, String.eqb_neq, Hs.
  - apply negb_true_iff, String.eqb_neq, Hb.
Qed.

(** [handleApiError] on a freshly built [Error] with a non-empty message
    returns that message: the caller's default is not used. *)
Lemma handleApiError_newError (msg defaultMessage : string) :
  Js.truthy (Some msg) = true ->
  handleApiError (newError msg) defaultMessage = msg.
Proof. unfold handleApiError, newError. cbn [message]. intros ->. reflexivity. Qed.

(** The interceptor never throws an [Error] without a message. *)
Lemma responseInterceptor_message (error : AxiosError) :
  Js.truthy (message (responseInterceptor error)) = true.
Proof.
  unfold responseInterceptor.
  destruct (response error) as [r|].
  - repeat match goal with
      | |- context [if ?b then _ else _] => destruct b
      end; reflexivity.
  - destruct (request error); [reflexivity |].
    apply truthy_or_else. discriminate.
Qed.

(** A rejected call never surfaces the caller's default. *)
Lemma rejectionMessage_interceptor (error : AxiosError) (defaultMessage : string) :
  Some (rejectionMessage error defaultMessage) = message (responseInterceptor error).
Proof.
  unfold rejectionMessage, handleApiError.
  rewrite responseInterceptor_message.
  destruct (message (responseInterceptor error)) eqn:E; [reflexivity |].
  pose proof (responseInterceptor_message error) as H. rewrite E in H. discriminate.
Qed.

(** C8, as the claim states its last case: for [setupFailure] and the chat
    controller's default, the caller sees neither the error's own message
    nor the default it supplied. *)
Lemma setupFailure_neither_own_nor_default :
  ~ (forall (error : AxiosError) (defaultMessage : string),
        response error = None -> request error = false ->
        Some (rejectionMessage error defaultMessage) = axios_message error
        \/ rejectionMessage error defaultMessage = defaultMessage).
Proof.
  intros claim.
  destruct (claim setupFailure Constants.ERROR_MESSAGES.CHAT_FAILED
              eq_refl eq_refl) as [H|H]; vm_compute in H; discriminate.
Qed.

Ltac status_case :=
  repeat match goal with
    | H : status ?r = _ |- _ => rewrite H; clear H
    end;
  cbn [Z.eqb Pos.eqb];
  apply handleApiError_newError; reflexivity.

(** C8 (amended): a rejected call is normalised to one string.  With a
    response, status 400 gives "Bad Request: " followed by the server's
    detail, 401 "Unauthorized access", 403 "Access forbidden", 404
    "Resource not found", 429 "Too many requests. Please try again later.",
    500 "Internal server error. Please try again.", and any other status
    "Server error (<code>): " followed by the server's detail.  With a
    request but no response it gives "Unable to connect to server. Please
    check your connection.".  Otherwise it gives the error's own message
    when that is non-empty and "An unexpected error occurred" when it is
    not; the caller's default is not used. *)
Theorem rejectionMessage_mapping (error : AxiosError) (defaultMessage : string) :
  let shown := rejectionMessage error defaultMessage in
  (forall r, response error = Some r ->
     (status r = 400 -> shown = "Bad Request: " ++ responseMessage (data r))
     /\ (status r = 401 -> shown = "Unauthorized access")
     /\ (status r = 403 -> shown = "Access forbidden")
     /\ (status r = 404 -> shown = "Resource not found")
     /\ (status r = 429 -> shown = "Too many requests. Please try again later.")
     /\ (status r = 500 -> shown = "Internal server error. Please try again.")
     /\ (~ In (status r) [400; 401; 403; 404; 429; 500] ->
         shown = "Server error (" ++ Js.string_of_Z (status r) ++ "): "
                   ++ responseMessage (data r)))
  /\ (response error = None -> request error = true ->
      shown = "Unable to connect to server. Please check your connection.")
  /\ (response error = None -> request error = false ->
      shown = Js.or_else (axios_message error) "An unexpected error occurred").
Proof.
  cbv zeta. unfold rejectionMessage, responseInterceptor.
  split; [| split].
  - intros r Hr. rewrite Hr.
    repeat match goal with |- _ /\ _ => split end.
    1-6: intros Hs; status_case.
    intros Hs.
    assert (Hne : forall c, In c [400; 401; 403; 404; 429; 500] ->
                            (status r =? c) = false).
    { intros c Hc. apply Z.eqb_neq. intros E. apply Hs. rewrite E. exact Hc. }
    rewrite !Hne by (cbn; tauto).
    apply handleApiError_newError. reflexivity.
  - intros Hr Hq. rewrite Hr, Hq. apply handleApiError_newError. reflexivity.
  - intros Hr Hq. rewrite Hr, Hq. apply handleApiError_newError.
    apply truthy_or_else. discriminate.
Qed.

Lemma rejectionMessage_mapping_witness :
  rejectionMessage notFound Constants.ERROR_MESSAGES.UPLOAD_FAILED
  = "Resource not found".
Proof.
  destruct (rejectionMessage_mapping notFound Constants.ERROR_MESSAGES.UPLOAD_FAILED)
    as [Hresp _].
  destruct (Hresp _ eq_refl) as (_ & _ & _ & H404 & _).
  apply H404. reflexivity.
Defined.

End ApiFacts.

(** ** The upload controller *)

Module FileUploadFacts.
Import AppContext Constants FileUpload Samples.

(** What [validateFile] throws has a message, so the [catch] block shows
    it rather than [UPLOAD_FAILED]. *)
Lemma validateFile_throws_message (file : option File) (e : Api.JsError) :
  validateFile file = Js.Throw e ->
  Some (Api.handleApiError e ERROR_MESSAGES.UPLOAD_FAILED) = Api.message e.
Proof.
  unfold validateFile.
  destruct file as [f|].
  - destruct (file_size f >? MAX_FILE_SIZE).
    + intros [= <-]. reflexivity.
    + destruct (negb _); [intros [= <-]; reflexivity | discriminate].
  - intros [= <-]. reflexivity.
Qed.

(** A rejected file: the handler only reports the failure. *)
Lemma handleFileUpload_invalid (state : AppState) (local : Local)
    (file : option File) (net : Api.UploadResponse + Api.AxiosError)
    (e : Api.JsError) :
  validateFile file = Js.Throw e ->
  Eff.trace (handleFileUpload state local file net)
  = [ Dispatch (SET_ERROR (Api.message e)); SetIsUploading false; SetUploadProgress 0 ].
Proof.
  intros Hv. unfold handleFileUpload.
  rewrite Hv. cbn.
  rewrite (validateFile_throws_message file e Hv). reflexivity.
Qed.

(** An accepted file: the handler starts with these effects whatever the
    flags are. *)
Lemma handleFileUpload_valid (state : AppState) (local : Local)
    (file : option File) (net : Api.UploadResponse + Api.AxiosError) :
  validateFile file = Js.Return true ->
  exists rest,
    Eff.trace (handleFileUpload state local file net)
    = ([ SetIsUploading true; SetUploadProgress 0; Dispatch CLEAR_ERROR;
         Dispatch (SET_LOADING true); SetInterval 200;
         Call (Api.uploadPDF file) ] ++ rest)%list.
Proof.
  intros Hv. unfold handleFileUpload. rewrite Hv.
  destruct net as [resp|err]; cbn; eexists; reflexivity.
Qed.

Lemma validateFile_cases (file : option File) :
  validateFile file = Js.Return true \/ exists e, validateFile file = Js.Throw e.
Proof.
  unfold validateFile.
  destruct file as [f|]; [| eauto].
  destruct (file_size f >? MAX_FILE_SIZE); [eauto |].
  destruct (negb _); eauto.
Qed.

(** Every call dispatches at least one action. *)
Lemma handleFileUpload_dispatches (state : AppState) (local : Local)
    (file : option File) (net : Api.UploadResponse + Api.AxiosError) :
  dispatched (Eff.trace (handleFileUpload state local file net)) <> [].
Proof.
  destruct (validateFile_cases file) as [Hv|[e Hv]].
  - destruct (handleFileUpload_valid state local file net Hv) as [rest ->].
    cbn. discriminate.
  - rewrite (handleFileUpload_invalid state local file net e Hv).
    cbn. discriminate.
Qed.

(** C4: validation checks, in this order, that a file is present, that it
    is no larger than [MAX_FILE_SIZE] = 10 MiB and that its MIME type is
    [application/pdf]; the first check that fails decides the message; and
    whenever validation fails the handler invokes no gateway operation and
    dispatches SET_ERROR only, so neither [pdfFile] nor [sessionId]
    changes. *)
Theorem validateFile_first_failure_wins (state : AppState) (local : Local)
    (file : option File) (net : Api.UploadResponse + Api.AxiosError) :
  MAX_FILE_SIZE = 10485760
  /\ (file = None ->
      validateFile file = Js.Throw (Api.newError "No file selected"))
  /\ (forall f, file = Some f -> file_size f > MAX_FILE_SIZE ->
      validateFile file
      = Js.Throw (Api.newError "File size must be less than 10MB"))
  /\ (forall f, file = Some f -> file_size f <= MAX_FILE_SIZE ->
      file_type f <> "application/pdf" ->
      validateFile file = Js.Throw (Api.newError "Only PDF files are allowed"))
  /\ (forall e, validateFile file = Js.Throw e ->
      let tr := Eff.trace (handleFileUpload state local file net) in
      invoked tr = []
      /\ dispatched tr = [SET_ERROR (Api.message e)]
      /\ pdfFile (storeAfter state tr) = pdfFile state
      /\ sessionId (storeAfter state tr) = sessionId state).
Proof.
  split; [reflexivity |].
  split; [intros ->; reflexivity |].
  split; [| split].
  - intros f -> Hsize. unfold validateFile.
    replace (file_size f >? MAX_FILE_SIZE) with true; [reflexivity |].
    symmetry. apply Z.gtb_lt. lia.
  - intros f -> Hsize Htype. unfold validateFile.
    replace (file_size f >? MAX_FILE_SIZE) with false.
    + cbn [ALLOWED_FILE_TYPES existsb].
      apply String.eqb_neq in Htype. rewrite Htype. reflexivity.
    + symmetry. rewrite Z.gtb_ltb. apply Z.ltb_ge. exact Hsize.
  - intros e Hv. cbv zeta.
    rewrite (handleFileUpload_invalid state local file net e Hv).
    repeat split.
Qed.

Lemma validateFile_first_failure_wins_witness :
  validateFile (Some bigTextFile)
  = Js.Throw (Api.newError "File size must be less than 10MB").
Proof.
  destruct (validateFile_first_failure_wins initialState uploading
              (Some bigTextFile) (inr notFound))
    as (_ & _ & Hlarge & _).
  apply (Hlarge bigTextFile); [reflexivity | reflexivity].
Defined.

End FileUploadFacts.

(** ** The chat controllers *)

Module ChatFacts.
Import AppContext Constants Spec Samples.

Lemma trimStart_whitespace (s : string) :
  Js.all Js.isWhiteSpace s = true -> Js.trimStart s = "".
Proof.
  induction s as [|c s IH]; cbn; [reflexivity |].
  intros H. apply andb_true_iff in H. destruct H as [Hc Hs].
  rewrite Hc. exact (IH Hs).
Qed.

(** A whitespace-only text trims to the empty string. *)
Lemma trim_whitespace (s : string) :
  Js.all Js.isWhiteSpace s = true -> Js.trim s = "".
Proof.
  intros H. unfold Js.trim. rewrite (trimStart_whitespace s H). reflexivity.
Qed.

Lemma handleSendMessage_guard (state : AppState) (message : string)
    (t0 t1 : Clock) (net : Api.ChatResponse + Api.AxiosError) :
  guardFails state message = true ->
  ChatInterface.handleSendMessage state message t0 t1 net = Eff.ret tt.
Proof.
  unfold guardFails, ChatInterface.handleSendMessage. intros ->. reflexivity.
Qed.

Lemma sendMessage_guard (state : AppState) (message : string)
    (t0 t1 : Clock) (net : Api.ChatResponse + Api.AxiosError) :
  guardFails state message = true ->
  useChat.sendMessage state message t0 t1 net = Eff.ret refused.
Proof.
  unfold guardFails, useChat.sendMessage. intros ->. reflexivity.
Qed.

Lemma guardFails_loading (state : AppState) (message : string) :
  isLoading state = true -> guardFails state message = true.
Proof. unfold guardFails. intros ->. apply orb_true_r. Qed.

Lemma guardFails_no_session (state : AppState) (message : string) :
  sessionId state = None -> guardFails state message = true.
Proof.
  unfold guardFails. intros ->. cbn. rewrite orb_true_r. reflexivity.
Qed.

Lemma guardFails_blank (state : AppState) (message : string) :
  Js.all Js.isWhiteSpace message = true -> guardFails state message = true.
Proof.
  unfold guardFails. intros H. rewrite (trim_whitespace message H). reflexivity.
Qed.

(** [handleSendMessage] never touches [isLoading]: a request it has in
    flight does not by itself raise the flag its guard tests. *)
Lemma handleSendMessage_keeps_isLoading (state : AppState) (message : string)
    (t0 t1 : Clock) (net : Api.ChatResponse + Api.AxiosError) :
  isLoading (storeAfter state
               (Eff.trace (ChatInterface.handleSendMessage state message t0 t1 net)))
  = isLoading state.
Proof.
  unfold ChatInterface.handleSendMessage.
  destruct (_ || _ || _); [reflexivity |].
  destruct net as [resp|err]; reflexivity.
Qed.

(** C2, as the claim states it for the upload controller: called with a
    valid PDF while both [isLoading] and the local uploading flag are
    true, [handleFileUpload] still dispatches and still calls the
    gateway. *)
Lemma handleFileUpload_ignores_busy_flag :
  ~ (forall (state : AppState) (local : FileUpload.Local) (file : option File)
            (net : Api.UploadResponse + Api.AxiosError),
        isLoading state = true \/ FileUpload.isUploading local = true ->
        let tr := Eff.trace (FileUpload.handleFileUpload state local file net) in
        invoked tr = [] /\ dispatched tr = []).
Proof.
  intros claim.
  destruct (claim busy uploading
              (Some smallPdf) uploaded (or_introl eq_refl))
    as [Hcall _].
  vm_compute in Hcall. discriminate.
Qed.

(** C2 (amended): while [isLoading] is true the chat controller's two send
    functions return without invoking a gateway operation and without
    dispatching; [handleFileUpload] has no such check: what it does is the
    same whatever [isLoading] and the local uploading flag are, and every
    call dispatches at least one action. *)
Theorem chat_refuses_while_loading (state : AppState)
    (Hbusy : isLoading state = true)
    (message : string) (t0 t1 : Clock)
    (net : Api.ChatResponse + Api.AxiosError) :
  (let tr := Eff.trace (ChatInterface.handleSendMessage state message t0 t1 net) in
   invoked tr = [] /\ dispatched tr = [])
  /\ (let tr := Eff.trace (useChat.sendMessage state message t0 t1 net) in
      invoked tr = [] /\ dispatched tr = [])
  /\ (forall (local : FileUpload.Local) (file : option File)
             (upnet : Api.UploadResponse + Api.AxiosError),
        (forall state' local',
            FileUpload.handleFileUpload state' local' file upnet
            = FileUpload.handleFileUpload state local file upnet)
        /\ dispatched (Eff.trace (FileUpload.handleFileUpload state local file upnet))
           <> []).
Proof.
  pose proof (guardFails_loading state message Hbusy) as Hg.
  rewrite (handleSendMessage_guard state message t0 t1 net Hg).
  rewrite (sendMessage_guard state message t0 t1 net Hg).
  cbn. repeat split.
  apply FileUploadFacts.handleFileUpload_dispatches.
Qed.

Lemma chat_refuses_while_loading_witness :
  dispatched (Eff.trace (useChat.sendMessage busy "What is this about?" noon noon
                           (inr notFound))) = [].
Proof.
  apply (chat_refuses_while_loading busy eq_refl "What is this about?" noon noon
           (inr notFound)).
Defined.

(** What the guard of the two send functions refuses: when the text is
    empty or whitespace-only, or [sessionId] is unset, or [isLoading] is
    true, both do nothing: no effect at all, hence no message appended, no
    gateway call and the store as it was; [useChat]'s [sendMessage]
    resolves to a failure, [handleSendMessage] returns [undefined]. *)
Theorem send_is_noop (state : AppState) (message : string) (t0 t1 : Clock)
    (net : Api.ChatResponse + Api.AxiosError) :
  Js.all Js.isWhiteSpace message = true
  \/ sessionId state = None
  \/ isLoading state = true ->
  ChatInterface.handleSendMessage state message t0 t1 net = ([], Js.Return tt)
  /\ useChat.sendMessage state message t0 t1 net = ([], Js.Return refused)
  /\ useChat.success refused = false
  /\ storeAfter state [] = state.
Proof.
  intros H.
  assert (Hg : guardFails state message = true).
  { destruct H as [H|[H|H]].
    - exact (guardFails_blank state message H).
    - exact (guardFails_no_session state message H).
    - exact (guardFails_loading state message H). }
  rewrite (handleSendMessage_guard state message t0 t1 net Hg).
  rewrite (sendMessage_guard state message t0 t1 net Hg).
  repeat split.
Qed.

Lemma send_is_noop_witness :
  useChat.sendMessage noSession "What is this about?" noon noon
    answered
  = ([], Js.Return refused).
Proof.
  apply (send_is_noop noSession "What is this about?").
  right. left. reflexivity.
Defined.

End ChatFacts.

(** ** Citation chips *)

Module CitationLinkFacts.
Import AppContext CitationLink Samples.

(** C10: a click on a chip whose page is truthy dispatches
    SET_CURRENT_PAGE with that page and nothing else, without looking at
    [totalPages], so [currentPage] exceeds [totalPages] when the page does;
    a click on a chip whose page is absent or zero dispatches nothing and
    leaves the store as it was, whatever its section is. *)
Theorem click_navigates_unchecked (state : AppState) (citation : Citation) :
  let tr := Eff.trace (handleCitationClick citation) in
  (forall p, page citation = Some p -> p <> 0 ->
     dispatched tr = [SET_CURRENT_PAGE p]
     /\ currentPage (storeAfter state tr) = p
     /\ totalPages (storeAfter state tr) = totalPages state
     /\ (totalPages state < p ->
         totalPages (storeAfter state tr) < currentPage (storeAfter state tr)))
  /\ (page citation = None \/ page citation = Some 0 ->
      dispatched tr = [] /\ storeAfter state tr = state).
Proof.
  cbv zeta. unfold handleCitationClick. split.
  - intros p Hp Hnz. rewrite Hp. cbn [Js.truthy_num].
    apply Z.eqb_neq in Hnz. rewrite Hnz. cbn.
    repeat split. trivial.
  - intros [Hp|Hp]; rewrite Hp; cbn; split; reflexivity.
Qed.

Lemma click_navigates_unchecked_witness :
  totalPages (storeAfter ready (Eff.trace (handleCitationClick toPage12)))
  < currentPage (storeAfter ready (Eff.trace (handleCitationClick toPage12))).
Proof.
  destruct (click_navigates_unchecked ready toPage12) as [Hnav _].
  destruct (Hnav 12 eq_refl) as (_ & _ & _ & Hover).
  - discriminate.
  - apply Hover. reflexivity.
Defined.

End CitationLinkFacts.
(** ** Strings *)

Module StringFacts.

Lemma append_assoc (a b c : string) : (a ++ b) ++ c = a ++ (b ++ c).
Proof. induction a as [|x a IH]; cbn; [reflexivity | rewrite IH; reflexivity]. Qed.

Lemma append_nil_r (a : string) : a ++ "" = a.
Proof. induction a as [|x a IH]; cbn; [reflexivity | rewrite IH; reflexivity]. Qed.

Lemma length_append (a b : string) :
  String.length (a ++ b) = (String.length a + String.length b)%nat.
Proof. induction a as [|x a IH]; cbn; [reflexivity | rewrite IH; reflexivity]. Qed.

End StringFacts.

(** ** The citation pattern *)

Module RegExpFacts.
Import RegExp StringFacts Spec.

Lemma canonicalize_paren_open (c : ascii) :
  Ascii.eqb (canonicalize c) (canonicalize "(") = true -> c = "("%char.
Proof.
  destruct c as [[] [] [] [] [] [] [] []]; vm_compute; congruence.
Qed.

Lemma canonicalize_paren_close (c : ascii) :
  Ascii.eqb (canonicalize c) (canonicalize ")") = true -> c = ")"%char.
Proof.
  destruct c as [[] [] [] [] [] [] [] []]; vm_compute; congruence.
Qed.

Lemma canonicalize_idempotent (c : ascii) : canonicalize (canonicalize c) = canonicalize c.
Proof.
  destruct c as [[] [] [] [] [] [] [] []]; vm_compute; congruence.
Qed.


Lemma chr_i_inv (p : ascii) (s rest : string) :
  chr_i p s = Some rest ->
  exists c, s = String c rest /\ canonicalize c = canonicalize p.
Proof.
  destruct s as [|c s]; cbn; [discriminate |].
  destruct (Ascii.eqb_spec (canonicalize c) (canonicalize p)) as [E|]; [| discriminate].
  intros [= ->]. exists c. split; [reflexivity | exact E].
Qed.

(** What a successful [plus] matched. *)
Lemma plus_inv {R} (cls : ascii -> bool) (s : string)
    (k : string -> string -> option R) (x : R) :
  plus cls s k = Some x ->
  exists m r, s = m ++ r /\ m <> "" /\ Js.all cls m = true /\ k m r = Some x.
Proof.
  revert k. induction s as [|c s IH]; intros k; cbn; [discriminate |].
  destruct (cls c) eqn:Hc; [| discriminate].
  destruct (plus cls s (fun m r => k (String c m) r)) as [y|] eqn:Hp.
  - intros [= ->]. destruct (IH _ Hp) as (m & r & -> & Hm & Hall & Hk).
    exists (String c m), r. cbn. rewrite Hc, Hall. repeat split; [discriminate | exact Hk].
  - intros Hk. exists (String c ""), s. cbn. rewrite Hc.
    repeat split; [discriminate | exact Hk].
Qed.



Lemma andThen_inv {A B} (o : option A) (k : A -> option B) (b : B) :
  andThen o k = Some b -> exists a, o = Some a /\ k a = Some b.
Proof. destruct o as [a|]; cbn; [eauto | discriminate]. Qed.


(** Soundness: what [citationRegex] matches is a citation literal. *)
Lemma citationRegex_sound (s digits rest : string) :
  citationRegex s = Some (digits, rest) ->
  exists lit, s = lit ++ rest /\ literal lit digits.
Proof.
  unfold citationRegex. intros H.
  apply andThen_inv in H. destruct H as (s0 & H0 & H).
  apply andThen_inv in H. destruct H as (s1 & H1 & H).
  apply andThen_inv in H. destruct H as (s2 & H2 & H).
  apply andThen_inv in H. destruct H as (s3 & H3 & H).
  apply andThen_inv in H. destruct H as (s4 & H4 & H).
  apply plus_inv in H. destruct H as (spaces & r5 & -> & Hsp & Hspall & H).
  apply plus_inv in H. destruct H as (ds & r6 & -> & Hds & Hdsall & H).
  apply andThen_inv in H. destruct H as (s7 & H7 & [= -> ->]).
  apply chr_i_inv in H0, H1, H2, H3, H4, H7.
  destruct H0 as (c0 & -> & E0), H1 as (c1 & -> & E1), H2 as (c2 & -> & E2),
    H3 as (c3 & -> & E3), H4 as (c4 & -> & E4), H7 as (c7 & -> & E7).
  assert (c0 = "("%char) as ->
      by (apply canonicalize_paren_open; rewrite E0; apply Ascii.eqb_refl).
  assert (c7 = ")"%char) as ->
      by (apply canonicalize_paren_close; rewrite E7; apply Ascii.eqb_refl).
  exists ("(" ++ String c1 (String c2 (String c3 (String c4 ""))) ++ spaces ++ digits ++ ")").
  split.
  - cbn. rewrite !append_assoc. reflexivity.
  - exists (String c1 (String c2 (String c3 (String c4 "")))), spaces.
    repeat split; try assumption.
    cbn. rewrite E1, E2, E3, E4. reflexivity.
Qed.



End RegExpFacts.

(** ** Citation extraction *)

Module ExtractFacts.
Import RegExp StringFacts RegExpFacts ChatInterface Spec Samples.

Section Extension.
(** The text that follows starts with an opening parenthesis. *)
Variable x' : string.
Let x : string := String "(" x'.

Lemma plus_stable (cls : ascii -> bool) (k : string -> string -> option (string * string)) :
  cls "("%char = false -> stable x k ->
  forall a, plus cls (a ++ x) k = extend x (plus cls a k).
Proof.
  intros Hcls Hk a. revert k Hk.
  induction a as [|c a IH]; intros k Hk.
  - cbn. rewrite Hcls. reflexivity.
  - cbn. destruct (cls c); [| reflexivity].
    rewrite IH by (intros m b; apply Hk).
    destruct (plus cls a _) as [[ds rest]|]; [reflexivity | apply Hk].
Qed.

Lemma chr_i_stable (p : ascii) (a : string) (k : string -> option (string * string)) :
  Ascii.eqb (canonicalize "(") (canonicalize p) = false ->
  (forall b, k (b ++ x) = extend x (k b)) ->
  andThen (chr_i p (a ++ x)) k = extend x (andThen (chr_i p a) k).
Proof.
  intros Hp Hk. destruct a as [|c a]; cbn.
  - rewrite Hp. reflexivity.
  - destruct (Ascii.eqb (canonicalize c) (canonicalize p)); cbn;
      [apply Hk | reflexivity].
Qed.

(** Anchored at a position before [x], the pattern cannot reach into
    [x]: it has no opening parenthesis after its first character. *)
Lemma citationRegex_app (a : string) :
  a <> "" -> citationRegex (a ++ x) = extend x (citationRegex a).
Proof.
  destruct a as [|c a]; [contradiction |]. intros _.
  unfold citationRegex. cbn [append chr_i].
  destruct (Ascii.eqb (canonicalize c) (canonicalize "(")); cbn [andThen];
    [| reflexivity].
  repeat (apply chr_i_stable; [reflexivity |]; intros ?).
  apply plus_stable; [reflexivity |]. intros ? ?.
  apply plus_stable; [reflexivity |]. intros ? ?.
  apply chr_i_stable; [reflexivity |]. intros ?. reflexivity.
Qed.

Lemma exec_app (a : string) :
  exec (a ++ x) = match exec a with
                  | Some (digits, rest) => Some (digits, rest ++ x)
                  | None => exec x
                  end.
Proof.
  induction a as [|c a IH]; [reflexivity |].
  cbn [exec append].
  change (String c (a ++ x)) with (String c a ++ x).
  rewrite citationRegex_app by discriminate.
  destruct (citationRegex (String c a)) as [[ds rest]|]; [reflexivity |].
  cbn [extend]. exact IH.
Qed.
End Extension.

(** Where [exec] finds its match. *)
Lemma exec_sound (s digits rest : string) :
  exec s = Some (digits, rest) ->
  exists pre lit, s = pre ++ lit ++ rest /\ literal lit digits.
Proof.
  induction s as [|c s IH].
  - cbn. discriminate.
  - cbn [exec].
    destruct (citationRegex (String c s)) as [[ds r]|] eqn:Hm.
    + intros [= -> ->]. destruct (citationRegex_sound _ _ _ Hm) as (lit & Hs & Hlit).
      exists "", lit. split; [exact Hs | exact Hlit].
    + intros H. destruct (IH H) as (pre & lit & -> & Hlit).
      exists (String c pre), lit. split; [reflexivity | exact Hlit].
Qed.

Lemma literal_length (lit digits : string) :
  literal lit digits -> (0 < String.length lit)%nat.
Proof. intros (word & spaces & -> & _). cbn. lia. Qed.

(** Every match consumes input. *)
Lemma exec_shorter (s digits rest : string) :
  exec s = Some (digits, rest) -> (String.length rest < String.length s)%nat.
Proof.
  intros H. destruct (exec_sound _ _ _ H) as (pre & lit & -> & Hlit).
  apply literal_length in Hlit. rewrite !length_append. lia.
Qed.

(** With fuel beyond the length of the text the loop runs to its end. *)
Lemma extractLoop_Scans (fuel : nat) (s : string) :
  (String.length s < fuel)%nat ->
  exists found, extractLoop fuel s = Some found /\ Scans s found.
Proof.
  revert s. induction fuel as [|fuel IH]; intros s Hlen; [lia |].
  cbn [extractLoop].
  destruct (exec s) as [[digits rest]|] eqn:Hexec.
  - pose proof (exec_shorter _ _ _ Hexec) as Hshort.
    destruct (IH rest ltac:(lia)) as (found & -> & Hscan).
    eexists. split; [reflexivity |]. exact (Scans_push _ _ _ _ Hexec Hscan).
  - exists []. split; [reflexivity | exact (Scans_null _ Hexec)].
Qed.

Lemma extractCitations_Scans (text : string) : Scans text (extractCitations text).
Proof.
  unfold extractCitations.
  destruct (extractLoop_Scans (S (String.length text)) text ltac:(lia))
    as (found & -> & Hscan).
  exact Hscan.
Qed.

Lemma Scans_functional (s : string) (l1 l2 : list Citation) :
  Scans s l1 -> Scans s l2 -> l1 = l2.
Proof.
  intros H1. revert l2.
  induction H1 as [s Hnull|s digits rest found Hexec _ IH]; intros l2 H2.
  - inversion H2; [reflexivity | congruence].
  - inversion H2 as [|? ? ? ? Hexec' Hscan']; subst; [congruence |].
    rewrite Hexec in Hexec'. injection Hexec' as <- <-.
    f_equal. apply IH. exact Hscan'.
Qed.

Lemma Scans_extractCitations (text : string) (found : list Citation) :
  Scans text found -> extractCitations text = found.
Proof. intros H. exact (Scans_functional _ _ _ (extractCitations_Scans text) H). Qed.

(** Scanning a text that is followed by an opening parenthesis. *)
Lemma Scans_app (a x' : string) (l1 l2 : list Citation) :
  Scans a l1 -> Scans (String "(" x') l2 -> Scans (a ++ String "(" x') (l1 ++ l2).
Proof.
  intros H1 H2.
  induction H1 as [s Hnull|s digits rest found Hexec _ IH].
  - cbn [app]. inversion H2 as [? Hx|? ? ? ? Hx Hrest]; subst.
    + apply Scans_null. rewrite exec_app, Hnull. exact Hx.
    + apply (Scans_push _ _ _ _ ltac:(rewrite exec_app, Hnull; exact Hx) Hrest).
  - cbn [app]. apply (Scans_push _ digits (rest ++ String "(" x')).
    + rewrite exec_app, Hexec. reflexivity.
    + exact IH.
Qed.




Lemma parseInt_digits (digits : string) :
  digits <> "" -> Js.all Js.isDigit digits = true ->
  parseInt digits = Some (Js.toNumber (digitsValue 0 digits)).
Proof.
  intros Hne Hall. unfold parseInt.
  assert (Hpre : digitPrefix digits = digits).
  { clear Hne. induction digits as [|c ds IH]; [reflexivity |].
    cbn in Hall |- *. apply andb_true_iff in Hall. destruct Hall as [Hc Hds].
    rewrite Hc, (IH Hds). reflexivity. }
  rewrite Hpre. destruct digits; [contradiction | reflexivity].
Qed.

Lemma Scans_sound (s : string) (found : list Citation) :
  Scans s found ->
  forall c, In c found ->
  exists pre lit digits post,
    s = pre ++ lit ++ post /\ literal lit digits /\ c = pageReference digits.
Proof.
  induction 1 as [s Hnull|s digits rest found Hexec _ IH]; intros c Hin; [destruct Hin |].
  destruct (exec_sound _ _ _ Hexec) as (pre & lit & -> & Hlit).
  destruct Hin as [<-|Hin].
  - exists pre, lit, digits, rest. repeat split. exact Hlit.
  - destruct (IH c Hin) as (pre' & lit' & digits' & post' & -> & Hlit' & ->).
    exists (pre ++ lit ++ pre'), lit', digits', post'.
    split; [| split; [exact Hlit' | reflexivity]].
    rewrite !append_assoc. reflexivity.
Qed.

Lemma pageReference_digits (digits : string) :
  digits <> "" -> Js.all Js.isDigit digits = true ->
  pageReference digits = pageCitation (Js.toNumber (digitsValue 0 digits)) digits.
Proof.
  intros Hne Hall. unfold pageReference, pageCitation.
  rewrite (parseInt_digits digits Hne Hall). reflexivity.
Qed.

Lemma literal_digits (lit digits : string) :
  literal lit digits -> digits <> "" /\ Js.all Js.isDigit digits = true.
Proof. intros (word & spaces & _ & _ & _ & _ & Hne & Hall). split; assumption. Qed.


Lemma toNumber_nonneg (n : Z) : 0 <= n -> 0 <= Js.toNumber n.
Proof.
  intros H. unfold Js.toNumber.
  destruct (n <=? 2 ^ 53); [exact H |].
  apply Z.shiftl_nonneg.
  assert (0 <= Z.shiftr n (Z.log2 n - 52)) by (apply Z.shiftr_nonneg; exact H).
  destruct (_ || _); lia.
Qed.





End ExtractFacts.

(** ** [Map] *)

Module JsMapFacts.
Section WithKeys.
Context {K V : Type} (eqb : K -> K -> bool).
Hypothesis eqb_eq : forall a b, eqb a b = true <-> a = b.
Variable K_dec : forall a b : K, {a = b} + {a <> b}.

Lemma eqb_neq (a b : K) : eqb a b = false <-> a <> b.
Proof.
  split.
  - intros H E. apply eqb_eq in E. congruence.
  - intros H. destruct (eqb a b) eqn:E; [| reflexivity].
    apply eqb_eq in E. contradiction.
Qed.

Lemma ofEntries_snoc (es : list (K * V)) (k : K) (v : V) :
  JsMap.ofEntries eqb (es ++ [(k, v)]) = JsMap.set eqb (JsMap.ofEntries eqb es) k v.
Proof. unfold JsMap.ofEntries. rewrite fold_left_app. reflexivity. Qed.

Lemma keys_set_old (m : list (K * V)) (k : K) (v : V) :
  In k (JsMap.keys m) -> JsMap.keys (JsMap.set eqb m k v) = JsMap.keys m.
Proof.
  induction m as [|[k' v'] m IH]; cbn; [tauto |].
  intros [->|Hin].
  - replace (eqb k k) with true by (symmetry; apply eqb_eq; reflexivity).
    reflexivity.
  - destruct (eqb k' k); cbn; [reflexivity |].
    f_equal. exact (IH Hin).
Qed.

Lemma keys_set_new (m : list (K * V)) (k : K) (v : V) :
  ~ In k (JsMap.keys m) -> JsMap.keys (JsMap.set eqb m k v) = (JsMap.keys m ++ [k])%list.
Proof.
  induction m as [|[k' v'] m IH]; cbn; [reflexivity |].
  intros Hnot.
  destruct (eqb k' k) eqn:E.
  - apply eqb_eq in E. tauto.
  - cbn. f_equal. apply IH. tauto.
Qed.

Lemma in_set (m : list (K * V)) (k k0 : K) (v v0 : V) :
  NoDup (JsMap.keys m) ->
  In (k, v) (JsMap.set eqb m k0 v0) ->
  (k = k0 /\ v = v0) \/ (k <> k0 /\ In (k, v) m).
Proof.
  induction m as [|[k' v'] m IH]; cbn.
  - intros _ [[= <- <-]|[]]. left. split; reflexivity.
  - intros Hnd. inversion Hnd as [|? ? Hfresh Hnd']; subst.
    destruct (eqb k' k0) eqn:E.
    + apply eqb_eq in E. subst k'.
      intros [[= <- <-]|Hin]; [left; split; reflexivity |].
      right. split; [| right; exact Hin].
      intros ->. apply Hfresh. apply (in_map fst) in Hin. exact Hin.
    + apply eqb_neq in E.
      intros [[= <- <-]|Hin]; [right; split; [exact E | left; reflexivity] |].
      destruct (IH Hnd' Hin) as [?|[? ?]]; [left; assumption | right; split; auto].
Qed.

Lemma keys_ofEntries (es : list (K * V)) :
  JsMap.keys (JsMap.ofEntries eqb es) = rev (nodup K_dec (rev (map fst es))).
Proof.
  induction es as [|[k v] es IH] using rev_ind; [reflexivity |].
  rewrite ofEntries_snoc, map_app, rev_app_distr. cbn [map rev app fst nodup].
  destruct (in_dec K_dec k (rev (map fst es))) as [Hin|Hnot].
  - rewrite keys_set_old; [exact IH |].
    rewrite IH. apply in_rev. rewrite rev_involutive. apply nodup_In. exact Hin.
  - rewrite keys_set_new.
    + rewrite IH. reflexivity.
    + rewrite IH. intros Hin. apply Hnot.
      apply in_rev in Hin. apply nodup_In in Hin. exact Hin.
Qed.

Lemma NoDup_keys_ofEntries (es : list (K * V)) :
  NoDup (JsMap.keys (JsMap.ofEntries eqb es)).
Proof.
  rewrite keys_ofEntries. apply NoDup_rev, NoDup_nodup.
Qed.

(** Last one wins: the value kept under a key is that of the last entry
    with this key. *)
Lemma ofEntries_last (es : list (K * V)) (k : K) (v : V) :
  In (k, v) (JsMap.ofEntries eqb es) ->
  find (fun e => eqb (fst e) k) (rev es) = Some (k, v).
Proof.
  revert k v.
  induction es as [|[k0 v0] es IH] using rev_ind; intros k v; [intros [] |].
  rewrite ofEntries_snoc, rev_app_distr. cbn [rev app find fst].
  intros Hin.
  destruct (in_set _ _ _ _ _ (NoDup_keys_ofEntries es) Hin) as [[-> ->]|[Hne Hold]].
  - replace (eqb k0 k0) with true by (symmetry; apply eqb_eq; reflexivity).
    reflexivity.
  - replace (eqb k0 k) with false by (symmetry; apply eqb_neq; congruence).
    exact (IH k v Hold).
Qed.

End WithKeys.
End JsMapFacts.

(** ** Rendering the citations of a message *)

Module RenderFacts.
Import ChatInterface Spec Samples.

Lemma samePage_eq (a b : option Z) : samePage a b = true <-> a = b.
Proof.
  destruct a as [x|], b as [y|]; cbn; split; try congruence.
  - intros H. apply Z.eqb_eq in H. congruence.
  - intros [= ->]. apply Z.eqb_refl.
Qed.

Lemma find_entries (k : option Z) (cs : list Citation) :
  find (fun e => samePage (fst e) k) (map entry cs)
  = option_map entry (find (fun c => samePage (page c) k) cs).
Proof.
  induction cs as [|c cs IH]; cbn; [reflexivity |].
  destruct (samePage (page c) k); [reflexivity | exact IH].
Qed.

(** What the map keeps under a key is a citation of that page, the last
    one of the stored list. *)
Lemma kept_entry (cs : list Citation) (k : option Z) (c : Citation) :
  In (k, c) (JsMap.ofEntries samePage (map entry cs)) ->
  k = page c /\ find (fun x => samePage (page x) (page c)) (rev cs) = Some c.
Proof.
  intros Hin.
  apply (JsMapFacts.ofEntries_last samePage samePage_eq page_eq_dec) in Hin.
  rewrite <- map_rev, find_entries in Hin.
  destruct (find _ (rev cs)) as [c'|] eqn:Hfind; [| discriminate].
  injection Hin as Hk Hc. subst c'. subst k.
  split; [reflexivity | exact Hfind].
Qed.

Lemma nodup_snoc (l : list (option Z)) (x : option Z) :
  nodup page_eq_dec (l ++ [x]) = (remove page_eq_dec x (nodup page_eq_dec l) ++ [x])%list.
Proof.
  induction l as [|a l IH]; [reflexivity |].
  cbn [app nodup].
  destruct (page_eq_dec a x) as [->|Hne].
  - destruct (in_dec page_eq_dec x (l ++ [x])) as [_|Hnot].
    + rewrite IH. destruct (in_dec page_eq_dec x l); [reflexivity |].
      cbn [remove]. destruct (page_eq_dec x x); [reflexivity | contradiction].
    + exfalso. apply Hnot, in_or_app. right. left. reflexivity.
  - destruct (in_dec page_eq_dec a (l ++ [x])) as [Hin|Hnot];
      destruct (in_dec page_eq_dec a l) as [Hin'|Hnot'].
    + exact IH.
    + exfalso. apply in_app_or in Hin. destruct Hin as [?|[?|[]]]; [tauto | congruence].
    + exfalso. apply Hnot, in_or_app. left. exact Hin'.
    + rewrite IH. cbn [remove].
      destruct (page_eq_dec x a); [congruence | reflexivity].
Qed.

Lemma remove_rev (x : option Z) (l : list (option Z)) :
  remove page_eq_dec x (rev l) = rev (remove page_eq_dec x l).
Proof.
  induction l as [|a l IH]; [reflexivity |].
  cbn [rev]. rewrite remove_app, IH. cbn [remove].
  destruct (page_eq_dec x a); cbn [rev]; [apply app_nil_r | reflexivity].
Qed.

Lemma firstSeen_nodup (l : list (option Z)) :
  firstSeen l = rev (nodup page_eq_dec (rev l)).
Proof.
  induction l as [|p l IH]; [reflexivity |].
  cbn [firstSeen rev]. rewrite nodup_snoc, rev_app_distr. cbn [rev app].
  rewrite IH, remove_rev. reflexivity.
Qed.

Lemma firstSeen_In (l : list (option Z)) (x : option Z) :
  In x (firstSeen l) <-> In x l.
Proof.
  rewrite firstSeen_nodup, <- in_rev, nodup_In, <- in_rev. reflexivity.
Qed.

Lemma firstSeen_NoDup (l : list (option Z)) : NoDup (firstSeen l).
Proof. rewrite firstSeen_nodup. apply NoDup_rev, NoDup_nodup. Qed.

Lemma uniqueCitations_pages (cs : list Citation) :
  map page (uniqueCitations cs) = firstSeen (map page cs).
Proof.
  rewrite firstSeen_nodup.
  unfold uniqueCitations, JsMap.values.
  change (fun c => (page c, c)) with entry.
  replace (map page cs) with (map fst (map entry cs))
    by (rewrite map_map; reflexivity).
  rewrite <- (JsMapFacts.keys_ofEntries samePage samePage_eq page_eq_dec).
  unfold JsMap.keys. rewrite map_map.
  apply map_ext_in. intros [k c] Hin. cbn.
  destruct (kept_entry cs k c Hin) as [-> _]. reflexivity.
Qed.

Lemma uniqueCitations_last (cs : list Citation) (c : Citation) :
  In c (uniqueCitations cs) ->
  find (fun x => samePage (page x) (page c)) (rev cs) = Some c.
Proof.
  unfold uniqueCitations, JsMap.values. intros Hin.
  apply in_map_iff in Hin. destruct Hin as [[k c'] [Hc Hin]]. cbn in Hc. subst c'.
  exact (proj2 (kept_entry cs k c Hin)).
Qed.

Lemma map_mapi_from {A B C} (g : B -> C) (f : A -> nat -> B) (h : A -> C) (i : nat)
    (l : list A) :
  (forall x n, g (f x n) = h x) -> map g (mapi_from i f l) = map h l.
Proof.
  intros Hg. revert i. induction l as [|x l IH]; intros i; cbn; [reflexivity |].
  rewrite Hg, IH. reflexivity.
Qed.

(** The chips are the deduplicated citations, one chip each, in order. *)
Lemma renderMessage_citations (msg : ChatMessage) (cs : list Citation) :
  msg_citations msg = Some cs ->
  map CitationLink.citation (renderMessage msg) = uniqueCitations cs.
Proof.
  intros Hcs. unfold renderMessage. rewrite Hcs.
  destruct cs as [|c cs]; [reflexivity |].
  replace (0 <? Z.of_nat (List.length (c :: cs))) with true
    by (symmetry; apply Z.ltb_lt; cbn [List.length]; lia).
  unfold mapi. rewrite (map_mapi_from _ _ (fun x => x)) by reflexivity.
  apply map_id.
Qed.

Lemma pageless_samePage (c : Citation) : samePage (page c) None = pageless c.
Proof. unfold pageless. destruct (page c); reflexivity. Qed.

Lemma find_ext {A} (f g : A -> bool) (l : list A) :
  (forall x, f x = g x) -> find f l = find g l.
Proof.
  intros H. induction l as [|x l IH]; cbn; [reflexivity |].
  rewrite H, IH. reflexivity.
Qed.

Lemma filter_map_comm {A B} (f : A -> B) (p : B -> bool) (l : list A) :
  map f (filter (fun x => p (f x)) l) = filter p (map f l).
Proof.
  induction l as [|x l IH]; cbn; [reflexivity |].
  destruct (p (f x)); cbn; rewrite IH; reflexivity.
Qed.

(** Among citations with pairwise distinct pages at most one has none. *)
Lemma pageless_at_most_one (l : list Citation) :
  NoDup (map page l) ->
  filter pageless l = [] \/ exists c, filter pageless l = [c].
Proof.
  induction l as [|c l IH]; cbn; [left; reflexivity |].
  intros Hnd. inversion Hnd as [|? ? Hfresh Hnd']; subst.
  destruct (pageless c) eqn:Hc.
  - right. exists c. f_equal.
    destruct (filter pageless l) as [|c' rest] eqn:Hf; [reflexivity |].
    exfalso. apply Hfresh.
    assert (Hin : In c' (filter pageless l)) by (rewrite Hf; left; reflexivity).
    apply filter_In in Hin. destruct Hin as [Hin Hc'].
    unfold pageless in Hc, Hc'.
    destruct (page c) eqn:Ec; [discriminate |].
    destruct (page c') eqn:Ec'; [discriminate |].
    rewrite <- Ec'. apply in_map. exact Hin.
  - exact (IH Hnd').
Qed.

(** C7: the chips under a message are its citations deduplicated through a
    map keyed by page: one chip per distinct page, in the order in which the
    pages are first seen, each chip showing the last stored citation of its
    page.  For the stored list of pages 3, 3, 7 exactly two chips are
    rendered, for pages 3 and 7 in this order, the chip of page 3 being the
    second citation; rendering is a function of the message and leaves the
    stored list as it is. *)
Theorem render_dedup_by_page (msg : ChatMessage) (cs : list Citation) :
  msg_citations msg = Some cs ->
  let chips := renderMessage msg in
  map chipPage chips = firstSeen (map page cs)
  /\ NoDup (map chipPage chips)
  /\ (forall chip, In chip chips ->
        find (fun c => samePage (page c) (chipPage chip)) (rev cs)
        = Some (CitationLink.citation chip))
  /\ List.length (renderMessage (reply threeThreeSeven)) = 2%nat
  /\ map chipPage (renderMessage (reply threeThreeSeven)) = [Some 3; Some 7]
  /\ map CitationLink.citation (renderMessage (reply threeThreeSeven))
     = [cite (Some 3) "second"; cite (Some 7) "third"]
  /\ msg_citations (reply threeThreeSeven) = Some threeThreeSeven.
Proof.
  intros Hcs. cbv zeta.
  assert (Hpages : map chipPage (renderMessage msg) = firstSeen (map page cs)).
  { unfold chipPage. rewrite <- (map_map CitationLink.citation page).
    rewrite (renderMessage_citations msg cs Hcs).
    apply uniqueCitations_pages. }
  split; [exact Hpages |].
  split; [rewrite Hpages; apply firstSeen_NoDup |].
  split; [| repeat split].
  intros chip Hin. unfold chipPage.
  apply uniqueCitations_last.
  rewrite <- (renderMessage_citations msg cs Hcs).
  apply in_map. exact Hin.
Qed.

Lemma render_dedup_by_page_witness :
  map chipPage (renderMessage (reply twoWithoutPage)) = [None; Some 4].
Proof.
  apply (render_dedup_by_page (reply twoWithoutPage) twoWithoutPage eq_refl).
Defined.

(** In the data model, where a missing page is one value: when two or more
    citations of a message have no page, exactly one of the rendered chips
    has no page, it shows the last of them, and fewer chips are rendered
    than citations are stored. *)
Theorem pageless_citations_share_a_chip (msg : ChatMessage) (cs : list Citation) :
  msg_citations msg = Some cs ->
  (2 <= List.length (filter pageless cs))%nat ->
  exists chip,
    filter (fun ch => pageless (CitationLink.citation ch)) (renderMessage msg) = [chip]
    /\ find pageless (rev cs) = Some (CitationLink.citation chip)
    /\ (List.length (renderMessage msg) < List.length cs)%nat.
Proof.
  intros Hcs Htwo.
  pose proof (renderMessage_citations msg cs Hcs) as Hchips.
  pose proof (uniqueCitations_pages cs) as Hpages.
  assert (Hsome : In None (map page cs)).
  { destruct (filter pageless cs) as [|c rest] eqn:Hf; [cbn in Htwo; lia |].
    assert (Hin : In c (filter pageless cs)) by (rewrite Hf; left; reflexivity).
    apply filter_In in Hin. destruct Hin as [Hin Hc].
    unfold pageless in Hc. destruct (page c) eqn:Ec; [discriminate |].
    rewrite <- Ec. apply in_map. exact Hin. }
  assert (Hnd : NoDup (map page (uniqueCitations cs))).
  { rewrite Hpages. apply firstSeen_NoDup. }
  destruct (pageless_at_most_one _ Hnd) as [Hnone|[c Hone]].
  - exfalso.
    apply (proj2 (firstSeen_In _ _)) in Hsome. rewrite <- Hpages in Hsome.
    apply in_map_iff in Hsome. destruct Hsome as [c [Hc Hin]].
    assert (Hin' : In c (filter pageless (uniqueCitations cs))).
    { apply filter_In. split; [exact Hin |]. unfold pageless. rewrite Hc. reflexivity. }
    rewrite Hnone in Hin'. exact Hin'.
  - rewrite <- Hchips, <- filter_map_comm in Hone.
    destruct (filter _ (renderMessage msg)) as [|chip [|chip' rest]] eqn:Hf;
      try discriminate.
    injection Hone as Hc. exists chip.
    split; [reflexivity |].
    split.
    + assert (Hin : In chip (renderMessage msg)).
      { assert (H : In chip (filter (fun ch => pageless (CitationLink.citation ch))
                               (renderMessage msg)))
          by (rewrite Hf; left; reflexivity).
        apply filter_In in H. exact (proj1 H). }
      assert (Hless : pageless (CitationLink.citation chip) = true).
      { assert (H : In chip (filter (fun ch => pageless (CitationLink.citation ch))
                               (renderMessage msg)))
          by (rewrite Hf; left; reflexivity).
        apply filter_In in H. exact (proj2 H). }
      assert (Hlast := uniqueCitations_last cs (CitationLink.citation chip)).
      rewrite <- Hchips in Hlast. specialize (Hlast (in_map _ _ _ Hin)).
      unfold pageless in Hless.
      destruct (page (CitationLink.citation chip)) eqn:Ep; [discriminate |].
      rewrite <- Hlast. apply find_ext. intros x. symmetry. apply pageless_samePage.
    + destruct (Nat.lt_ge_cases (List.length (renderMessage msg)) (List.length cs))
        as [Hlt|Hge]; [exact Hlt | exfalso].
      assert (Hdistinct : NoDup (map page cs)).
      { apply (NoDup_incl_NoDup (l:=firstSeen (map page cs))).
        - apply firstSeen_NoDup.
        - rewrite <- Hpages, <- Hchips, !length_map. exact Hge.
        - intros x Hx. exact (proj1 (firstSeen_In _ _) Hx). }
      destruct (pageless_at_most_one cs Hdistinct) as [H0|[c0 H1]].
      * rewrite H0 in Htwo. cbn in Htwo. lia.
      * rewrite H1 in Htwo. cbn in Htwo. lia.
Qed.

Lemma pageless_citations_share_a_chip_witness :
  exists chip,
    filter (fun ch => pageless (CitationLink.citation ch))
      (renderMessage (reply twoWithoutPage)) = [chip]
    /\ find pageless (rev twoWithoutPage) = Some (CitationLink.citation chip)
    /\ (List.length (renderMessage (reply twoWithoutPage))
        < List.length twoWithoutPage)%nat.
Proof.
  apply (pageless_citations_share_a_chip (reply twoWithoutPage) twoWithoutPage eq_refl).
  cbn. lia.
Defined.

End RenderFacts.

(** ** Runs on sample inputs *)

Module Runs.
Import AppContext Samples.

Example extract_mixed_case_and_spacing :
  map page (ChatInterface.extractCitations "(PAGE   007) (Page5) (Page 3 ) ((pAgE 9)")
  = [Some 7; Some 9].
Proof. reflexivity. Qed.

Example extract_nothing : ChatInterface.extractCitations "No sources (page)." = [].
Proof. reflexivity. Qed.

Example trim_inner_space_kept : Js.trim "  a b  " = "a b".
Proof. reflexivity. Qed.

Example teapot :
  Api.rejectionMessage
    {| Api.response := Some {| Api.status := 418; Api.data := None |};
       Api.request := true;
       Api.axios_message := None |}
    Constants.ERROR_MESSAGES.CHAT_FAILED
  = "Server error (418): An error occurred".
Proof. reflexivity. Qed.

Example plain_text_rejected :
  FileUpload.validateFile
    (Some {| file_name := "notes.txt"; file_size := 1024;
             file_type := "text/plain"; file_lastModified := 0 |})
  = Js.Throw (Api.newError "Only PDF files are allowed").
Proof. reflexivity. Qed.

(** Uploading a valid 2 MB PDF commits the file and the session and ends
    idle and without error. *)
Example upload_then_idle :
  let tr := Eff.trace (FileUpload.handleFileUpload initialState
                         (FileUpload.mkLocal false false 0) (Some smallPdf) uploaded) in
  dispatched tr
  = [CLEAR_ERROR; SET_LOADING true; SET_PDF_FILE (Some smallPdf);
     SET_SESSION_ID (Some "s-2"); SET_LOADING false]
  /\ invoked tr = [Api.uploadPDF (Some smallPdf)]
  /\ isLoading (storeAfter initialState tr) = false
  /\ error (storeAfter initialState tr) = None.
Proof. repeat split. Qed.

(** A question on a ready store: the user message, then the assistant
    message with the extracted citation. *)
Example question_answered :
  let tr := Eff.trace (ChatInterface.handleSendMessage ready " What is this about? "
                         noon noon answered) in
  map (fun m => (msg_type m, content m, msg_citations m))
      (chatMessages (storeAfter ready tr))
  = [ (Constants.USER, "What is this about?", None);
      (Constants.ASSISTANT, "See (Page 5)", Some [Spec.pageCitation 5 "5"]) ]
  /\ invoked tr = [Api.sendMessage "What is this about?" (Some "s-1")].
Proof. repeat split. Qed.

(** A failed question leaves the user message in the transcript and adds an
    error message. *)
Example question_failed :
  let tr := Eff.trace (useChat.sendMessage ready "Why?" noon noon (inr notFound)) in
  map (fun m => (msg_type m, content m)) (chatMessages (storeAfter ready tr))
  = [ (Constants.USER, "Why?"); (Constants.ERROR, "Resource not found") ]
  /\ isLoading (storeAfter ready tr) = false.
Proof. repeat split. Qed.

End Runs.

(** * Further properties *)

(** ** Sequences of actions *)

Module ReducerFacts.
Import AppContext Spec2 Samples Samples2.

Lemma dispatchAll_cons (state : AppState) (a : Action) (rest : list Action) :
  dispatchAll state (a :: rest) = dispatchAll (appReducer state a) rest.
Proof. reflexivity. Qed.

(** X1: Without CLEAR_CHAT and RESET_STATE the transcript and the citation list
    only grow: after the sequence they are what they were, followed by the
    payloads of the ADD_CHAT_MESSAGE, respectively ADD_CITATION, actions in
    dispatch order. *)
Theorem transcript_append_only (state : AppState) (actions : list Action) :
  forallb (fun a => negb (clears a)) actions = true ->
  chatMessages (dispatchAll state actions)
  = (chatMessages state ++ addedMessages actions)%list
  /\ citations (dispatchAll state actions)
     = (citations state ++ addedCitations actions)%list.
Proof.
  revert state. induction actions as [|a rest IH]; intros state Hno.
  - cbn. rewrite !app_nil_r. split; reflexivity.
  - cbn [forallb] in Hno. apply andb_true_iff in Hno. destruct Hno as [Ha Hrest].
    rewrite dispatchAll_cons.
    destruct (IH (appReducer state a) Hrest) as [Hm Hc].
    rewrite Hm, Hc.
    destruct a; cbn in Ha |- *; try discriminate;
      rewrite <- ?app_assoc; split; reflexivity.
Qed.

Lemma transcript_append_only_witness :
  chatMessages (dispatchAll ready
                  [ADD_CHAT_MESSAGE hello; SET_LOADING true; ADD_CHAT_MESSAGE welcome])
  = [hello; welcome].
Proof.
  apply (transcript_append_only ready
           [ADD_CHAT_MESSAGE hello; SET_LOADING true; ADD_CHAT_MESSAGE welcome]).
  reflexivity.
Defined.

(** X2: Actions of an unknown type can be dropped from any sequence without
    changing the store it leads to. *)
Theorem unknown_actions_drop_out (state : AppState) (actions : list Action) :
  dispatchAll state actions = dispatchAll state (filter recognised actions).
Proof.
  revert state. induction actions as [|a rest IH]; intros state; [reflexivity |].
  destruct a; cbn [filter recognised]; rewrite ?dispatchAll_cons; apply IH.
Qed.

End ReducerFacts.

(** ** What a caller sees of a rejected call *)

Module RejectionFacts.
Import Api Samples Samples2.

(** X3: The message shown for a rejected call is never empty and does not
    depend on the default the caller passes to [handleApiError]; when the
    server answered, it does not depend on the request or on the error's own
    message either. *)
Theorem rejectionMessage_fixed_by_interceptor (error : AxiosError)
    (defaultMessage : string) :
  rejectionMessage error defaultMessage <> ""
  /\ (forall otherDefault,
        rejectionMessage error otherDefault = rejectionMessage error defaultMessage)
  /\ (forall r, response error = Some r ->
      forall req msg,
        rejectionMessage {| response := Some r; request := req; axios_message := msg |}
          defaultMessage
        = rejectionMessage error defaultMessage).
Proof.
  pose proof (ApiFacts.responseInterceptor_message error) as Htruthy.
  assert (Hmsg : forall d, Some (rejectionMessage error d)
                           = message (responseInterceptor error))
    by (intros d; apply ApiFacts.rejectionMessage_interceptor).
  split; [| split].
  - intros Hempty. rewrite <- (Hmsg defaultMessage), Hempty in Htruthy. discriminate.
  - intros otherDefault.
    pose proof (Hmsg otherDefault) as H1. rewrite <- (Hmsg defaultMessage) in H1.
    injection H1 as H1. exact H1.
  - intros r Hr req msg. unfold rejectionMessage, responseInterceptor.
    cbn [response]. rewrite Hr. reflexivity.
Qed.

Lemma rejectionMessage_fixed_by_interceptor_witness :
  rejectionMessage
    {| response := response notFound; request := false; axios_message := None |}
    Constants.ERROR_MESSAGES.CHAT_FAILED
  = rejectionMessage notFound Constants.ERROR_MESSAGES.CHAT_FAILED.
Proof.
  destruct (rejectionMessage_fixed_by_interceptor notFound
              Constants.ERROR_MESSAGES.CHAT_FAILED) as (_ & _ & H).
  apply (H _ eq_refl).
Defined.

End RejectionFacts.

(** ** How an upload ends *)

Module UploadOutcomeFacts.
Import AppContext Constants FileUpload Spec2 Samples Samples2.

Lemma settle_rejected_message (err : Api.AxiosError) (d : string) :
  exists msg, Api.handleApiError (Api.responseInterceptor err) d = msg /\ msg <> "".
Proof.
  exists (Api.rejectionMessage err d). split; [reflexivity |].
  intros Hempty.
  pose proof (ApiFacts.rejectionMessage_interceptor err d) as H.
  pose proof (ApiFacts.responseInterceptor_message err) as Ht.
  rewrite <- H, Hempty in Ht. discriminate.
Qed.

Lemma validateFile_message_nonempty (file : option File) (e : Api.JsError) :
  validateFile file = Js.Throw e ->
  exists msg, Api.message e = Some msg /\ msg <> "".
Proof.
  unfold validateFile.
  destruct file as [f|].
  - destruct (file_size f >? MAX_FILE_SIZE).
    + intros [= <-]. eexists. split; [reflexivity | discriminate].
    + destruct (negb _); [| discriminate].
      intros [= <-]. eexists. split; [reflexivity | discriminate].
  - intros [= <-]. eexists. split; [reflexivity | discriminate].
Qed.

(** X4: How [handleFileUpload] leaves the store, case by case.  When
    validation fails, the store keeps [pdfFile] and [sessionId] and takes the
    validation message as [error].  When the file is valid and the request
    is rejected, the store keeps [pdfFile] and [sessionId] and takes the
    rejection message as [error].  When the file is valid and the request
    resolves with the gateway's upload response, the store takes the file
    and the session id of the response, and [error] is cleared.  In each of
    the three cases [isLoading] ends false, [error] when set is a non-empty
    message, and the transcript, the citations, the document handle and the
    page numbers are as they were. *)
Theorem upload_outcome_by_case (state : AppState) (local : Local)
    (file : option File) (net : Api.UploadResponse + Api.AxiosError) :
  let state' := storeAfter state (Eff.trace (handleFileUpload state local file net)) in
  match validateFile file, net with
  | Js.Throw e, _ =>
      pdfFile state' = pdfFile state
      /\ sessionId state' = sessionId state
      /\ error state' = Api.message e /\ Js.truthy (error state') = true
      /\ isLoading state' = false
      /\ sameTranscriptAndDocument state state'
  | Js.Return _, inr err =>
      pdfFile state' = pdfFile state
      /\ sessionId state' = sessionId state
      /\ error state' = Some (Api.rejectionMessage err ERROR_MESSAGES.UPLOAD_FAILED)
      /\ Js.truthy (error state') = true
      /\ isLoading state' = false
      /\ sameTranscriptAndDocument state state'
  | Js.Return _, inl response =>
      pdfFile state' = file
      /\ sessionId state' = Api.session_id response
      /\ error state' = None
      /\ isLoading state' = false
      /\ sameTranscriptAndDocument state state'
  end.
Proof.
  cbv zeta. unfold sameTranscriptAndDocument.
  destruct (FileUploadFacts.validateFile_cases file) as [Hv|[e Hv]].
  - unfold handleFileUpload. rewrite Hv.
    destruct net as [response|err].
    + cbn. repeat split.
    + destruct (settle_rejected_message err ERROR_MESSAGES.UPLOAD_FAILED)
        as (msg & Hmsg & Hne).
      unfold Api.rejectionMessage. cbn. rewrite Hmsg. repeat split.
      cbn. destruct (String.eqb_spec msg ""); [contradiction | reflexivity].
  - rewrite (FileUploadFacts.handleFileUpload_invalid state local file net e Hv), Hv.
    destruct (validateFile_message_nonempty file e Hv) as (msg & Hmsg & Hne).
    cbn. rewrite Hmsg. repeat split.
    cbn. destruct (String.eqb_spec msg ""); [contradiction | reflexivity].
Qed.


End UploadOutcomeFacts.

(** ** Trimming *)

Module TrimFacts.
Import Spec2.

Lemma trimStart_first (s : string) :
  Js.trimStart s = "" \/ notSpace (firstChar (Js.trimStart s)) = true.
Proof.
  induction s as [|c s IH]; [left; reflexivity |].
  cbn. destruct (Js.isWhiteSpace c) eqn:Hc; [exact IH |].
  right. cbn. rewrite Hc. reflexivity.
Qed.

Lemma trimStart_fixed (s : string) :
  notSpace (firstChar s) = true -> Js.trimStart s = s.
Proof.
  destruct s as [|c s]; cbn; [discriminate |].
  intros H. apply negb_true_iff in H. rewrite H. reflexivity.
Qed.

Lemma trimEnd_first (s : string) :
  Js.trimEnd s <> "" -> firstChar (Js.trimEnd s) = firstChar s.
Proof.
  destruct s as [|c s]; [intros H; contradiction H; reflexivity |].
  cbn. destruct (Js.trimEnd s); [| reflexivity].
  destruct (Js.isWhiteSpace c); [intros H; contradiction H; reflexivity | reflexivity].
Qed.

Lemma trimEnd_last (s : string) :
  Js.trimEnd s = "" \/ notSpace (lastChar (Js.trimEnd s)) = true.
Proof.
  induction s as [|c s IH]; [left; reflexivity |].
  cbn. destruct (Js.trimEnd s) as [|d t] eqn:Ht.
  - destruct (Js.isWhiteSpace c) eqn:Hc; [left; reflexivity |].
    right. cbn. rewrite Hc. reflexivity.
  - right. destruct IH as [IH|IH]; [discriminate | exact IH].
Qed.

Lemma trimEnd_idempotent (s : string) : Js.trimEnd (Js.trimEnd s) = Js.trimEnd s.
Proof.
  induction s as [|c s IH]; [reflexivity |].
  cbn. destruct (Js.trimEnd s) as [|d t] eqn:Ht.
  - destruct (Js.isWhiteSpace c) eqn:Hc; [reflexivity |].
    cbn. rewrite Hc. reflexivity.
  - change (Js.trimEnd (String c (String d t)))
      with (match Js.trimEnd (String d t) with
            | EmptyString =>
                if Js.isWhiteSpace c then EmptyString else String c EmptyString
            | String a t0 => String c (String a t0)
            end).
    rewrite IH. reflexivity.
Qed.

(** A trimmed text is empty or starts and ends with a character that is
    not white space. *)
Lemma trim_ends (s : string) :
  Js.trim s = ""
  \/ (notSpace (firstChar (Js.trim s)) = true /\ notSpace (lastChar (Js.trim s)) = true).
Proof.
  unfold Js.trim.
  destruct (trimEnd_last (Js.trimStart s)) as [He|Hl]; [left; exact He |].
  right. split; [| exact Hl].
  rewrite trimEnd_first.
  - destruct (trimStart_first s) as [H0|H1]; [| exact H1].
    rewrite H0 in Hl. discriminate.
  - intros H0. rewrite H0 in Hl. discriminate.
Qed.

Lemma trim_idempotent (s : string) : Js.trim (Js.trim s) = Js.trim s.
Proof.
  destruct (trim_ends s) as [H0|[Hf _]]; [rewrite H0; reflexivity |].
  unfold Js.trim at 1. rewrite (trimStart_fixed _ Hf).
  unfold Js.trim. apply trimEnd_idempotent.
Qed.

End TrimFacts.

(** ** How a send ends *)

Module SendOutcomeFacts.
Import AppContext Constants Spec Spec2 Samples Samples2.

Lemma dispatched_app (a b : list Effect) :
  dispatched (a ++ b) = (dispatched a ++ dispatched b)%list.
Proof.
  induction a as [|e a IH]; [reflexivity |].
  destruct e; cbn; rewrite IH; reflexivity.
Qed.

Lemma invoked_app (a b : list Effect) :
  invoked (a ++ b) = (invoked a ++ invoked b)%list.
Proof.
  induction a as [|e a IH]; [reflexivity |].
  destruct e; cbn; rewrite IH; reflexivity.
Qed.

(** What an accepted send knows about the store and the text. *)
Lemma guardFails_false (state : AppState) (message : string) :
  guardFails state message = false ->
  Js.trim message <> "" /\ Js.truthy (sessionId state) = true
  /\ isLoading state = false.
Proof.
  unfold guardFails. intros H.
  apply orb_false_iff in H. destruct H as [H Hl].
  apply orb_false_iff in H. destruct H as [Ht Hs].
  apply negb_false_iff in Ht, Hs.
  repeat split; try assumption.
  intros He. rewrite He in Ht. discriminate.
Qed.

(** What an accepted [handleSendMessage] does. *)
Lemma handleSendMessage_outcome (state : AppState) (message : string)
    (t0 t1 : Clock) (net : Api.ChatResponse + Api.AxiosError) :
  guardFails state message = false ->
  let tr := Eff.trace (ChatInterface.handleSendMessage state message t0 t1 net) in
  let state' := storeAfter state tr in
  invoked tr = [Api.sendMessage (Js.trim message) (sessionId state)]
  /\ chatMessages state'
     = (chatMessages state
          ++ [ userMessageOf message t0;
               match net with
               | inl response =>
                   assistantMessageOf response t1
                     (backendCitations response
                        ++ ChatInterface.extractCitations (Api.chat_response response))
               | inr err =>
                   errorMessageOf
                     (Api.rejectionMessage err ERROR_MESSAGES.CHAT_FAILED) t1
               end ])%list
  /\ error state' = None
  /\ isLoading state' = isLoading state
  /\ sessionId state' = sessionId state
  /\ pdfFile state' = pdfFile state
  /\ pdfDocument state' = pdfDocument state
  /\ citations state' = citations state
  /\ currentPage state' = currentPage state
  /\ totalPages state' = totalPages state.
Proof.
  intros Hg. cbv zeta. unfold ChatInterface.handleSendMessage.
  change (negb (Js.truthy (Some (Js.trim message)))
          || negb (Js.truthy (sessionId state)) || isLoading state)
    with (guardFails state message).
  rewrite Hg.
  destruct net as [response|err]; cbn -[ChatInterface.extractCitations];
    rewrite <- ?app_assoc; repeat split.
Qed.

(** X6: An accepted message is answered in the transcript and never rolled
    back.  When the guard lets a text through, [handleSendMessage] calls the
    gateway exactly once, with the trimmed text and the session id, and
    leaves the transcript as it was followed by the user's message and one
    more message: the assistant's, citing what the backend returned followed
    by what [extractCitations] finds in the reply, when the request resolved,
    and an error message carrying the normalised rejection when it was
    rejected.  It clears [error] and changes nothing else in the store. *)
Theorem handleSendMessage_answers (state : AppState) (message : string)
    (t0 t1 : Clock) (net : Api.ChatResponse + Api.AxiosError) :
  guardFails state message = false ->
  let tr := Eff.trace (ChatInterface.handleSendMessage state message t0 t1 net) in
  let state' := storeAfter state tr in
  invoked tr = [Api.sendMessage (Js.trim message) (sessionId state)]
  /\ chatMessages state'
     = (chatMessages state
          ++ [ userMessageOf message t0;
               match net with
               | inl response =>
                   assistantMessageOf response t1
                     (backendCitations response
                        ++ ChatInterface.extractCitations (Api.chat_response response))
               | inr err =>
                   errorMessageOf
                     (Api.rejectionMessage err ERROR_MESSAGES.CHAT_FAILED) t1
               end ])%list
  /\ error state' = None
  /\ isLoading state' = isLoading state
  /\ sessionId state' = sessionId state
  /\ pdfFile state' = pdfFile state
  /\ pdfDocument state' = pdfDocument state
  /\ citations state' = citations state
  /\ currentPage state' = currentPage state
  /\ totalPages state' = totalPages state.
Proof. exact (handleSendMessage_outcome state message t0 t1 net). Qed.

Lemma handleSendMessage_answers_witness :
  invoked (Eff.trace (ChatInterface.handleSendMessage ready " Why? " noon noon
                        (inr timeout)))
  = [Api.sendMessage "Why?" (Some "s-1")].
Proof.
  apply (handleSendMessage_answers ready " Why? " noon noon (inr timeout)).
  reflexivity.
Defined.

(** The [forEach] of [sendMessage] that stores the citations. *)
Lemma store_citations_trace (cs : list Citation) (tr : list Effect) :
  fold_left (fun m citation => m ;; Eff.dispatch (ADD_CITATION citation)) cs
            (tr, Js.Return tt)
  = ((tr ++ map (fun c => Dispatch (ADD_CITATION c)) cs)%list, Js.Return tt).
Proof.
  revert tr. induction cs as [|c cs IH]; intros tr; cbn [fold_left map].
  - rewrite app_nil_r. reflexivity.
  - cbn [Eff.bind Eff.dispatch Eff.emit]. rewrite IH, <- app_assoc. reflexivity.
Qed.

Lemma dispatched_citations (cs : list Citation) :
  dispatched (map (fun c => Dispatch (ADD_CITATION c)) cs) = map ADD_CITATION cs.
Proof. induction cs as [|c cs IH]; cbn; [| rewrite IH]; reflexivity. Qed.

Lemma invoked_citations (cs : list Citation) :
  invoked (map (fun c => Dispatch (ADD_CITATION c)) cs) = [].
Proof. induction cs as [|c cs IH]; cbn; [| rewrite IH]; reflexivity. Qed.

Lemma addedMessages_citations (cs : list Citation) :
  addedMessages (map ADD_CITATION cs) = [] /\ addedCitations (map ADD_CITATION cs) = cs
  /\ forallb (fun a => negb (clears a)) (map ADD_CITATION cs) = true.
Proof.
  induction cs as [|c cs (IH1 & IH2 & IH3)]; cbn; [repeat split |].
  rewrite IH1, IH2, IH3. repeat split.
Qed.

(** ADD_CITATION only writes [citations]. *)
Lemma dispatch_citations_frame (state : AppState) (cs : list Citation) :
  let state' := dispatchAll state (map ADD_CITATION cs) in
  citations state' = (citations state ++ cs)%list
  /\ chatMessages state' = chatMessages state
  /\ isLoading state' = isLoading state /\ error state' = error state
  /\ sessionId state' = sessionId state /\ pdfFile state' = pdfFile state
  /\ pdfDocument state' = pdfDocument state
  /\ currentPage state' = currentPage state /\ totalPages state' = totalPages state.
Proof.
  cbv zeta. revert state. induction cs as [|c cs IH]; intros state.
  - cbn. rewrite app_nil_r. repeat split.
  - cbn [map]. rewrite ReducerFacts.dispatchAll_cons.
    destruct (IH (appReducer state (ADD_CITATION c)))
      as (H1 & H2 & H3 & H4 & H5 & H6 & H7 & H8 & H9).
    rewrite H1, H2, H3, H4, H5, H6, H7, H8, H9. cbn. rewrite <- app_assoc.
    repeat split.
Qed.

(** What an accepted [sendMessage] of the hook does. *)
Lemma sendMessage_outcome (state : AppState) (message : string)
    (t0 t1 : Clock) (net : Api.ChatResponse + Api.AxiosError) :
  guardFails state message = false ->
  let run := useChat.sendMessage state message t0 t1 net in
  let state' := storeAfter state (Eff.trace run) in
  invoked (Eff.trace run) = [Api.sendMessage (Js.trim message) (sessionId state)]
  /\ isLoading state' = false
  /\ error state' = None
  /\ sessionId state' = sessionId state
  /\ pdfFile state' = pdfFile state
  /\ currentPage state' = currentPage state
  /\ match net with
     | inl response =>
         chatMessages state'
         = (chatMessages state
              ++ [ userMessageOf message t0;
                   assistantMessageOf response t1 (backendCitations response) ])%list
         /\ citations state' = (citations state ++ backendCitations response)%list
         /\ snd run
            = Js.Return
                {| useChat.success := true;
                   useChat.result_error := None;
                   useChat.result_response :=
                     Some (assistantMessageOf response t1 (backendCitations response));
                   useChat.result_citations := Api.chat_citations response |}
     | inr err =>
         let shown := Api.rejectionMessage err ERROR_MESSAGES.CHAT_FAILED in
         chatMessages state'
         = (chatMessages state
              ++ [userMessageOf message t0; errorMessageOf shown t1])%list
         /\ citations state' = citations state
         /\ snd run
            = Js.Return
                {| useChat.success := false;
                   useChat.result_error := Some shown;
                   useChat.result_response := None;
                   useChat.result_citations := None |}
     end.
Proof.
  intros Hg. cbv zeta. unfold useChat.sendMessage.
  change (negb (Js.truthy (Some (Js.trim message)))
          || negb (Js.truthy (sessionId state)) || isLoading state)
    with (guardFails state message).
  rewrite Hg.
  destruct net as [response|err].
  - cbn -[fold_left].
    change (match Api.chat_citations response with Some cs => cs | None => [] end)
      with (backendCitations response).
    change (([] : list Effect), @Js.Return Api.JsError unit tt) with
      (@Eff.ret unit tt).
    unfold Eff.ret. rewrite store_citations_trace. cbn -[dispatchAll].
    rewrite !app_nil_r. unfold storeAfter. cbn [dispatched app].
    rewrite dispatched_citations.
    rewrite !ReducerFacts.dispatchAll_cons.
    match goal with
    | |- context [dispatchAll ?s (map ADD_CITATION _)] =>
        destruct (dispatch_citations_frame s (backendCitations response))
          as (H1 & H2 & H3 & H4 & H5 & H6 & H7 & H8 & H9)
    end.
    rewrite invoked_citations.
    rewrite H1, H2, H3, H4, H5, H6, H8. cbn. rewrite <- app_assoc.
    repeat split.
  - cbn. rewrite <- app_assoc. repeat split.
Qed.

(** X7: The hook's [sendMessage] always ends idle.  When the guard lets a text
    through, it calls the gateway exactly once with the trimmed text, leaves
    the transcript as it was followed by the user's message and the
    assistant's (with the backend's citations only) or an error message, ends
    with [isLoading] false and [error] cleared, appends the backend's
    citations to [citations] when the request resolved and nothing when it
    was rejected, and reports success exactly when the request resolved. *)
Theorem sendMessage_answers_and_ends_idle (state : AppState) (message : string)
    (t0 t1 : Clock) (net : Api.ChatResponse + Api.AxiosError) :
  guardFails state message = false ->
  let run := useChat.sendMessage state message t0 t1 net in
  let state' := storeAfter state (Eff.trace run) in
  invoked (Eff.trace run) = [Api.sendMessage (Js.trim message) (sessionId state)]
  /\ isLoading state' = false
  /\ error state' = None
  /\ sessionId state' = sessionId state
  /\ pdfFile state' = pdfFile state
  /\ currentPage state' = currentPage state
  /\ match net with
     | inl response =>
         chatMessages state'
         = (chatMessages state
              ++ [ userMessageOf message t0;
                   assistantMessageOf response t1 (backendCitations response) ])%list
         /\ citations state' = (citations state ++ backendCitations response)%list
         /\ snd run
            = Js.Return
                {| useChat.success := true;
                   useChat.result_error := None;
                   useChat.result_response :=
                     Some (assistantMessageOf response t1 (backendCitations response));
                   useChat.result_citations := Api.chat_citations response |}
     | inr err =>
         let shown := Api.rejectionMessage err ERROR_MESSAGES.CHAT_FAILED in
         chatMessages state'
         = (chatMessages state
              ++ [userMessageOf message t0; errorMessageOf shown t1])%list
         /\ citations state' = citations state
         /\ snd run
            = Js.Return
                {| useChat.success := false;
                   useChat.result_error := Some shown;
                   useChat.result_response := None;
                   useChat.result_citations := None |}
     end.
Proof. exact (sendMessage_outcome state message t0 t1 net). Qed.

Lemma sendMessage_answers_and_ends_idle_witness :
  isLoading (storeAfter ready
               (Eff.trace (useChat.sendMessage ready "Why?" noon noon (inr timeout))))
  = false.
Proof.
  apply (sendMessage_answers_and_ends_idle ready "Why?" noon noon (inr timeout)).
  reflexivity.
Defined.

(** X8: What is sent is trimmed.  The text an accepted send passes to the
    gateway, from either send function, is not empty and neither starts nor
    ends with white space, and it goes with the session id of the store,
    which is not empty. *)
Theorem sent_text_is_trimmed (state : AppState) (message : string)
    (t0 t1 : Clock) (net : Api.ChatResponse + Api.AxiosError) :
  guardFails state message = false ->
  forall text sid,
    In (Api.sendMessage text sid)
       (invoked (Eff.trace (ChatInterface.handleSendMessage state message t0 t1 net))
        ++ invoked (Eff.trace (useChat.sendMessage state message t0 t1 net)))%list ->
    text <> ""
    /\ notSpace (firstChar text) = true
    /\ notSpace (lastChar text) = true
    /\ sid = sessionId state
    /\ Js.truthy sid = true.
Proof.
  intros Hg text sid Hin.
  pose proof (handleSendMessage_outcome state message t0 t1 net Hg) as H1.
  pose proof (sendMessage_outcome state message t0 t1 net Hg) as H2.
  cbv zeta in H1, H2. rewrite (proj1 H1), (proj1 H2) in Hin.
  destruct (guardFails_false state message Hg) as (Htext & Htruthy & _).
  assert (Heq : text = Js.trim message /\ sid = sessionId state).
  { destruct Hin as [[= <- <-]|[[= <- <-]|[]]]; split; reflexivity. }
  destruct Heq as [-> ->].
  destruct (TrimFacts.trim_ends message) as [Hempty|[Hfirst Hlast]];
    [contradiction |].
  repeat split; assumption.
Qed.

Lemma sent_text_is_trimmed_witness :
  notSpace (lastChar "Why?") = true.
Proof.
  apply (sent_text_is_trimmed ready " Why? " noon noon answered eq_refl
           "Why?" (Some "s-1")).
  left. reflexivity.
Defined.

End SendOutcomeFacts.

(** ** A send while a send is in flight *)

Module InFlightFacts.
Import AppContext Constants Spec Spec2 Samples Samples2.

Lemma guard_passes (state : AppState) (message : string) :
  guardFails state message = false ->
  Js.truthy (Some (Js.trim message)) = true
  /\ Js.truthy (sessionId state) = true
  /\ isLoading state = false.
Proof.
  unfold guardFails. intros H.
  apply orb_false_iff in H. destruct H as [H Hl].
  apply orb_false_iff in H. destruct H as [Hm Hs].
  apply negb_false_iff in Hm. apply negb_false_iff in Hs.
  repeat split; assumption.
Qed.

(** What [handleSendMessage] has done when it waits for the gateway. *)
Lemma handleSendMessage_untilCall (state : AppState) (message : string)
    (t0 t1 : Clock) (net : Api.ChatResponse + Api.AxiosError) :
  guardFails state message = false ->
  untilCall (Eff.trace (ChatInterface.handleSendMessage state message t0 t1 net))
  = [ SetMessage "";
      Dispatch (ADD_CHAT_MESSAGE (userMessageOf message t0));
      Dispatch CLEAR_ERROR;
      SetIsTyping true;
      Await TYPING_INDICATOR_DELAY;
      Call (Api.sendMessage (Js.trim message) (sessionId state)) ].
Proof.
  intros Hg. unfold ChatInterface.handleSendMessage.
  fold (guardFails state message). rewrite Hg.
  destruct net as [response|err]; reflexivity.
Qed.

(** What [useChat.sendMessage] has done when it waits for the gateway. *)
Lemma sendMessage_untilCall (state : AppState) (message : string)
    (t0 t1 : Clock) (net : Api.ChatResponse + Api.AxiosError) :
  guardFails state message = false ->
  untilCall (Eff.trace (useChat.sendMessage state message t0 t1 net))
  = [ Dispatch (ADD_CHAT_MESSAGE (userMessageOf message t0));
      Dispatch CLEAR_ERROR;
      Dispatch (SET_LOADING true);
      Call (Api.sendMessage (Js.trim message) (sessionId state)) ].
Proof.
  intros Hg. unfold useChat.sendMessage.
  fold (guardFails state message). rewrite Hg.
  destruct net as [response|err]; [| reflexivity].
  cbn -[fold_left].
  change (([] : list Effect), @Js.Return Api.JsError unit tt) with
    (@Eff.ret unit tt).
  unfold Eff.ret. rewrite SendOutcomeFacts.store_citations_trace. reflexivity.
Qed.

(** C5: a send of [handleSendMessage] made while its own earlier request is
    in flight is not refused.  Start from a store that passes the guard and
    send [first]: when the handler waits for the gateway it has issued the
    request and [isLoading] is still false, since [handleSendMessage] only
    raises its local typing flag.  A send of a non-blank [second] from that
    store passes the guard: it appends its user message and calls the
    gateway again.  [useChat]'s [sendMessage] raises [isLoading] before its
    request, and from the store it leaves while waiting a second send does
    nothing and resolves to a failure. *)
Theorem second_send_while_in_flight (state : AppState) (first second : string)
    (t0 t1 t2 t3 : Clock) (net net2 : Api.ChatResponse + Api.AxiosError) :
  guardFails state first = false ->
  Js.trim second <> "" ->
  let waiting :=
    untilCall (Eff.trace (ChatInterface.handleSendMessage state first t0 t1 net)) in
  let inFlight := storeAfter state waiting in
  let again := Eff.trace (ChatInterface.handleSendMessage inFlight second t2 t3 net2) in
  let inFlight' :=
    storeAfter state
      (untilCall (Eff.trace (useChat.sendMessage state first t0 t1 net))) in
  invoked waiting = [Api.sendMessage (Js.trim first) (sessionId state)]
  /\ isLoading inFlight = false
  /\ guardFails inFlight second = false
  /\ invoked again = [Api.sendMessage (Js.trim second) (sessionId state)]
  /\ (exists rest,
        dispatched again = ADD_CHAT_MESSAGE (userMessageOf second t2) :: rest)
  /\ isLoading inFlight' = true
  /\ useChat.sendMessage inFlight' second t2 t3 net2 = ([], Js.Return refused).
Proof.
  intros Hg Hsecond. cbv zeta.
  destruct (guard_passes state first Hg) as (Hm & Hs & Hl).
  rewrite (handleSendMessage_untilCall state first t0 t1 net Hg).
  rewrite (sendMessage_untilCall state first t0 t1 net Hg).
  set (inFlight := storeAfter state _).
  assert (Hg2 : guardFails inFlight second = false).
  { unfold guardFails, inFlight. cbn. rewrite Hs, Hl.
    destruct (String.eqb_spec (Js.trim second) ""); [contradiction | reflexivity]. }
  split; [reflexivity |].
  split; [exact Hl |].
  split; [exact Hg2 |].
  split; [| split; [| split]].
  - unfold ChatInterface.handleSendMessage.
    fold (guardFails inFlight second). rewrite Hg2.
    destruct net2 as [response|err]; reflexivity.
  - unfold ChatInterface.handleSendMessage.
    fold (guardFails inFlight second). rewrite Hg2.
    destruct net2 as [response|err]; eexists; reflexivity.
  - reflexivity.
  - apply ChatFacts.sendMessage_guard, ChatFacts.guardFails_loading. reflexivity.
Qed.

Lemma second_send_while_in_flight_witness :
  invoked
    (Eff.trace
       (ChatInterface.handleSendMessage
          (storeAfter ready
             (untilCall
                (Eff.trace
                   (ChatInterface.handleSendMessage ready "First question"
                      noon noon answered))))
          "Second question" noon noon answered))
  = [Api.sendMessage "Second question" (Some "s-1")].
Proof.
  destruct (second_send_while_in_flight ready "First question" "Second question"
              noon noon noon noon answered answered)
    as (_ & _ & _ & Hcall & _).
  - reflexivity.
  - discriminate.
  - exact Hcall.
Defined.

End InFlightFacts.

(** ** Statistics, last answer, regeneration *)

Module ChatHookFacts.
Import AppContext Constants Spec Spec2 Samples Samples2 ChatHook.

Lemma lastOf_snoc {A} (l : list A) (x : A) : lastOf (l ++ [x]) = Some x.
Proof.
  unfold lastOf. rewrite length_app. cbn [List.length].
  replace (List.length l + 1 - 1)%nat with (List.length l) by lia.
  rewrite nth_error_app2 by lia. rewrite Nat.sub_diag. reflexivity.
Qed.

Lemma tokens_app (l1 l2 : list ChatMessage) (acc : Z) :
  fold_left (fun sum msg =>
               sum + match tokenUsage msg with
                     | Some usage => total usage
                     | None => 0
                     end) (l1 ++ l2) acc
  = fold_left (fun sum msg =>
                 sum + match tokenUsage msg with
                       | Some usage => total usage
                       | None => 0
                       end) l2
      (fold_left (fun sum msg =>
                    sum + match tokenUsage msg with
                          | Some usage => total usage
                          | None => 0
                          end) l1 acc).
Proof. apply fold_left_app. Qed.

(** X9: The counts of [getChatStats] partition the transcript: every message is
    a user, an assistant, an error or a system message, so the three counts
    it reports add up to the total less the system messages; and
    [hasHistory] holds exactly when the transcript is not empty. *)
Theorem stats_partition (state : AppState) :
  let stats := getChatStats state in
  totalMessages stats
  = userMessages stats + aiMessages stats + errorMessages stats
    + Z.of_nat (List.length (filter (isType SYSTEM) (chatMessages state)))
  /\ userMessages stats + aiMessages stats + errorMessages stats <= totalMessages stats
  /\ (hasHistory stats = true <-> chatMessages state <> []).
Proof.
  cbv zeta. unfold getChatStats. cbn [totalMessages userMessages aiMessages
                                       errorMessages hasHistory].
  assert (Hsum : forall l : list ChatMessage,
             Z.of_nat (List.length l)
             = Z.of_nat (List.length (filter (isType USER) l))
               + Z.of_nat (List.length (filter (isType ASSISTANT) l))
               + Z.of_nat (List.length (filter (isType ERROR) l))
               + Z.of_nat (List.length (filter (isType SYSTEM) l))).
  { induction l as [|m l IH]; [reflexivity |].
    destruct m as [i ty c ci ts tu]. destruct ty; cbn [filter isType msg_type];
      cbn [List.length]; lia. }
  split; [apply Hsum | split].
  - rewrite (Hsum (chatMessages state)). lia.
  - destruct (chatMessages state) as [|m l]; cbn [List.length].
    + split; [discriminate | intros H; contradiction H; reflexivity].
    + split; [discriminate | intros _; apply Z.ltb_lt; lia].
Qed.

Lemma stats_partition_witness : hasHistory (getChatStats talking) = true.
Proof.
  destruct (stats_partition talking) as (_ & _ & H).
  apply H. discriminate.
Defined.

(** X10: A completed exchange shows in the statistics.  After an accepted
    [sendMessage] the total is two higher and the user count one higher;
    when the request resolved the assistant count is one higher and the
    token total grows by the reported total of the answer (by nothing when
    none is reported); when it was rejected the error count is one higher
    and the token total is unchanged. *)
Theorem stats_after_send (state : AppState) (message : string)
    (t0 t1 : Clock) (net : Api.ChatResponse + Api.AxiosError) :
  guardFails state message = false ->
  let before := getChatStats state in
  let after :=
    getChatStats
      (storeAfter state (Eff.trace (useChat.sendMessage state message t0 t1 net))) in
  totalMessages after = totalMessages before + 2
  /\ userMessages after = userMessages before + 1
  /\ match net with
     | inl response =>
         aiMessages after = aiMessages before + 1
         /\ errorMessages after = errorMessages before
         /\ totalTokens after
            = totalTokens before
              + match Api.token_usage response with
                | Some usage => total usage
                | None => 0
                end
     | inr _ =>
         aiMessages after = aiMessages before
         /\ errorMessages after = errorMessages before + 1
         /\ totalTokens after = totalTokens before
     end.
Proof.
  intros Hg. cbv zeta.
  pose proof (SendOutcomeFacts.sendMessage_outcome state message t0 t1 net Hg) as H.
  cbv zeta in H. destruct H as (_ & _ & _ & _ & _ & _ & H).
  unfold getChatStats.
  cbn [totalMessages userMessages aiMessages errorMessages totalTokens].
  destruct net as [response|err]; destruct H as (Hm & _ & _); rewrite Hm;
    rewrite !filter_app, ?tokens_app, !length_app; cbn; repeat split; lia.
Qed.

Lemma stats_after_send_witness :
  totalMessages
    (getChatStats
       (storeAfter talking
          (Eff.trace (useChat.sendMessage talking "Why?" noon noon answered))))
  = totalMessages (getChatStats talking) + 2.
Proof.
  apply (stats_after_send talking "Why?" noon noon answered). reflexivity.
Defined.

(** X11: [getLastResponse] follows the exchange: after an accepted
    [sendMessage] that resolved it is the assistant message the call
    returned; after one that was rejected it is what it was before; and on
    a transcript without an assistant message it is null. *)
Theorem last_response_after_send (state : AppState) (message : string)
    (t0 t1 : Clock) (net : Api.ChatResponse + Api.AxiosError) :
  guardFails state message = false ->
  let run := useChat.sendMessage state message t0 t1 net in
  let state' := storeAfter state (Eff.trace run) in
  match net, snd run with
  | inl _, Js.Return result =>
      getLastResponse state' = useChat.result_response result
      /\ getLastResponse state' <> None
  | inr _, Js.Return result =>
      getLastResponse state' = getLastResponse state
      /\ useChat.result_response result = None
  | _, Js.Throw _ => False
  end.
Proof.
  intros Hg. cbv zeta.
  pose proof (SendOutcomeFacts.sendMessage_outcome state message t0 t1 net Hg) as H.
  cbv zeta in H. destruct H as (_ & _ & _ & _ & _ & _ & H).
  unfold getLastResponse.
  destruct net as [response|err]; destruct H as (Hm & _ & ->); rewrite Hm;
    rewrite filter_app; cbn.
  - rewrite lastOf_snoc. split; [reflexivity | discriminate].
  - rewrite app_nil_r. split; reflexivity.
Qed.

Lemma last_response_after_send_witness :
  getLastResponse
    (storeAfter talking
       (Eff.trace (useChat.sendMessage talking "Why?" noon noon (inr timeout))))
  = Some welcome.
Proof.
  pose proof (last_response_after_send talking "Why?" noon noon (inr timeout) eq_refl)
    as H.
  cbv zeta in H. cbn in H. destruct H as [H _]. exact H.
Defined.

Lemma guardFails_cases (state : AppState) (message : string) :
  guardFails state message = true \/ guardFails state message = false.
Proof. destruct (guardFails state message); [left | right]; reflexivity. Qed.

(** X12: Regeneration never removes anything.  [regenerateResponse] leaves the
    transcript as it was, followed by nothing or by exactly two new
    messages; the previous answer stays in place.  Without a user message in
    the transcript it does nothing and reports a failure. *)
Theorem regenerate_never_removes (state : AppState) (t0 t1 : Clock)
    (net : Api.ChatResponse + Api.AxiosError) :
  let run := regenerateResponse state t0 t1 net in
  (exists added,
      chatMessages (storeAfter state (Eff.trace run))
      = (chatMessages state ++ added)%list
      /\ (added = [] \/ List.length added = 2%nat))
  /\ (filter (isType USER) (chatMessages state) = [] ->
      Eff.trace run = []
      /\ exists result, snd run = Js.Return result /\ useChat.success result = false).
Proof.
  cbv zeta. unfold regenerateResponse. split.
  - destruct (lastOf (filter (isType USER) (chatMessages state))) as [u|].
    + destruct (guardFails_cases state (content u)) as [Hg|Hg].
      * rewrite (ChatFacts.sendMessage_guard state (content u) t0 t1 net Hg).
        exists []. rewrite app_nil_r. split; [reflexivity | left; reflexivity].
      * pose proof (SendOutcomeFacts.sendMessage_outcome state (content u) t0 t1 net Hg)
          as H.
        cbv zeta in H. destruct H as (_ & _ & _ & _ & _ & _ & H).
        destruct net as [response|err]; destruct H as (Hm & _ & _);
          eexists; (split; [exact Hm | right; reflexivity]).
    + exists []. rewrite app_nil_r. split; [reflexivity | left; reflexivity].
  - intros ->. cbn. split; [reflexivity |]. eexists. split; reflexivity.
Qed.

Lemma regenerate_never_removes_witness :
  Eff.trace (regenerateResponse ready noon noon answered) = [].
Proof.
  destruct (regenerate_never_removes ready noon noon answered) as [_ H].
  apply H. reflexivity.
Defined.

(** X13: Regenerating after an exchange repeats the question.  After an accepted
    [sendMessage] has completed, [regenerateResponse] is accepted too, sends
    the gateway the very text the first call sent (trimming it again changes
    nothing), and appends a second copy of the user's message and a new
    answer or error message after the first exchange. *)
Theorem regenerate_resends (state : AppState) (message : string)
    (t0 t1 t2 t3 : Clock) (net net2 : Api.ChatResponse + Api.AxiosError) :
  guardFails state message = false ->
  let first := useChat.sendMessage state message t0 t1 net in
  let state1 := storeAfter state (Eff.trace first) in
  let again := regenerateResponse state1 t2 t3 net2 in
  invoked (Eff.trace again) = invoked (Eff.trace first)
  /\ exists reply reply2,
       chatMessages (storeAfter state1 (Eff.trace again))
       = (chatMessages state
            ++ [userMessageOf message t0; reply; userMessageOf message t2; reply2])%list
       /\ msg_type reply <> USER /\ msg_type reply2 <> USER.
Proof.
  intros Hg. cbv zeta.
  pose proof (SendOutcomeFacts.sendMessage_outcome state message t0 t1 net Hg) as H1.
  cbv zeta in H1. destruct H1 as (Hcall & Hidle & _ & Hsid & _ & _ & H1).
  destruct (SendOutcomeFacts.guardFails_false state message Hg) as (Htext & Htruthy & _).
  set (state1 := storeAfter state
                   (Eff.trace (useChat.sendMessage state message t0 t1 net))) in *.
  assert (Hm1 : exists reply,
             chatMessages state1
             = (chatMessages state ++ [userMessageOf message t0; reply])%list
             /\ msg_type reply <> USER).
  { destruct net as [response|err]; destruct H1 as (Hm & _ & _);
      eexists; (split; [exact Hm | discriminate]). }
  destruct Hm1 as (reply & Hm1 & Hreply).
  assert (Hlast : lastOf (filter (isType USER) (chatMessages state1))
                  = Some (userMessageOf message t0)).
  { rewrite Hm1, filter_app. cbn [filter].
    replace (isType USER (userMessageOf message t0)) with true by reflexivity.
    replace (isType USER reply) with false
      by (unfold isType; destruct (msg_type reply); congruence).
    apply lastOf_snoc. }
  assert (Hg1 : guardFails state1 (Js.trim message) = false).
  { unfold guardFails. rewrite TrimFacts.trim_idempotent, Hsid, Htruthy, Hidle.
    cbn. destruct (String.eqb_spec (Js.trim message) ""); [contradiction | reflexivity]. }
  unfold regenerateResponse. rewrite Hlast. cbn [content userMessageOf].
  pose proof (SendOutcomeFacts.sendMessage_outcome state1 (Js.trim message) t2 t3 net2 Hg1)
    as H2.
  cbv zeta in H2. destruct H2 as (Hcall2 & _ & _ & _ & _ & _ & H2).
  split.
  - rewrite Hcall2, Hcall, TrimFacts.trim_idempotent, Hsid. reflexivity.
  - assert (Hu : userMessageOf (Js.trim message) t2 = userMessageOf message t2)
      by (unfold userMessageOf; rewrite TrimFacts.trim_idempotent; reflexivity).
    destruct net2 as [response2|err2]; destruct H2 as (Hm2 & _ & _);
      rewrite Hm2, Hm1, Hu, <- app_assoc; cbn [app];
      exists reply; eexists; (split; [reflexivity | split; [exact Hreply | discriminate]]).
Qed.

Lemma regenerate_resends_witness :
  invoked (Eff.trace (regenerateResponse
                        (storeAfter ready
                           (Eff.trace (useChat.sendMessage ready " Why? " noon noon
                                         answered)))
                        noon noon (inr timeout)))
  = invoked (Eff.trace (useChat.sendMessage ready " Why? " noon noon answered)).
Proof.
  apply (regenerate_resends ready " Why? " noon noon noon noon answered (inr timeout)).
  reflexivity.
Defined.

End ChatHookFacts.

(** ** Page navigation *)

Module NavigationFacts.
Import AppContext Spec2 Samples Samples2 usePDF.

Lemma isValidPage_iff (state : AppState) :
  isValidPage state = true <-> 1 <= currentPage state <= totalPages state.
Proof.
  unfold isValidPage. rewrite andb_true_iff, Z.geb_le, Z.leb_le. tauto.
Qed.

(** One navigation call: the store it leaves has the same [totalPages] and
    every other field but [currentPage] as before. *)
Lemma navigate_frame (state : AppState) (cmd : Nav) :
  let state' := storeAfter state (Eff.trace (navigate state cmd)) in
  totalPages state' = totalPages state
  /\ (currentPage state' = currentPage state -> state' = state).
Proof.
  cbv zeta.
  assert (Hset : forall p,
             totalPages (storeAfter state [Dispatch (SET_CURRENT_PAGE p)])
             = totalPages state
             /\ (currentPage (storeAfter state [Dispatch (SET_CURRENT_PAGE p)])
                 = currentPage state ->
                 storeAfter state [Dispatch (SET_CURRENT_PAGE p)] = state)).
  { intros p. destruct state. cbn. split; [reflexivity | intros ->; reflexivity]. }
  destruct cmd; cbn [navigate];
    unfold goToPage, nextPage, prevPage, firstPage, lastPage;
    match goal with
    | |- context [if ?b then _ else _] => destruct b
    end; cbn [Eff.trace Eff.bind Eff.dispatch Eff.emit Eff.ret fst app];
    first [apply Hset | split; reflexivity].
Qed.

Lemma navigate_valid (state : AppState) (cmd : Nav) :
  isValidPage state = true ->
  isValidPage (storeAfter state (Eff.trace (navigate state cmd))) = true.
Proof.
  intros Hv. apply isValidPage_iff in Hv. apply isValidPage_iff.
  destruct cmd; cbn [navigate];
    unfold goToPage, nextPage, prevPage, firstPage, lastPage.
  - destruct (_ && _) eqn:E; cbn; [| exact Hv].
    apply andb_true_iff in E. rewrite Z.geb_le, Z.leb_le in E. exact E.
  - destruct (Z.ltb_spec (currentPage state) (totalPages state)); cbn; lia.
  - destruct (currentPage state >? 1) eqn:E; cbn; [| exact Hv].
    apply Z.gtb_lt in E. lia.
  - destruct (totalPages state >? 0) eqn:E; cbn; [| exact Hv].
    apply Z.gtb_lt in E. lia.
  - destruct (totalPages state >? 0) eqn:E; cbn; [| exact Hv].
    apply Z.gtb_lt in E. lia.
Qed.

(** X14: The navigation functions keep the page in range.  From a store whose
    current page lies between 1 and [totalPages], any sequence of calls of
    [goToPage], [nextPage], [prevPage], [firstPage] and [lastPage] leads to a
    store whose current page lies in that range, with the same
    [totalPages]. *)
Theorem navigation_keeps_page_valid (state : AppState) (cmds : list Nav) :
  isValidPage state = true ->
  isValidPage (navigateAll state cmds) = true
  /\ totalPages (navigateAll state cmds) = totalPages state.
Proof.
  revert state. induction cmds as [|cmd cmds IH]; intros state Hv.
  - split; [exact Hv | reflexivity].
  - cbn [navigateAll fold_left]. fold (navigateAll
      (storeAfter state (Eff.trace (navigate state cmd))) cmds).
    destruct (IH _ (navigate_valid state cmd Hv)) as [H1 H2].
    split; [exact H1 |].
    rewrite H2. exact (proj1 (navigate_frame state cmd)).
Qed.

Lemma navigation_keeps_page_valid_witness :
  isValidPage (navigateAll talking [Next; Next; GoTo 7; Prev; First; Prev; Last]) = true.
Proof.
  apply (navigation_keeps_page_valid talking). reflexivity.
Defined.

(** X15: Next and previous undo each other.  When [nextPage] navigates from a
    page that is at least 1, [prevPage] on the store it leaves navigates
    too and restores the store; when [prevPage] navigates from a page that
    is at most [totalPages], [nextPage] restores the store. *)
Theorem next_prev_round_trip (state : AppState) :
  (1 <= currentPage state -> snd (nextPage state) = Js.Return true ->
   let state' := storeAfter state (Eff.trace (nextPage state)) in
   snd (prevPage state') = Js.Return true
   /\ storeAfter state' (Eff.trace (prevPage state')) = state)
  /\ (currentPage state <= totalPages state ->
      snd (prevPage state) = Js.Return true ->
      let state' := storeAfter state (Eff.trace (prevPage state)) in
      snd (nextPage state') = Js.Return true
      /\ storeAfter state' (Eff.trace (nextPage state')) = state).
Proof.
  destruct state as [pf pd cur tot msgs ld sid er cs].
  unfold nextPage, prevPage. cbn [currentPage totalPages].
  split.
  - intros Hlow. destruct (Z.ltb_spec cur tot) as [Hlt|]; cbn; [| discriminate].
    intros _.
    replace (cur + 1 >? 1) with true by (symmetry; apply Z.gtb_lt; lia).
    cbn. split; [reflexivity |]. f_equal. lia.
  - intros Hhigh. destruct (cur >? 1) eqn:Hgt; cbn; [| discriminate].
    intros _. apply Z.gtb_lt in Hgt.
    replace (cur - 1 <? tot) with true by (symmetry; apply Z.ltb_lt; lia).
    cbn. split; [reflexivity |]. f_equal. lia.
Qed.

Lemma next_prev_round_trip_witness :
  storeAfter (storeAfter talking (Eff.trace (nextPage talking)))
    (Eff.trace (prevPage (storeAfter talking (Eff.trace (nextPage talking)))))
  = talking.
Proof.
  destruct (next_prev_round_trip talking) as [H _].
  apply H; [cbn; lia | reflexivity].
Defined.

(** X16: A document without pages cannot be navigated.  When [totalPages] is 0
    and the current page is the initial 1, every sequence of navigation
    calls leaves the store as it is. *)
Theorem no_pages_no_navigation (state : AppState) (cmds : list Nav) :
  totalPages state = 0 -> currentPage state = 1 ->
  navigateAll state cmds = state.
Proof.
  intros Htot Hcur. induction cmds as [|cmd cmds IH]; [reflexivity |].
  cbn [navigateAll fold_left].
  replace (storeAfter state (Eff.trace (navigate state cmd))) with state; [exact IH |].
  destruct cmd; cbn [navigate];
    unfold goToPage, nextPage, prevPage, firstPage, lastPage;
    rewrite ?Htot, ?Hcur; try reflexivity.
  destruct (Z.geb_spec pageNumber 1), (Z.leb_spec pageNumber 0);
    cbn; try reflexivity; lia.
Qed.

Lemma no_pages_no_navigation_witness :
  navigateAll initialState [Next; Last; GoTo 1; First; Prev] = initialState.
Proof.
  apply (no_pages_no_navigation initialState); reflexivity.
Defined.

End NavigationFacts.

(** ** [localStorage] *)

Module StorageFacts.
Import LocalStorage.

Lemma getItem_removeItem (key : string) (st : Storage) :
  getItem key (removeItem key st) = None.
Proof.
  unfold getItem, removeItem.
  induction st as [|[k v] st IH]; [reflexivity |].
  cbn [filter fst]. destruct (String.eqb_spec k key) as [->|Hne]; cbn [negb].
  - exact IH.
  - cbn [find fst]. destruct (String.eqb_spec k key); [contradiction | exact IH].
Qed.

Lemma getItem_removeItem_other (key other : string) (st : Storage) :
  other <> key -> getItem other (removeItem key st) = getItem other st.
Proof.
  intros Hne. unfold getItem, removeItem.
  induction st as [|[k v] st IH]; [reflexivity |].
  cbn [filter fst find]. destruct (String.eqb_spec k key) as [->|Hk]; cbn [negb].
  - destruct (String.eqb_spec key other); [congruence | exact IH].
  - cbn [find fst]. destruct (String.eqb_spec k other); [reflexivity | exact IH].
Qed.

Lemma getItem_setItem (key value : string) (st : Storage) :
  getItem key (setItem key value st) = Some value.
Proof. unfold getItem, setItem. cbn. rewrite String.eqb_refl. reflexivity. Qed.

Lemma getItem_setItem_other (key other value : string) (st : Storage) :
  other <> key -> getItem other (setItem key value st) = getItem other st.
Proof.
  intros Hne. unfold setItem.
  transitivity (getItem other (removeItem key st));
    [| apply getItem_removeItem_other; exact Hne].
  unfold getItem. cbn [find fst].
  destruct (String.eqb_spec key other); [congruence | reflexivity].
Qed.

End StorageFacts.

(** ** The session across reloads *)

Module SessionFacts.
Import AppContext Constants Spec2 Samples Samples2 usePDF.

(** X17: The upload of the hook, case by case; it has no size limit.
    [uploadPDF] calls the gateway exactly when a file is given whose MIME
    type is [application/pdf], whatever its size, and then once.  Without
    such a file it sets [error] to a non-empty message, returns it, and
    leaves [pdfFile], [sessionId] and the storage as they were.  When the
    request is rejected it does the same with the rejection message.  When
    the request resolves with the gateway's upload response it commits the
    file and the session id, clears [error], ends with [isLoading] false,
    reports success, and a session id that is a string is what the storage
    then holds under [SESSION_ID]. *)
Theorem hook_upload_by_case (state : AppState) (file : option File)
    (net : Api.UploadResponse + Api.AxiosError) (st : LocalStorage.Storage) :
  let run := uploadPDF file net st in
  let state' := storeAfterEvents state (Ext.trace run) in
  match isPdf file, net with
  | false, _ =>
      invoked (coreEffects (Ext.trace run)) = []
      /\ pdfFile state' = pdfFile state
      /\ sessionId state' = sessionId state
      /\ Ext.storage run = st
      /\ exists msg,
           msg <> "" /\ error state' = Some msg
           /\ Ext.outcome run
              = Js.Return {| upload_success := false; upload_sessionId := None;
                             upload_message := None; upload_error := Some msg |}
  | true, inr err =>
      invoked (coreEffects (Ext.trace run)) = [Api.uploadPDF file]
      /\ pdfFile state' = pdfFile state
      /\ sessionId state' = sessionId state
      /\ Ext.storage run = st
      /\ exists msg,
           msg = Api.rejectionMessage err ERROR_MESSAGES.UPLOAD_FAILED
           /\ msg <> "" /\ error state' = Some msg
           /\ Ext.outcome run
              = Js.Return {| upload_success := false; upload_sessionId := None;
                             upload_message := None; upload_error := Some msg |}
  | true, inl response =>
      invoked (coreEffects (Ext.trace run)) = [Api.uploadPDF file]
      /\ pdfFile state' = file
      /\ sessionId state' = Api.session_id response
      /\ error state' = None
      /\ isLoading state' = false
      /\ (forall sid, Api.session_id response = Some sid ->
            LocalStorage.getItem STORAGE_KEYS.SESSION_ID (Ext.storage run) = Some sid)
      /\ Ext.outcome run
         = Js.Return {| upload_success := true;
                        upload_sessionId := Api.session_id response;
                        upload_message := Api.upload_message response;
                        upload_error := None |}
  end.
Proof.
  cbv zeta. unfold uploadPDF, isPdf.
  destruct file as [f|].
  - destruct (file_type f =? "application/pdf")%string eqn:Hpdf; cbn [negb].
    + destruct net as [response|err].
      * cbn. repeat split. intros sid ->. cbn. reflexivity.
      * destruct (UploadOutcomeFacts.settle_rejected_message err
                    ERROR_MESSAGES.UPLOAD_FAILED) as (msg & Hmsg & Hne).
        cbn. repeat split.
        exists msg. unfold Api.rejectionMessage. rewrite Hmsg.
        repeat split; assumption.
    + cbn. repeat split. eexists. repeat split. discriminate.
  - cbn. repeat split. eexists. repeat split. discriminate.
Qed.

Lemma hook_upload_by_case_witness :
  LocalStorage.getItem STORAGE_KEYS.SESSION_ID
    (Ext.storage (uploadPDF (Some smallPdf) uploaded [])) = Some "s-2".
Proof.
  destruct (hook_upload_by_case ready (Some smallPdf) uploaded [])
    as (_ & _ & _ & _ & _ & Hsaved & _).
  apply Hsaved. reflexivity.
Defined.

(** What a resolved upload of the hook leaves in the storage. *)
Lemma hook_upload_stores (file : option File) (response : Api.UploadResponse)
    (st : LocalStorage.Storage) :
  isPdf file = true ->
  LocalStorage.getItem STORAGE_KEYS.SESSION_ID
    (Ext.storage (uploadPDF file (inl response) st))
  = Some (LocalStorage.toString (Api.session_id response)).
Proof.
  unfold isPdf, uploadPDF. destruct file as [f|]; [| discriminate].
  intros ->. reflexivity.
Qed.

(** [restoreSession] reads nothing but the saved session id. *)
Lemma restoreSession_unfold (net : SessionInfo + Api.AxiosError)
    (st : LocalStorage.Storage) :
  restoreSession net st
  = match LocalStorage.getItem STORAGE_KEYS.SESSION_ID st with
    | Some saved =>
        if Js.truthy (Some saved) then
          match net with
          | inl info =>
              if valid info then
                ([Fetch (getSessionInfo saved);
                  Core (Dispatch (SET_SESSION_ID (Some saved)))], st,
                 Js.Return {| restore_success := true;
                              restore_sessionId := Some saved;
                              restore_error := None |})
              else
                ([Fetch (getSessionInfo saved)],
                 LocalStorage.removeItem STORAGE_KEYS.CHAT_HISTORY
                   (LocalStorage.removeItem STORAGE_KEYS.SESSION_ID st),
                 Js.Return {| restore_success := false;
                              restore_sessionId := None;
                              restore_error := Some "No valid session found" |})
          | inr _ =>
              ([Fetch (getSessionInfo saved)], st,
               Js.Return {| restore_success := false;
                            restore_sessionId := None;
                            restore_error := Some "Failed to restore session" |})
          end
        else
          ([], st, Js.Return {| restore_success := false;
                                restore_sessionId := None;
                                restore_error := Some "No valid session found" |})
    | None =>
        ([], st, Js.Return {| restore_success := false;
                              restore_sessionId := None;
                              restore_error := Some "No valid session found" |})
    end.
Proof.
  unfold restoreSession, Ext.try_catch, Ext.bind, Ext.getItem.
  destruct (LocalStorage.getItem STORAGE_KEYS.SESSION_ID st) as [saved|];
    [| reflexivity].
  destruct (Js.truthy (Some saved)); [| reflexivity].
  destruct net as [info|err]; cbn; [| reflexivity].
  destruct (valid info); reflexivity.
Qed.

(** X18: Restoring touches the session id only.  [restoreSession] contacts the
    backend at most once, and only about the saved id; it dispatches at most
    SET_SESSION_ID with the saved id, and does so exactly when it reports
    success, so after it [sessionId] is the saved id or what it was and every
    other field of the store is what it was. *)
Theorem restore_touches_session_only (state : AppState)
    (net : SessionInfo + Api.AxiosError) (st : LocalStorage.Storage) :
  let run := restoreSession net st in
  let state' := storeAfterEvents state (Ext.trace run) in
  (fetched (Ext.trace run) = []
   \/ exists saved,
        LocalStorage.getItem STORAGE_KEYS.SESSION_ID st = Some saved
        /\ fetched (Ext.trace run) = [getSessionInfo saved])
  /\ exists result,
       Ext.outcome run = Js.Return result
       /\ (if restore_success result
           then sessionId state' = LocalStorage.getItem STORAGE_KEYS.SESSION_ID st
                /\ restore_sessionId result = sessionId state'
                /\ Js.truthy (sessionId state') = true
           else sessionId state' = sessionId state)
       /\ state' = appReducer state (SET_SESSION_ID (sessionId state')).
Proof.
  cbv zeta. rewrite restoreSession_unfold.
  assert (Hid : state = appReducer state (SET_SESSION_ID (sessionId state)))
    by (destruct state; reflexivity).
  destruct (LocalStorage.getItem STORAGE_KEYS.SESSION_ID st) as [saved|].
  - destruct (Js.truthy (Some saved)) eqn:Ht.
    + destruct net as [info|err].
      * destruct (valid info); cbn.
        -- split; [right; exists saved; split; reflexivity |].
           eexists. split; [reflexivity |]. cbn. repeat split. exact Ht.
        -- split; [right; exists saved; split; reflexivity |].
           eexists. split; [reflexivity |]. cbn. split; [reflexivity | exact Hid].
      * cbn. split; [right; exists saved; split; reflexivity |].
        eexists. split; [reflexivity |]. cbn. split; [reflexivity | exact Hid].
    + cbn. split; [left; reflexivity |].
      eexists. split; [reflexivity |]. cbn. split; [reflexivity | exact Hid].
  - cbn. split; [left; reflexivity |].
    eexists. split; [reflexivity |]. cbn. split; [reflexivity | exact Hid].
Qed.

(** X19: An invalid session is forgotten, an unreachable backend forgets
    nothing.  When the backend reports the saved session invalid,
    [restoreSession] removes the saved id and the saved chat history, so the
    next [restoreSession] does nothing and does not contact the backend; when
    the check itself is rejected, the storage stays as it was. *)
Theorem invalid_session_is_forgotten (st : LocalStorage.Storage)
    (net2 : SessionInfo + Api.AxiosError) (err : Api.AxiosError) :
  let run := restoreSession (inl {| valid := false |}) st in
  Js.truthy (LocalStorage.getItem STORAGE_KEYS.SESSION_ID (Ext.storage run)) = false
  /\ Ext.trace (restoreSession net2 (Ext.storage run)) = []
  /\ (Js.truthy (LocalStorage.getItem STORAGE_KEYS.SESSION_ID st) = true ->
      LocalStorage.getItem STORAGE_KEYS.CHAT_HISTORY (Ext.storage run) = None)
  /\ Ext.storage (restoreSession (inr err) st) = st.
Proof.
  cbv zeta.
  rewrite (restoreSession_unfold (inl {| valid := false |}) st),
    (restoreSession_unfold (inr err) st).
  destruct (LocalStorage.getItem STORAGE_KEYS.SESSION_ID st) as [saved|] eqn:Hsaved.
  - destruct (Js.truthy (Some saved)) eqn:Ht; cbn [Ext.storage Ext.trace fst snd valid].
    + assert (Hgone : LocalStorage.getItem STORAGE_KEYS.SESSION_ID
                        (LocalStorage.removeItem STORAGE_KEYS.CHAT_HISTORY
                           (LocalStorage.removeItem STORAGE_KEYS.SESSION_ID st))
                      = None).
      { rewrite StorageFacts.getItem_removeItem_other by discriminate.
        apply StorageFacts.getItem_removeItem. }
      rewrite restoreSession_unfold, Hgone.
      repeat split. intros _. apply StorageFacts.getItem_removeItem.
    + rewrite restoreSession_unfold, Hsaved, Ht. repeat split. discriminate.
  - cbn [Ext.storage Ext.trace fst snd]. rewrite restoreSession_unfold, Hsaved.
    repeat split. discriminate.
Qed.

Lemma invalid_session_is_forgotten_witness :
  LocalStorage.getItem STORAGE_KEYS.CHAT_HISTORY
    (Ext.storage (restoreSession (inl {| valid := false |}) saved)) = None.
Proof.
  destruct (invalid_session_is_forgotten saved (inr timeout) timeout) as (_ & _ & H & _).
  apply H. reflexivity.
Defined.

(** X20: What [uploadPDF] saves, [restoreSession] restores.  After the hook's
    [uploadPDF] of a PDF has resolved with a non-empty session id,
    [restoreSession] on the storage it leaves asks the backend about that
    id and, when the backend confirms it, sets [sessionId] of whatever store
    it runs on to that id and reports success. *)
Theorem saved_session_is_restored (state : AppState) (file : option File)
    (response : Api.UploadResponse) (sid : string) (st : LocalStorage.Storage) :
  isPdf file = true ->
  Api.session_id response = Some sid -> sid <> "" ->
  let st' := Ext.storage (uploadPDF file (inl response) st) in
  let run := restoreSession (inl {| valid := true |}) st' in
  fetched (Ext.trace run) = [getSessionInfo sid]
  /\ sessionId (storeAfterEvents state (Ext.trace run)) = Some sid
  /\ Ext.outcome run
     = Js.Return {| restore_success := true;
                    restore_sessionId := Some sid;
                    restore_error := None |}
  /\ Ext.storage run = st'.
Proof.
  intros Hpdf Hsid Hne. cbv zeta.
  assert (Hsaved : LocalStorage.getItem STORAGE_KEYS.SESSION_ID
                     (Ext.storage (uploadPDF file (inl response) st))
                   = Some sid).
  { pose proof (hook_upload_stores file response st Hpdf) as H.
    rewrite H, Hsid. reflexivity. }
  rewrite restoreSession_unfold, Hsaved.
  replace (Js.truthy (Some sid)) with true
    by (symmetry; cbn; apply negb_true_iff, String.eqb_neq, Hne).
  cbn. repeat split.
Qed.

Lemma saved_session_is_restored_witness :
  sessionId
    (storeAfterEvents initialState
       (Ext.trace
          (restoreSession (inl {| valid := true |})
             (Ext.storage
                (uploadPDF (Some smallPdf)
                   (inl {| Api.session_id := Some "s-2";
                           Api.upload_message := Some "ok" |}) [])))))
  = Some "s-2".
Proof.
  apply (saved_session_is_restored initialState (Some smallPdf)
           {| Api.session_id := Some "s-2"; Api.upload_message := Some "ok" |}
           "s-2" []); [reflexivity | reflexivity | discriminate].
Defined.

(** X21: Starting over forgets the session.  [clearPDF] resets the store to its
    initial state and removes the saved session id and chat history, so that
    a later [restoreSession] does nothing: no request, no dispatch. *)
Theorem clearPDF_forgets_session (state : AppState) (st : LocalStorage.Storage)
    (net : SessionInfo + Api.AxiosError) :
  let cleared := clearPDF st in
  storeAfterEvents state (Ext.trace cleared) = initialState
  /\ LocalStorage.getItem STORAGE_KEYS.SESSION_ID (Ext.storage cleared) = None
  /\ LocalStorage.getItem STORAGE_KEYS.CHAT_HISTORY (Ext.storage cleared) = None
  /\ Ext.trace (restoreSession net (Ext.storage cleared)) = [].
Proof.
  cbv zeta. unfold clearPDF. cbn.
  assert (Hgone : LocalStorage.getItem STORAGE_KEYS.SESSION_ID
                    (LocalStorage.removeItem STORAGE_KEYS.CHAT_HISTORY
                       (LocalStorage.removeItem STORAGE_KEYS.SESSION_ID st))
                  = None).
  { rewrite StorageFacts.getItem_removeItem_other by discriminate.
    apply StorageFacts.getItem_removeItem. }
  rewrite restoreSession_unfold, Hgone.
  repeat split. apply StorageFacts.getItem_removeItem.
Qed.

(** X22: Clearing the chat keeps the session.  [ChatHook.clearChat] dispatches
    CLEAR_CHAT only and removes the saved chat history, leaving the saved
    session id as it is, so [restoreSession] afterwards does what it would
    have done before. *)
Theorem clearChat_keeps_session (st : LocalStorage.Storage)
    (net : SessionInfo + Api.AxiosError) :
  let cleared := ChatHook.clearChat st in
  Ext.trace cleared = [Core (Dispatch CLEAR_CHAT)]
  /\ LocalStorage.getItem STORAGE_KEYS.CHAT_HISTORY (Ext.storage cleared) = None
  /\ LocalStorage.getItem STORAGE_KEYS.SESSION_ID (Ext.storage cleared)
     = LocalStorage.getItem STORAGE_KEYS.SESSION_ID st
  /\ Ext.trace (restoreSession net (Ext.storage cleared))
     = Ext.trace (restoreSession net st)
  /\ Ext.outcome (restoreSession net (Ext.storage cleared))
     = Ext.outcome (restoreSession net st).
Proof.
  cbv zeta. unfold ChatHook.clearChat. cbn.
  assert (Hkept : LocalStorage.getItem STORAGE_KEYS.SESSION_ID
                    (LocalStorage.removeItem STORAGE_KEYS.CHAT_HISTORY st)
                  = LocalStorage.getItem STORAGE_KEYS.SESSION_ID st)
    by (apply StorageFacts.getItem_removeItem_other; discriminate).
  rewrite !restoreSession_unfold, Hkept.
  split; [reflexivity |].
  split; [apply StorageFacts.getItem_removeItem |].
  split; [reflexivity |].
  destruct (LocalStorage.getItem STORAGE_KEYS.SESSION_ID st) as [saved|];
    [| split; reflexivity].
  destruct (Js.truthy (Some saved)); [| split; reflexivity].
  destruct net as [info|err]; [destruct (valid info) |]; split; reflexivity.
Qed.

End SessionFacts.

(** ** Loading the history *)

Module HistoryFacts.
Import AppContext Constants Spec2 Samples Samples2 ChatHook.

Lemma forEach_dispatch (msgs : list ChatMessage) (st : LocalStorage.Storage) :
  Ext.forEach msgs (fun msg => Ext.dispatch (ADD_CHAT_MESSAGE msg)) st
  = (map (fun m => Core (Dispatch (ADD_CHAT_MESSAGE m))) msgs, st, Js.Return tt).
Proof.
  induction msgs as [|m msgs IH]; [reflexivity |].
  cbn [Ext.forEach map]. unfold Ext.bind at 1. cbn [Ext.dispatch].
  rewrite IH. reflexivity.
Qed.

Lemma coreEffects_messages (msgs : list ChatMessage) :
  dispatched (coreEffects (map (fun m => Core (Dispatch (ADD_CHAT_MESSAGE m))) msgs))
  = map ADD_CHAT_MESSAGE msgs.
Proof. induction msgs as [|m msgs IH]; cbn; [| rewrite IH]; reflexivity. Qed.

(** ADD_CHAT_MESSAGE only writes [chatMessages]. *)
Lemma dispatch_messages (state : AppState) (msgs : list ChatMessage) :
  dispatchAll state (map ADD_CHAT_MESSAGE msgs)
  = {| pdfFile := pdfFile state; pdfDocument := pdfDocument state;
       currentPage := currentPage state; totalPages := totalPages state;
       chatMessages := (chatMessages state ++ msgs)%list;
       isLoading := isLoading state; sessionId := sessionId state;
       error := error state; citations := citations state |}.
Proof.
  revert state. induction msgs as [|m msgs IH]; intros state.
  - cbn. rewrite app_nil_r. destruct state; reflexivity.
  - cbn [map]. rewrite ReducerFacts.dispatchAll_cons, IH. cbn.
    rewrite <- app_assoc. reflexivity.
Qed.

(** X23: A loaded history replaces the transcript.  [loadChatHistory] contacts
    the backend exactly when it is given a non-empty session id and never
    touches the storage.  When the backend returns at least one message, the
    transcript becomes exactly the returned messages, whatever it held
    before, [citations] is emptied and [error] cleared, and the rest of the
    store stays as it was; in every other case (no id, an empty or missing
    history, a rejected request) the store is left as it was. *)
Theorem history_replaces_transcript (state : AppState)
    (targetSessionId : option string)
    (net : HistoryResponse + Api.AxiosError) (st : LocalStorage.Storage) :
  let run := loadChatHistory targetSessionId net st in
  let state' := storeAfterEvents state (Ext.trace run) in
  Ext.storage run = st
  /\ fetched (Ext.trace run)
     = match targetSessionId with
       | Some target => if Js.truthy targetSessionId then [getChatHistory target] else []
       | None => []
       end
  /\ match Js.truthy targetSessionId, net with
     | true, inl {| messages := Some (m :: msgs) |} =>
         state' = {| pdfFile := pdfFile state; pdfDocument := pdfDocument state;
                     currentPage := currentPage state; totalPages := totalPages state;
                     chatMessages := m :: msgs;
                     isLoading := isLoading state; sessionId := sessionId state;
                     error := None; citations := [] |}
         /\ Ext.outcome run
            = Js.Return {| history_success := true;
                           history_messages := Some (m :: msgs);
                           history_error := None |}
     | true, inl response =>
         state' = state
         /\ Ext.outcome run
            = Js.Return {| history_success := true;
                           history_messages := messages response;
                           history_error := None |}
     | true, inr err =>
         state' = state
         /\ Ext.outcome run
            = Js.Return {| history_success := false;
                           history_messages := None;
                           history_error :=
                             Some (Api.rejectionMessage err
                                     "Failed to load chat history") |}
     | false, _ =>
         state' = state
         /\ Ext.outcome run
            = Js.Return {| history_success := false;
                           history_messages := None;
                           history_error := Some "No session ID" |}
     end.
Proof.
  cbv zeta. unfold loadChatHistory.
  assert (Hid : forall s : AppState, storeAfterEvents s [] = s) by reflexivity.
  destruct targetSessionId as [target|]; [| cbn; repeat split].
  destruct (Js.truthy (Some target)) eqn:Ht; cbn [negb]; [| cbn; repeat split].
  destruct net as [[[[|m msgs]|]]|err].
  - cbn. repeat split.
  - unfold Ext.try_catch, Ext.bind, Ext.fetch, Api.settle.
    cbn [messages List.length]. 
    replace (0 <? Z.of_nat (S (List.length msgs))) with true
      by (symmetry; apply Z.ltb_lt; lia).
    cbn [Ext.dispatch]. rewrite forEach_dispatch.
    cbn [Ext.ret Ext.storage Ext.trace Ext.outcome fst snd app fetched].
    split; [reflexivity |]. split.
    + rewrite !app_nil_r. cbn [fetched].
      clear. induction (m :: msgs) as [|x l IH]; [reflexivity | exact IH].
    + split; [| reflexivity].
      unfold storeAfterEvents, storeAfter. rewrite !app_nil_r.
      cbn [coreEffects dispatched].
      change (map (fun m0 => Core (Dispatch (ADD_CHAT_MESSAGE m0))) (m :: msgs))
        with (Core (Dispatch (ADD_CHAT_MESSAGE m))
                :: map (fun m0 => Core (Dispatch (ADD_CHAT_MESSAGE m0))) msgs).
      cbn [coreEffects dispatched].
      rewrite coreEffects_messages.
      rewrite !ReducerFacts.dispatchAll_cons, dispatch_messages. reflexivity.
  - cbn. repeat split.
  - cbn. repeat split.
Qed.

End HistoryFacts.

(** ** More on citation extraction *)

Module ExtractMoreFacts.
Import RegExp StringFacts RegExpFacts ExtractFacts ChatInterface Spec Spec2 Samples.

Lemma upper_length (s : string) : String.length (upper s) = String.length s.
Proof. induction s as [|c s IH]; cbn; [| rewrite IH]; reflexivity. Qed.

Lemma literal_long (lit digits : string) :
  literal lit digits -> (8 <= String.length lit)%nat.
Proof.
  intros (word & spaces & -> & Hword & Hsp & _ & Hds & _).
  apply (f_equal String.length) in Hword. rewrite upper_length in Hword.
  cbn in Hword. cbn [append String.length]. rewrite !length_append, Hword.
  destruct spaces; [contradiction |]. destruct digits; [contradiction |].
  cbn. lia.
Qed.

Lemma Scans_bound (s : string) (found : list Citation) :
  Scans s found -> (8 * List.length found <= String.length s)%nat.
Proof.
  induction 1 as [s Hnull|s digits rest found Hexec _ IH]; [cbn; lia |].
  destruct (exec_sound _ _ _ Hexec) as (pre & lit & -> & Hlit).
  apply literal_long in Hlit. rewrite !length_append. cbn [List.length]. lia.
Qed.

(** X24: A citation takes at least eight characters of text: the number of
    citations extracted, times eight, never exceeds the length of the text;
    a text shorter than eight characters yields none. *)
Theorem extraction_bound (text : string) :
  (8 * List.length (extractCitations text) <= String.length text)%nat
  /\ ((String.length text < 8)%nat -> extractCitations text = []).
Proof.
  pose proof (Scans_bound text _ (extractCitations_Scans text)) as H.
  split; [exact H |].
  intros Hshort. destruct (extractCitations text); [reflexivity | cbn in H; lia].
Qed.

Lemma extraction_bound_witness : extractCitations "(Page 1" = [].
Proof. apply (extraction_bound "(Page 1"). cbn. lia. Defined.

(** X25: Extraction splits at an opening parenthesis: the citations of a text
    followed by a text that starts with "(" are those of the first followed
    by those of the second. *)
Theorem extraction_splits_at_parenthesis (before after : string) :
  extractCitations (before ++ String "(" after)
  = (extractCitations before ++ extractCitations (String "(" after))%list.
Proof.
  apply Scans_extractCitations, Scans_app; apply extractCitations_Scans.
Qed.

Lemma digitsValue_nonneg (digits : string) (acc : Z) :
  0 <= acc -> Js.all Js.isDigit digits = true -> 0 <= digitsValue acc digits.
Proof.
  revert acc. induction digits as [|c ds IH]; intros acc Hacc Hall; [exact Hacc |].
  cbn in Hall. apply andb_true_iff in Hall. destruct Hall as [Hc Hds].
  cbn [digitsValue]. apply IH; [| exact Hds].
  unfold Js.isDigit in Hc. apply andb_true_iff in Hc. destruct Hc as [Hlo _].
  apply Nat.leb_le in Hlo. lia.
Qed.

(** X26: Extracted pages are never negative, and an extracted citation
    navigates unless its page is 0: a click on its chip dispatches
    SET_CURRENT_PAGE with its page when the page is positive and nothing when
    the text said "(Page 0)". *)
Theorem extracted_pages_navigate (text : string) (c : Citation) :
  In c (extractCitations text) ->
  exists n,
    page c = Some n /\ 0 <= n
    /\ dispatched (Eff.trace (CitationLink.handleCitationClick c))
       = (if n =? 0 then [] else [AppContext.SET_CURRENT_PAGE n]).
Proof.
  intros Hin.
  destruct (Scans_sound text _ (extractCitations_Scans text) c Hin)
    as (pre & lit & digits & post & _ & Hlit & ->).
  destruct (literal_digits _ _ Hlit) as [Hne Hall].
  rewrite (pageReference_digits digits Hne Hall).
  exists (Js.toNumber (digitsValue 0 digits)).
  split; [reflexivity |].
  split; [apply toNumber_nonneg, digitsValue_nonneg; [lia | exact Hall] |].
  unfold CitationLink.handleCitationClick. cbn [page pageCitation Js.truthy_num].
  destruct (Js.toNumber (digitsValue 0 digits) =? 0); reflexivity.
Qed.

Lemma extracted_pages_navigate_witness :
  exists n,
    page (pageCitation 12 "12") = Some n /\ 0 <= n
    /\ dispatched (Eff.trace (CitationLink.handleCitationClick (pageCitation 12 "12")))
       = (if n =? 0 then [] else [AppContext.SET_CURRENT_PAGE n]).
Proof.
  apply (extracted_pages_navigate twoReferences (pageCitation 12 "12")).
  cbn. right. left. reflexivity.
Defined.

Lemma isWhiteSpace_canonicalize (c : ascii) :
  Js.isWhiteSpace (canonicalize c) = Js.isWhiteSpace c.
Proof. destruct c as [[] [] [] [] [] [] [] []]; reflexivity. Qed.

Lemma isDigit_canonicalize (c : ascii) :
  Js.isDigit (canonicalize c) = Js.isDigit c.
Proof. destruct c as [[] [] [] [] [] [] [] []]; reflexivity. Qed.

Lemma digit_canonical (c : ascii) : Js.isDigit c = true -> canonicalize c = c.
Proof. destruct c as [[] [] [] [] [] [] [] []]; vm_compute; congruence. Qed.

Lemma upper_digits (digits : string) :
  Js.all Js.isDigit digits = true -> upper digits = digits.
Proof.
  induction digits as [|c ds IH]; [reflexivity |].
  cbn. intros H. apply andb_true_iff in H. destruct H as [Hc Hds].
  rewrite (digit_canonical c Hc), (IH Hds). reflexivity.
Qed.

Lemma chr_i_upper (p : ascii) (s : string) (k k' : string -> option (string * string)) :
  (forall r, k' (upper r) = raised (k r)) ->
  andThen (chr_i p (upper s)) k' = raised (andThen (chr_i p s) k).
Proof.
  intros Hk. destruct s as [|c s]; [reflexivity |].
  cbn [upper chr_i]. rewrite canonicalize_idempotent.
  destruct (Ascii.eqb (canonicalize c) (canonicalize p)); [apply Hk | reflexivity].
Qed.

Lemma plus_upper (cls : ascii -> bool) (s : string)
    (k k' : string -> string -> option (string * string)) :
  (forall c, cls (canonicalize c) = cls c) ->
  (forall m r, k' (upper m) (upper r) = raised (k m r)) ->
  plus cls (upper s) k' = raised (plus cls s k).
Proof.
  intros Hcls. revert k k'. induction s as [|c s IH]; intros k k' Hk; [reflexivity |].
  cbn [upper plus]. rewrite Hcls. destruct (cls c); [| reflexivity].
  rewrite (IH (fun m r => k (String c m) r) (fun m r => k' (String (canonicalize c) m) r))
    by (intros m r; apply (Hk (String c m) r)).
  destruct (plus cls s _) as [[ds rest]|]; [reflexivity |].
  apply (Hk (String c "") s).
Qed.

Lemma citationRegex_upper (s : string) :
  citationRegex (upper s) = raised (citationRegex s).
Proof.
  unfold citationRegex.
  repeat (apply chr_i_upper; intros ?).
  apply plus_upper; [exact isWhiteSpace_canonicalize |]. intros ? ?.
  apply plus_upper; [exact isDigit_canonicalize |]. intros ? ?.
  apply chr_i_upper. intros ?. reflexivity.
Qed.

Lemma exec_upper (s : string) : exec (upper s) = raised (exec s).
Proof.
  induction s as [|c s IH]; [reflexivity |].
  cbn [upper]. cbn [exec].
  change (String (canonicalize c) (upper s)) with (upper (String c s)).
  rewrite citationRegex_upper.
  destruct (citationRegex (String c s)) as [[ds rest]|]; [reflexivity | exact IH].
Qed.

Lemma Scans_upper (s : string) (found : list Citation) :
  Scans s found -> Scans (upper s) found.
Proof.
  induction 1 as [s Hnull|s digits rest found Hexec _ IH].
  - apply Scans_null. rewrite exec_upper, Hnull. reflexivity.
  - destruct (exec_sound _ _ _ Hexec) as (_ & lit & _ & Hlit).
    destruct (literal_digits _ _ Hlit) as [_ Hall].
    apply (Scans_push _ digits (upper rest)); [| exact IH].
    rewrite exec_upper, Hexec. cbn [raised]. rewrite (upper_digits digits Hall).
    reflexivity.
Qed.

(** X27: Extraction does not depend on letter case anywhere in the text: the
    text with every letter a-z replaced by its capital yields the same
    citations. *)
Theorem extraction_ignores_case (text : string) :
  extractCitations (upper text) = extractCitations text.
Proof.
  apply Scans_extractCitations, Scans_upper, extractCitations_Scans.
Qed.

End ExtractMoreFacts.

(** ** More on the chips of a message *)

Module RenderMoreFacts.
Import ChatInterface Spec Spec2 Samples RenderFacts.

Section WithKeys.
Context {K V : Type} (eqb : K -> K -> bool).
Hypothesis eqb_eq : forall a b, eqb a b = true <-> a = b.

Lemma set_fresh (m : list (K * V)) (k : K) (v : V) :
  ~ In k (JsMap.keys m) -> JsMap.set eqb m k v = (m ++ [(k, v)])%list.
Proof.
  induction m as [|[k' v'] m IH]; cbn; [reflexivity |].
  intros Hnot. destruct (eqb k' k) eqn:E.
  - apply eqb_eq in E. tauto.
  - rewrite IH by tauto. reflexivity.
Qed.

(** Entries with pairwise distinct keys go through [new Map] unchanged. *)
Lemma ofEntries_distinct (es : list (K * V)) :
  NoDup (map fst es) -> JsMap.ofEntries eqb es = es.
Proof.
  induction es as [|[k v] es IH] using rev_ind; [reflexivity |].
  rewrite map_app. cbn [map fst]. intros Hnd.
  apply NoDup_remove in Hnd. rewrite app_nil_r in Hnd. destruct Hnd as [Hnd Hfresh].
  rewrite (JsMapFacts.ofEntries_snoc eqb), (IH Hnd).
  apply set_fresh. exact Hfresh.
Qed.
End WithKeys.

Lemma uniqueCitations_distinct (cs : list Citation) :
  NoDup (map page cs) -> uniqueCitations cs = cs.
Proof.
  intros Hnd. unfold uniqueCitations, JsMap.values.
  rewrite (ofEntries_distinct samePage samePage_eq)
    by (rewrite map_map; exact Hnd).
  rewrite map_map. apply map_id.
Qed.

(** X28: Deduplication settles at once.  A list whose citations have pairwise
    distinct pages is rendered as it is, one chip per citation in stored
    order; so deduplicating a deduplicated list changes nothing. *)
Theorem dedup_is_idempotent (cs : list Citation) :
  (NoDup (map page cs) -> uniqueCitations cs = cs)
  /\ uniqueCitations (uniqueCitations cs) = uniqueCitations cs.
Proof.
  split; [apply uniqueCitations_distinct |].
  apply uniqueCitations_distinct.
  rewrite uniqueCitations_pages. apply firstSeen_NoDup.
Qed.

Lemma dedup_is_idempotent_witness :
  uniqueCitations [cite (Some 3) "first"; cite None "second"; cite (Some 7) "third"]
  = [cite (Some 3) "first"; cite None "second"; cite (Some 7) "third"].
Proof.
  destruct (dedup_is_idempotent
              [cite (Some 3) "first"; cite None "second"; cite (Some 7) "third"])
    as [H _].
  apply H. repeat constructor; cbn; intuition discriminate.
Defined.

Lemma find_app {A} (f : A -> bool) (l1 l2 : list A) :
  find f (l1 ++ l2) = match find f l1 with
                      | Some x => Some x
                      | None => find f l2
                      end.
Proof.
  induction l1 as [|x l1 IH]; [reflexivity |].
  cbn. destruct (f x); [reflexivity | exact IH].
Qed.

(** X29: Chips show stored citations, one for every stored page.  Every chip of
    a message shows one of its stored citations; every stored citation has
    a chip for its page; and there are at most as many chips as stored
    citations, and none only when none is stored. *)
Theorem chips_cover_the_stored_pages (msg : ChatMessage) (cs : list Citation) :
  msg_citations msg = Some cs ->
  let chips := renderMessage msg in
  (forall chip, In chip chips -> In (CitationLink.citation chip) cs)
  /\ (forall c, In c cs -> exists chip, In chip chips /\ chipPage chip = page c)
  /\ (List.length chips <= List.length cs)%nat
  /\ (chips = [] <-> cs = []).
Proof.
  intros Hcs. cbv zeta.
  pose proof (renderMessage_citations msg cs Hcs) as Hchips.
  pose proof (uniqueCitations_pages cs) as Hpages.
  assert (Hin : forall chip, In chip (renderMessage msg) ->
                             In (CitationLink.citation chip) cs).
  { intros chip Hchip.
    assert (Hu : In (CitationLink.citation chip) (uniqueCitations cs))
      by (rewrite <- Hchips; apply in_map; exact Hchip).
    apply uniqueCitations_last, find_some in Hu.
    apply in_rev. exact (proj1 Hu). }
  assert (Hcover : forall c, In c cs ->
                             exists chip, In chip (renderMessage msg)
                                          /\ chipPage chip = page c).
  { intros c Hc.
    assert (Hp : In (page c) (map page (uniqueCitations cs))).
    { rewrite Hpages. apply firstSeen_In, in_map. exact Hc. }
    rewrite <- Hchips, map_map in Hp. apply in_map_iff in Hp.
    destruct Hp as (chip & Hpage & Hchip). exists chip. split; assumption. }
  split; [exact Hin | split; [exact Hcover | split]].
  - rewrite <- (length_map CitationLink.citation), Hchips.
    rewrite <- (length_map page (uniqueCitations cs)), Hpages.
    rewrite <- (length_map page cs).
    apply NoDup_incl_length; [apply firstSeen_NoDup |].
    intros x Hx. exact (proj1 (firstSeen_In _ _) Hx).
  - split.
    + intros Hnil. destruct cs as [|c cs]; [reflexivity |].
      destruct (Hcover c (or_introl eq_refl)) as (chip & Hchip & _).
      rewrite Hnil in Hchip. destruct Hchip.
    + intros ->. unfold renderMessage. rewrite Hcs. reflexivity.
Qed.

Lemma chips_cover_the_stored_pages_witness :
  (List.length (renderMessage (reply threeThreeSeven))
   <= List.length threeThreeSeven)%nat.
Proof.
  apply (chips_cover_the_stored_pages (reply threeThreeSeven) threeThreeSeven eq_refl).
Defined.

(** X30: Later citations override earlier ones of the same page.  For a message
    whose stored citations are a first list followed by a second (as in
    [handleSendMessage], which stores the backend's citations followed by the
    extracted ones), a chip whose page occurs in the second list shows a
    citation of the second list, and any other chip shows one of the
    first. *)
Theorem later_citations_override (msg : ChatMessage) (earlier later : list Citation) :
  msg_citations msg = Some (earlier ++ later)%list ->
  forall chip, In chip (renderMessage msg) ->
    if existsb (fun c => samePage (page c) (chipPage chip)) later
    then In (CitationLink.citation chip) later
    else In (CitationLink.citation chip) earlier.
Proof.
  intros Hcs chip Hchip.
  pose proof (renderMessage_citations msg _ Hcs) as Hchips.
  assert (Hu : In (CitationLink.citation chip) (uniqueCitations (earlier ++ later)))
    by (rewrite <- Hchips; apply in_map; exact Hchip).
  apply uniqueCitations_last in Hu.
  rewrite rev_app_distr, find_app in Hu. fold (chipPage chip) in Hu.
  destruct (find (fun x => samePage (page x) (chipPage chip)) (rev later))
    as [c|] eqn:Hfind.
  - injection Hu as <-. apply find_some in Hfind. destruct Hfind as [Hin Hsame].
    replace (existsb (fun c0 => samePage (page c0) (chipPage chip)) later) with true.
    + apply in_rev. exact Hin.
    + symmetry. apply existsb_exists. exists c. split; [apply in_rev; exact Hin | exact Hsame].
  - replace (existsb (fun c0 => samePage (page c0) (chipPage chip)) later) with false.
    + apply find_some in Hu. apply in_rev. exact (proj1 Hu).
    + symmetry. apply not_true_is_false. intros Hex.
      apply existsb_exists in Hex. destruct Hex as (c & Hin & Hsame).
      apply in_rev in Hin.
      pose proof (find_none _ _ Hfind c Hin) as Hno. cbn in Hno.
      rewrite Hsame in Hno. discriminate.
Qed.

Lemma later_citations_override_witness :
  In (pageCitation 5 "5") [pageCitation 5 "5"].
Proof.
  apply (later_citations_override
           (reply [cite (Some 5) "backend"; pageCitation 5 "5"])
           [cite (Some 5) "backend"] [pageCitation 5 "5"] eq_refl
           {| CitationLink.key := "5-0";
              CitationLink.citation := pageCitation 5 "5";
              CitationLink.index := 0 |}).
  left. reflexivity.
Defined.

End RenderMoreFacts.

(** ** The chips of citations whose page is [null] or absent *)

Module RawRenderFacts.
Import Raw.

Lemma samePageField_eq (a b : PageField) : samePageField a b = true <-> a = b.
Proof.
  destruct a as [| |x], b as [| |y]; cbn; split; try congruence.
  - intros H. apply Z.eqb_eq in H. congruence.
  - intros [= ->]. apply Z.eqb_refl.
Qed.

Lemma find_raw_entries (k : PageField) (cs : list RawCitation) :
  find (fun e => samePageField (fst e) k) (map entry cs)
  = option_map entry (find (hasPage k) cs).
Proof.
  induction cs as [|c cs IH]; cbn; [reflexivity |].
  unfold hasPage at 1. destruct (samePageField (raw_page c) k); [reflexivity | exact IH].
Qed.

(** What the map keeps under a key is a citation with this page field, the
    last one of the list. *)
Lemma kept_raw_entry (cs : list RawCitation) (k : PageField) (c : RawCitation) :
  In (k, c) (JsMap.ofEntries samePageField (map entry cs)) ->
  k = raw_page c /\ find (hasPage (raw_page c)) (rev cs) = Some c.
Proof.
  intros Hin.
  apply (JsMapFacts.ofEntries_last samePageField samePageField_eq pageField_eq_dec)
    in Hin.
  rewrite <- map_rev, find_raw_entries in Hin.
  destruct (find _ (rev cs)) as [c'|] eqn:Hfind; [| discriminate].
  injection Hin as Hk Hc. subst c'. subst k.
  split; [reflexivity | exact Hfind].
Qed.

Lemma unique_pages (cs : list RawCitation) :
  map raw_page (uniqueCitations cs)
  = rev (nodup pageField_eq_dec (rev (map raw_page cs))).
Proof.
  unfold uniqueCitations, JsMap.values.
  change (fun c => (raw_page c, c)) with entry.
  replace (map raw_page cs) with (map fst (map entry cs))
    by (rewrite map_map; reflexivity).
  rewrite <- (JsMapFacts.keys_ofEntries samePageField samePageField_eq
                pageField_eq_dec).
  unfold JsMap.keys. rewrite map_map.
  apply map_ext_in. intros [k c] Hin. cbn.
  destruct (kept_raw_entry cs k c Hin) as [-> _]. reflexivity.
Qed.

Lemma unique_NoDup (cs : list RawCitation) :
  NoDup (map raw_page (uniqueCitations cs)).
Proof. rewrite unique_pages. apply NoDup_rev, NoDup_nodup. Qed.

Lemma unique_In (cs : list RawCitation) (k : PageField) :
  In k (map raw_page (uniqueCitations cs)) <-> In k (map raw_page cs).
Proof.
  rewrite unique_pages, <- in_rev, nodup_In, <- in_rev. reflexivity.
Qed.

Lemma unique_last (cs : list RawCitation) (c : RawCitation) :
  In c (uniqueCitations cs) ->
  find (hasPage (raw_page c)) (rev cs) = Some c.
Proof.
  unfold uniqueCitations, JsMap.values. intros Hin.
  apply in_map_iff in Hin. destruct Hin as [[k c'] [Hc Hin]]. cbn in Hc. subst c'.
  exact (proj2 (kept_raw_entry cs k c Hin)).
Qed.

(** The chips are the deduplicated citations, one chip each, in order. *)
Lemma renderCitations_citations (cs : list RawCitation) :
  map chip_citation (renderCitations (Some cs)) = uniqueCitations cs.
Proof.
  unfold renderCitations.
  destruct cs as [|c cs]; [reflexivity |].
  replace (0 <? Z.of_nat (List.length (c :: cs))) with true
    by (symmetry; apply Z.ltb_lt; cbn [List.length]; lia).
  unfold mapi. rewrite (RenderFacts.map_mapi_from _ _ (fun x => x)) by reflexivity.
  apply map_id.
Qed.

(** Among citations with pairwise distinct page fields at most one has a
    given one. *)
Lemma hasPage_at_most_one (k : PageField) (l : list RawCitation) :
  NoDup (map raw_page l) ->
  filter (hasPage k) l = [] \/ exists c, filter (hasPage k) l = [c].
Proof.
  induction l as [|c l IH]; cbn; [left; reflexivity |].
  intros Hnd. inversion Hnd as [|? ? Hfresh Hnd']; subst.
  destruct (hasPage k c) eqn:Hc; [| exact (IH Hnd')].
  right. exists c. f_equal.
  destruct (filter (hasPage k) l) as [|c' rest] eqn:Hf; [reflexivity |].
  exfalso. apply Hfresh.
  assert (Hin : In c' (filter (hasPage k) l)) by (rewrite Hf; left; reflexivity).
  apply filter_In in Hin. destruct Hin as [Hin Hc'].
  apply samePageField_eq in Hc. apply samePageField_eq in Hc'.
  rewrite Hc, <- Hc'. apply in_map. exact Hin.
Qed.

Lemma filter_chips (p : RawCitation -> bool) (chips : list Chip) :
  map chip_citation (filter (fun ch => p (chip_citation ch)) chips)
  = filter p (map chip_citation chips).
Proof. apply RenderFacts.filter_map_comm. Qed.

(** The citations without a page are those whose page is absent and those
    whose page is [null]. *)
Lemma lacksPage_count (l : list RawCitation) :
  List.length (filter lacksPage l)
  = (List.length (filter (hasPage PageUndefined) l)
     + List.length (filter (hasPage PageNull) l))%nat.
Proof.
  unfold lacksPage, hasPage.
  induction l as [|c l IH]; [reflexivity |].
  cbn [filter]. destruct (raw_page c); cbn [samePageField List.length]; lia.
Qed.

Lemma at_most_one_length {A} (l : list A) :
  l = [] \/ (exists c, l = [c]) -> (List.length l <= 1)%nat.
Proof. intros [->|[c ->]]; cbn; lia. Qed.

Lemma samePageField_ofPage (a b : option Z) :
  samePageField (ofPage a) (ofPage b) = samePage a b.
Proof. destruct a, b; reflexivity. Qed.

Lemma set_ofCitation (m : list (option Z * Citation)) (k : option Z) (c : Citation) :
  JsMap.set samePageField
    (map (fun e => (ofPage (fst e), ofCitation (snd e))) m) (ofPage k) (ofCitation c)
  = map (fun e => (ofPage (fst e), ofCitation (snd e))) (JsMap.set samePage m k c).
Proof.
  induction m as [|[k' v'] m IH]; [reflexivity |].
  cbn [map JsMap.set fst snd]. rewrite samePageField_ofPage.
  destruct (samePage k' k); [reflexivity |].
  cbn [map fst snd]. rewrite IH. reflexivity.
Qed.

Lemma ofEntries_ofCitation (cs : list Citation) :
  JsMap.ofEntries samePageField (map entry (map ofCitation cs))
  = map (fun e => (ofPage (fst e), ofCitation (snd e)))
      (JsMap.ofEntries samePage (map Spec.entry cs)).
Proof.
  induction cs as [|c cs IH] using rev_ind; [reflexivity |].
  rewrite !map_app. cbn [map].
  change (entry (ofCitation c)) with (ofPage (page c), ofCitation c).
  change (Spec.entry c) with (page c, c).
  rewrite (JsMapFacts.ofEntries_snoc samePageField).
  rewrite (JsMapFacts.ofEntries_snoc samePage).
  rewrite IH. apply set_ofCitation.
Qed.

(** On citations of the data model the two embeddings agree. *)
Lemma uniqueCitations_ofCitation (cs : list Citation) :
  uniqueCitations (map ofCitation cs)
  = map ofCitation (ChatInterface.uniqueCitations cs).
Proof.
  unfold uniqueCitations, ChatInterface.uniqueCitations, JsMap.values.
  change (fun c => (raw_page c, c)) with entry.
  change (fun c => (page c, c)) with Spec.entry.
  rewrite ofEntries_ofCitation, !map_map. reflexivity.
Qed.

Lemma mapi_from_map {A B C D} (f : A -> nat -> B) (g : C -> nat -> D)
    (h : C -> A) (h' : D -> B) (i : nat) (l : list C) :
  (forall x n, f (h x) n = h' (g x n)) ->
  mapi_from i f (map h l) = map h' (mapi_from i g l).
Proof.
  intros H. revert i. induction l as [|x l IH]; intros i; cbn; [reflexivity |].
  rewrite H, IH. reflexivity.
Qed.

Lemma renderCitations_ofCitation (msg : ChatMessage) :
  renderCitations (option_map (map ofCitation) (msg_citations msg))
  = map ofProps (ChatInterface.renderMessage msg).
Proof.
  unfold renderCitations, ChatInterface.renderMessage.
  destruct (msg_citations msg) as [cs|]; [| reflexivity].
  cbn [option_map]. rewrite length_map.
  destruct (0 <? Z.of_nat (List.length cs)); [| reflexivity].
  rewrite uniqueCitations_ofCitation. unfold mapi.
  apply mapi_from_map. intros c n.
  unfold ofProps, ChatInterface.chipKey. cbn.
  destruct (page c); reflexivity.
Qed.

(** C9, as the claim states it for every citation that lacks a page: a
    message with the citations [{page: null}] and [{}] has two citations
    without a page, and both get a chip, under the keys "null-0" and
    "undefined-1". *)
Lemma null_and_absent_pages_get_two_chips :
  ~ (forall cs : list RawCitation,
        (2 <= List.length (filter lacksPage cs))%nat ->
        (List.length (filter (fun ch => lacksPage (chip_citation ch))
                        (renderCitations (Some cs))) <= 1)%nat).
Proof.
  intros claim. specialize (claim nullAndAbsent).
  vm_compute in claim.
  specialize (claim (le_n 2)).
  apply Nat.nle_succ_diag_l in claim. exact claim.
Qed.

(** C9 (amended): the map of the render-time deduplication is keyed by the
    page field, under which the citations whose page is absent share the
    key [undefined] and those whose page is [null] share the key [null].
    For either key, and for any page number as well, at most one chip is
    rendered for all the citations of that key; when a message has two or
    more of them, exactly one chip is rendered for them, it shows the last
    of them, and fewer chips are rendered than citations are stored.  So at
    most two chips of a message have no page; [{page: null}, {}] gives
    two. *)
Theorem citations_of_one_key_share_a_chip (cs : list RawCitation) (k : PageField) :
  let chips := renderCitations (Some cs) in
  let ofKey := fun ch => hasPage k (chip_citation ch) in
  (List.length (filter ofKey chips) <= 1)%nat
  /\ ((2 <= List.length (filter (hasPage k) cs))%nat ->
      exists chip,
        filter ofKey chips = [chip]
        /\ find (hasPage k) (rev cs) = Some (chip_citation chip)
        /\ (List.length chips < List.length cs)%nat)
  /\ (List.length (filter (fun ch => lacksPage (chip_citation ch)) chips) <= 2)%nat
  /\ map chip_key (renderCitations (Some nullAndAbsent)) = ["null-0"; "undefined-1"].
Proof.
  cbv zeta.
  pose proof (renderCitations_citations cs) as Hchips.
  pose proof (unique_NoDup cs) as Hnd.
  assert (Hone : forall k',
             (List.length (filter (fun ch => hasPage k' (chip_citation ch))
                             (renderCitations (Some cs))) <= 1)%nat).
  { intros k'. rewrite <- (length_map chip_citation), filter_chips, Hchips.
    apply at_most_one_length, hasPage_at_most_one, Hnd. }
  split; [apply Hone |].
  split; [| split; [| reflexivity]].
  - intros Htwo.
    assert (Hsome : In k (map raw_page cs)).
    { destruct (filter (hasPage k) cs) as [|c rest] eqn:Hf; [cbn in Htwo; lia |].
      assert (Hin : In c (filter (hasPage k) cs)) by (rewrite Hf; left; reflexivity).
      apply filter_In in Hin. destruct Hin as [Hin Hc].
      apply samePageField_eq in Hc. rewrite <- Hc. apply in_map. exact Hin. }
    destruct (hasPage_at_most_one k _ Hnd) as [Hnone|[c Hc]].
    + exfalso.
      apply (proj2 (unique_In cs k)) in Hsome.
      apply in_map_iff in Hsome. destruct Hsome as [c [Hc Hin]].
      assert (Hin' : In c (filter (hasPage k) (uniqueCitations cs))).
      { apply filter_In. split; [exact Hin |].
        apply samePageField_eq. exact Hc. }
      rewrite Hnone in Hin'. exact Hin'.
    + rewrite <- Hchips, <- filter_chips in Hc.
      destruct (filter _ (renderCitations (Some cs))) as [|chip [|chip' rest]] eqn:Hf;
        try discriminate.
      injection Hc as Hc. exists chip.
      assert (Hmem : In chip (filter (fun ch => hasPage k (chip_citation ch))
                                (renderCitations (Some cs))))
        by (rewrite Hf; left; reflexivity).
      apply filter_In in Hmem. destruct Hmem as [Hin Hkey].
      apply samePageField_eq in Hkey.
      split; [reflexivity | split].
      * rewrite <- Hkey. apply unique_last.
        rewrite <- Hchips. apply in_map. exact Hin.
      * destruct (Nat.lt_ge_cases (List.length (renderCitations (Some cs)))
                    (List.length cs)) as [Hlt|Hge]; [exact Hlt | exfalso].
        assert (Hdistinct : NoDup (map raw_page cs)).
        { apply (NoDup_incl_NoDup (l:=map raw_page (uniqueCitations cs))).
          - exact Hnd.
          - rewrite <- Hchips, !length_map. exact Hge.
          - intros x Hx. exact (proj1 (unique_In cs x) Hx). }
        destruct (hasPage_at_most_one k cs Hdistinct) as [H0|[c0 H1]].
        -- rewrite H0 in Htwo. cbn in Htwo. lia.
        -- rewrite H1 in Htwo. cbn in Htwo. lia.
  - rewrite <- (length_map chip_citation), filter_chips, lacksPage_count.
    rewrite <- !filter_chips, !length_map.
    pose proof (Hone PageUndefined). pose proof (Hone PageNull). lia.
Qed.

Lemma citations_of_one_key_share_a_chip_witness :
  exists chip,
    filter (fun ch => hasPage PageUndefined (chip_citation ch))
      (renderCitations (Some threeAbsent)) = [chip]
    /\ find (hasPage PageUndefined) (rev threeAbsent) = Some (chip_citation chip)
    /\ (List.length (renderCitations (Some threeAbsent))
        < List.length threeAbsent)%nat.
Proof.
  destruct (citations_of_one_key_share_a_chip threeAbsent PageUndefined)
    as (_ & Hshare & _).
  apply Hshare. cbn. lia.
Defined.

End RawRenderFacts.
